(** * CodeDuel: the duel client and the scoring rules it displays

    A shallow embedding of the React/TypeScript client of CodeDuel
    (frontend/src) together with the parts of the duel engine that the
    client only talks to (scoring, answer validation), and the properties
    checked against it.

    Conventions of the embedding.

    - Instants and durations are integers ([Z]), in milliseconds since the
      epoch, as [Date.getTime()] and [Date.now()] return them.
    - A React component is a function of its state; every handler, timer
      callback and effect clean-up created by one render closes over the
      [const] bindings of that render.  The render whose bindings a closure
      sees is therefore an explicit argument ([Render]) of every handler, and
      a scheduled callback carries the render that created it.
    - A handler returns the list of effects it performs, in program order:
      state-setter calls, socket emissions, timers, navigation.
    - [console.log] and styling are left out. *)

From Stdlib Require Import ZArith QArith Qround Qminmax Lia.
From stdpp Require Import base gmap list strings.

Open Scope Z_scope.

(** ** JavaScript helpers *)

Module JS.

(** [Math.ceil (n / d)] for integers [n] and [d > 0]. *)
Definition ceil_div (n d : Z) : Z := - ((- n) / d).

(** Truthiness of a [string | undefined | null] value. *)
Definition truthy_string (s : option string) : bool :=
  match s with
  | None => false
  | Some v => negb (String.eqb v "")
  end.

(** [n || dflt] on a [number | undefined] value ([NaN] aside): [0] and
    [undefined] are falsy. *)
Definition number_or (n : option Z) (dflt : Z) : Z :=
  match n with
  | Some v => if v =? 0 then dflt else v
  | None => dflt
  end.

(** [a === b] on [string | undefined] values; [None] is [undefined]. *)
Definition strict_eq (a b : option string) : bool :=
  bool_decide (a = b).

End JS.

(** ** Messages of the socket protocol (types/index.ts, [SocketEvents]) *)

Module Types.

Record User := {
  user_id : string;
  username : string;
  rating : Z
}.

Record MatchmakingTicket := {
  ticket_id : string;
  ticket_userId : string;
  ticket_topic : string
}.

Record Scores := { player1 : Z; player2 : Z }.

(** Client to server.  The [topic] of [join_queue] is whatever the
    matchmaking screen found in [location.state], hence optional. *)
Inductive ClientMsg :=
| join_queue (userId : string) (topic : option string)
| cancel_queue (ticketId : string)
| answer (duelId : string) (questionIndex selectedIndex clientTs : Z).

Definition is_cancel_queue (m : ClientMsg) : bool :=
  match m with cancel_queue _ => true | _ => false end.

End Types.

(** ** Constants the screens display *)

Module Rules.

(** DuelLobby.tsx, "Duel Rules": 10 questions, 9 seconds each, +10 points
    for a correct answer, +1 bonus point per second remaining. *)
Definition questionsPerDuel : Z := 10.
Definition secondsPerQuestion : Z := 9.
Definition basePoints : Z := 10.
Definition bonusPerSecond : Z := 1.

(** ResultsScreen.tsx: the accuracy percentage divides the score by 190. *)
Definition accuracyDenominator : Z := 190.

End Rules.

(** ** Scoring policy of the duel engine *)

Module Scoring.

(** Modelled from the spec: the scoring function of the duel engine
    (backend/services/duel_service.py, not part of the client sources).
    [secondsRemainingAtAnswerTime = max(0, (deadline - answeredAt) / 1000)],
    a rational number of seconds. *)
Definition secondsRemainingAtAnswerTime (deadline answeredAt : Z) : Q :=
  Qmax 0 (inject_Z (deadline - answeredAt) / inject_Z 1000).

(** Modelled from the spec: the award for one question of one player slot
    (the scoring function of the duel engine, absent from the sources).
    No record or a wrong index gives 0; a correct answer gives
    [base (10) + floor(secondsRemainingAtAnswerTime)]. *)
Definition award (correct : bool) (deadline answeredAt : Z) : Z :=
  if correct
  then Rules.basePoints
       + Rules.bonusPerSecond * Qfloor (secondsRemainingAtAnswerTime deadline answeredAt)
  else 0.

(** Modelled from the spec: one question round as the duel engine (absent
    from the sources) times it: the question is broadcast at [round_start]
    with [deadline = now + 9s]; the player's answer, if any, is received at
    [round_answeredAt]. *)
Record Round := {
  round_correct : bool;
  round_start : Z;
  round_answeredAt : Z
}.

Definition round_deadline (r : Round) : Z :=
  round_start r + Rules.secondsPerQuestion * 1000.

Definition round_award (r : Round) : Z :=
  award (round_correct r) (round_deadline r) (round_answeredAt r).

(** Modelled from the spec: the score the duel engine (absent from the
    sources) keeps for a player is the sum of the per-question awards. *)
Definition total (rounds : list Round) : Z :=
  foldr (fun r acc => round_award r + acc) 0 rounds.

(** The fastest possible duel: every answer correct and received at the
    instant its question starts. *)
Definition perfect_round (start : Z) : Round :=
  {| round_correct := true; round_start := start; round_answeredAt := start |}.

Definition perfect_duel : list Round :=
  map (fun k => perfect_round (Z.of_nat k * 12000)) (seq 0 10).

End Scoring.

(** ** Answer validation of the duel engine *)

Module Engine.

(** Modelled from the spec: the states of the DuelSession state machine
    (the duel engine is absent from the sources). *)
Inductive SessionState :=
| PENDING
| COUNTDOWN
| ACTIVE (q : Z)
| GRADING (q : Z)
| COMPLETED
| CANCELED.

Record Question := {
  prompt : string;
  options : list string;
  correctIndex : Z
}.

Record PlayerSlot := { slot_userId : string; slot_score : Z }.

(** Modelled from the spec: the AnswerRecord of the data model (the
    AnswerProcessor is absent from the sources); [responseMs], which the
    spec does not define, is left out. *)
Record AnswerRecord := {
  rec_sessionId : string;
  rec_questionIndex : Z;
  rec_userId : string;
  rec_selectedIndex : Z;
  rec_correct : bool;
  rec_answeredAt : Z
}.

(** Modelled from the spec: the Session record of the data model (the
    DuelSession is absent from the sources), with the AnswerRecords the
    session holds in memory. *)
Record Session := {
  sess_id : string;
  sess_state : SessionState;
  sess_questionIndex : Z;
  sess_questions : list Question;
  sess_player1 : PlayerSlot;
  sess_player2 : PlayerSlot;
  sess_deadline : Z;
  sess_answered : gset string;
  sess_records : list AnswerRecord
}.

(** Modelled from the spec: the results of [submit] (the AnswerProcessor
    is absent from the sources). *)
Inductive SubmitResult :=
| Accepted (r : AnswerRecord)
| SessionNotFound
| StaleQuestion
| LateAnswer
| AlreadyAnswered.

Definition is_slot (s : Session) (uid : string) : bool :=
  bool_decide (uid = slot_userId (sess_player1 s))
  || bool_decide (uid = slot_userId (sess_player2 s)).

Definition is_active (s : Session) (q : Z) : bool :=
  match sess_state s with
  | ACTIVE q' => q' =? q
  | _ => false
  end.

(** The key of an AnswerRecord: (sessionId, questionIndex, userId). *)
Definition rec_key (r : AnswerRecord) : string * Z * string :=
  (rec_sessionId r, rec_questionIndex r, rec_userId r).

Definition has_key (k : string * Z * string) (r : AnswerRecord) : bool :=
  bool_decide (rec_key r = k).

Definition find_record (s : Session) (q : Z) (uid : string) : option AnswerRecord :=
  find (has_key (sess_id s, q, uid)) (sess_records s).

Definition has_record (s : Session) (q : Z) (uid : string) : bool :=
  match find_record s q uid with Some _ => true | None => false end.

(** Modelled from the spec: [correct] as the AnswerProcessor (absent from
    the sources) computes it: the selected index is the question's correct
    index.  An index outside the question array has no correct answer. *)
Definition is_correct (s : Session) (q sel : Z) : bool :=
  match sess_questions s !! Z.to_nat q with
  | Some qn => sel =? correctIndex qn
  | None => false
  end.

(** Modelled from the spec: the award of one player slot for question [q]
    (the grading step of the duel engine, absent from the sources): no
    record gives 0, otherwise the scoring policy applies to the record. *)
Definition award_for (s : Session) (q : Z) (uid : string) : Z :=
  match find_record s q uid with
  | Some r => Scoring.award (rec_correct r) (sess_deadline s) (rec_answeredAt r)
  | None => 0
  end.

Definition add_score (p : PlayerSlot) (pts : Z) : PlayerSlot :=
  {| slot_userId := slot_userId p; slot_score := slot_score p + pts |}.

(** Modelled from the spec: the transition [ACTIVE(q) -> GRADING(q)] of the
    session state machine (absent from the sources).  It is taken by the
    first of both-answered and timer-fired to observe [ACTIVE(q)]; in any
    other state it does nothing. *)
Definition grade (s : Session) (q : Z) : Session :=
  if is_active s q then
    {| sess_id := sess_id s;
       sess_state := GRADING q;
       sess_questionIndex := sess_questionIndex s;
       sess_questions := sess_questions s;
       sess_player1 :=
         add_score (sess_player1 s) (award_for s q (slot_userId (sess_player1 s)));
       sess_player2 :=
         add_score (sess_player2 s) (award_for s q (slot_userId (sess_player2 s)));
       sess_deadline := sess_deadline s;
       sess_answered := sess_answered s;
       sess_records := sess_records s |}
  else s.

Definition both_answered (s : Session) : bool :=
  bool_decide (slot_userId (sess_player1 s) ∈ sess_answered s)
  && bool_decide (slot_userId (sess_player2 s) ∈ sess_answered s).

(** Modelled from the spec: what the AnswerProcessor (absent from the
    sources) does on success: it records the AnswerRecord and signals the
    session that the player has answered, which grades the question when
    both players have. *)
Definition record_answer (s : Session) (r : AnswerRecord) : Session :=
  let s' :=
    {| sess_id := sess_id s;
       sess_state := sess_state s;
       sess_questionIndex := sess_questionIndex s;
       sess_questions := sess_questions s;
       sess_player1 := sess_player1 s;
       sess_player2 := sess_player2 s;
       sess_deadline := sess_deadline s;
       sess_answered := {[ rec_userId r ]} ∪ sess_answered s;
       sess_records := sess_records s ++ [r] |} in
  if both_answered s' then grade s' (rec_questionIndex r) else s'.

(** Modelled from the spec: [submit(sessionId, userId, questionIndex,
    selectedIndex, receivedAtEpochMs)] of the AnswerProcessor (absent from
    the sources), with the validation order of the spec, first failing
    check wins:
    1. the session exists and [userId] is one of its slots;
    2. [questionIndex] is the session's current question index;
    3. the session is in [ACTIVE(questionIndex)] and
       [receivedAtEpochMs <= deadline];
    4. there is no AnswerRecord for the key. *)
Definition submit (reg : gmap string Session)
    (sid uid : string) (q sel receivedAt : Z)
  : SubmitResult * gmap string Session :=
  match reg !! sid with
  | None => (SessionNotFound, reg)
  | Some s =>
      if negb (is_slot s uid) then (SessionNotFound, reg)
      else if negb (q =? sess_questionIndex s) then (StaleQuestion, reg)
      else if negb (is_active s q && (receivedAt <=? sess_deadline s))
      then (LateAnswer, reg)
      else if has_record s q uid then (AlreadyAnswered, reg)
      else
        let r := {| rec_sessionId := sess_id s;
                    rec_questionIndex := q;
                    rec_userId := uid;
                    rec_selectedIndex := sel;
                    rec_correct := is_correct s q sel;
                    rec_answeredAt := receivedAt |} in
        (Accepted r, <[ sid := record_answer s r ]> reg)
  end.

(** Modelled from the spec: [GRADING(q) -> ACTIVE(q+1)], or [COMPLETED]
    after question 9, with a new deadline for the next question. *)
Definition advance (s : Session) (newDeadline : Z) : Session :=
  match sess_state s with
  | GRADING q =>
      if q =? 9 then
        {| sess_id := sess_id s; sess_state := COMPLETED;
           sess_questionIndex := sess_questionIndex s;
           sess_questions := sess_questions s;
           sess_player1 := sess_player1 s; sess_player2 := sess_player2 s;
           sess_deadline := sess_deadline s;
           sess_answered := sess_answered s;
           sess_records := sess_records s |}
      else
        {| sess_id := sess_id s; sess_state := ACTIVE (q + 1);
           sess_questionIndex := q + 1;
           sess_questions := sess_questions s;
           sess_player1 := sess_player1 s; sess_player2 := sess_player2 s;
           sess_deadline := newDeadline;
           sess_answered := ∅;
           sess_records := sess_records s |}
  | _ => s
  end.

(** Modelled from the spec: the events the actor of a session (absent
    from the sources) processes, one at a time, and the removal of a session
    from the SessionManager. *)
Inductive Event :=
| EvSubmit (sid uid : string) (q sel receivedAt : Z)
| EvTimerFired (sid : string) (q : Z)
| EvAdvance (sid : string) (newDeadline : Z)
| EvRemove (sid : string).

Definition step (reg : gmap string Session) (ev : Event) : gmap string Session :=
  match ev with
  | EvSubmit sid uid q sel t => snd (submit reg sid uid q sel t)
  | EvTimerFired sid q => alter (fun s => grade s q) sid reg
  | EvAdvance sid d => alter (fun s => advance s d) sid reg
  | EvRemove sid => delete sid reg
  end.

Definition run (reg : gmap string Session) (evs : list Event) : gmap string Session :=
  foldl step reg evs.

(** At most one AnswerRecord per key. *)
Definition records_unique (s : Session) : Prop :=
  NoDup (map rec_key (sess_records s)).

(** A session in [ACTIVE(0)] with two players, used in the examples. *)
Definition q4 (ci : Z) : Question :=
  {| prompt := "q"; options := ["a"; "b"; "c"; "d"]; correctIndex := ci |}.

Definition demo_session : Session :=
  {| sess_id := "d1";
     sess_state := ACTIVE 0;
     sess_questionIndex := 0;
     sess_questions := map q4 [2; 0; 1; 3; 2; 0; 1; 3; 2; 0];
     sess_player1 := {| slot_userId := "alice"; slot_score := 0 |};
     sess_player2 := {| slot_userId := "bob"; slot_score := 0 |};
     sess_deadline := 9000;
     sess_answered := ∅;
     sess_records := [] |}.

Definition demo_registry : gmap string Session := {[ "d1" := demo_session ]}.

End Engine.

(** ** components/DuelScreen.tsx *)

Module DuelScreen.
Import Types.

Record Question := { prompt : string; options : list string }.

Record AnswerResult := {
  correct : bool;
  points_earned : Z;
  time_taken : Z
}.

(** The component's [useState] cells. *)
Record State := {
  currentQuestion : option Question;
  questionIndex : Z;
  timeLeft : Z;
  selectedAnswer : option Z;
  hasAnswered : bool;
  scores : Scores;
  showResult : bool;
  lastResult : option AnswerResult;
  isWaitingForNext : bool
}.

(** The initial values given to [useState]. *)
Definition initial : State :=
  {| currentQuestion := None;
     questionIndex := 0;
     timeLeft := 9;
     selectedAnswer := None;
     hasAnswered := false;
     scores := {| player1 := 0; player2 := 0 |};
     showResult := false;
     lastResult := None;
     isWaitingForNext := false |}.

(** The bindings one render of the component gives to the closures it
    creates: the state cells, [isConnected] and [socket] from [useSocket]
    ([socket] is [true] when it is not [null]) and [duelId] from the
    route. *)
Record Render := {
  state : State;
  isConnected : bool;
  socket : bool;
  duelId : string
}.

(** The payload of [question_start] as the handler reads it.  [deadline] is
    the instant [parseServerTime] makes of the field, an ISO date string in
    types/index.ts ([None] when the field is missing or empty; a string that
    does not parse is not modelled); [timeLimit] is in seconds. *)
Record QuestionStart := {
  qs_question : Question;
  qs_questionIndex : Z;
  qs_deadline : option Z;
  qs_timeLimit : option Z
}.

(** The payload of [duel_reconnected]. *)
Record DuelReconnected := {
  dr_duelId : string;
  dr_currentQuestion : option Z;
  dr_scores : Scores;
  dr_status : string
}.

Inductive Update :=
| setCurrentQuestion (q : option Question)
| setQuestionIndex (n : Z)
| setTimeLeft (n : Z)
| setSelectedAnswer (a : option Z)
| setHasAnswered (b : bool)
| setScores (s : Scores)
| setShowResult (b : bool)
| setLastResult (r : option AnswerResult)
| setIsWaitingForNext (b : bool).

(** Callbacks handed to [setTimeout], each with the render it closes
    over. *)
Inductive TimerFn :=
| updateTimerFn (r : Render) (deadline : Z)
| updateFallbackTimerFn (r : Render) (endTime : Z)
| autoSubmitFn (r : Render).

Inductive Effect :=
| Upd (u : Update)
| Emit (m : ClientMsg)
| ClearQuestionTimer
(** [window.questionTimer = setTimeout(f, delay)] *)
| SetQuestionTimer (f : TimerFn) (delay : Z)
(** [setTimeout(f, delay)], the handle dropped *)
| SetTimeout (f : TimerFn) (delay : Z)
| Uncaught (error : string).

Definition apply_update (s : State) (u : Update) : State :=
  match u with
  | setCurrentQuestion q =>
      {| currentQuestion := q; questionIndex := questionIndex s;
         timeLeft := timeLeft s; selectedAnswer := selectedAnswer s;
         hasAnswered := hasAnswered s; scores := scores s;
         showResult := showResult s; lastResult := lastResult s;
         isWaitingForNext := isWaitingForNext s |}
  | setQuestionIndex n =>
      {| currentQuestion := currentQuestion s; questionIndex := n;
         timeLeft := timeLeft s; selectedAnswer := selectedAnswer s;
         hasAnswered := hasAnswered s; scores := scores s;
         showResult := showResult s; lastResult := lastResult s;
         isWaitingForNext := isWaitingForNext s |}
  | setTimeLeft n =>
      {| currentQuestion := currentQuestion s; questionIndex := questionIndex s;
         timeLeft := n; selectedAnswer := selectedAnswer s;
         hasAnswered := hasAnswered s; scores := scores s;
         showResult := showResult s; lastResult := lastResult s;
         isWaitingForNext := isWaitingForNext s |}
  | setSelectedAnswer a =>
      {| currentQuestion := currentQuestion s; questionIndex := questionIndex s;
         timeLeft := timeLeft s; selectedAnswer := a;
         hasAnswered := hasAnswered s; scores := scores s;
         showResult := showResult s; lastResult := lastResult s;
         isWaitingForNext := isWaitingForNext s |}
  | setHasAnswered b =>
      {| currentQuestion := currentQuestion s; questionIndex := questionIndex s;
         timeLeft := timeLeft s; selectedAnswer := selectedAnswer s;
         hasAnswered := b; scores := scores s;
         showResult := showResult s; lastResult := lastResult s;
         isWaitingForNext := isWaitingForNext s |}
  | setScores sc =>
      {| currentQuestion := currentQuestion s; questionIndex := questionIndex s;
         timeLeft := timeLeft s; selectedAnswer := selectedAnswer s;
         hasAnswered := hasAnswered s; scores := sc;
         showResult := showResult s; lastResult := lastResult s;
         isWaitingForNext := isWaitingForNext s |}
  | setShowResult b =>
      {| currentQuestion := currentQuestion s; questionIndex := questionIndex s;
         timeLeft := timeLeft s; selectedAnswer := selectedAnswer s;
         hasAnswered := hasAnswered s; scores := scores s;
         showResult := b; lastResult := lastResult s;
         isWaitingForNext := isWaitingForNext s |}
  | setLastResult r =>
      {| currentQuestion := currentQuestion s; questionIndex := questionIndex s;
         timeLeft := timeLeft s; selectedAnswer := selectedAnswer s;
         hasAnswered := hasAnswered s; scores := scores s;
         showResult := showResult s; lastResult := r;
         isWaitingForNext := isWaitingForNext s |}
  | setIsWaitingForNext b =>
      {| currentQuestion := currentQuestion s; questionIndex := questionIndex s;
         timeLeft := timeLeft s; selectedAnswer := selectedAnswer s;
         hasAnswered := hasAnswered s; scores := scores s;
         showResult := showResult s; lastResult := lastResult s;
         isWaitingForNext := b |}
  end.

(** The state after React has applied the setter calls of a handler. *)
Definition apply_effects (s : State) (es : list Effect) : State :=
  foldl (fun acc e => match e with Upd u => apply_update acc u | _ => acc end) s es.

(** The messages a handler sent, in order. *)
Definition emitted (es : list Effect) : list ClientMsg :=
  omap (fun e => match e with Emit m => Some m | _ => None end) es.

(** [submitAnswer(optionIndex)], with [Date.now()] read as [now].  The
    guards read [hasAnswered], [timeLeft], [isConnected] and [socket] as
    render [r] bound them; setter calls made since, such as the
    [setTimeLeft] of the tick that calls it, do not change them. *)
Definition submitAnswer (r : Render) (optionIndex now : Z) : list Effect :=
  if hasAnswered (state r) || (timeLeft (state r) <=? 0) then []
  else if negb (isConnected r) || negb (socket r) then []
  else
    [ Emit (answer (duelId r) (questionIndex (state r)) optionIndex now);
      Upd (setSelectedAnswer (Some optionIndex));
      Upd (setHasAnswered true) ].

(** [updateTimer], the tick of the deadline branch, with [new Date()] read
    as [now]. *)
Definition updateTimer (r : Render) (deadline now : Z) : list Effect :=
  let remainingMs := deadline - now in
  let remainingSeconds := Z.max 0 (JS.ceil_div remainingMs 1000) in
  Upd (setTimeLeft remainingSeconds)
  :: (if 100 <? remainingMs
      then [ SetQuestionTimer (updateTimerFn r deadline) 100 ]
      else if negb (hasAnswered (state r))
           then [ SetTimeout (autoSubmitFn r) 100 ]
           else []).

(** [updateFallbackTimer], the tick of the [timeLimit] branch. *)
Definition updateFallbackTimer (r : Render) (endTime now : Z) : list Effect :=
  let remainingMs := endTime - now in
  let remainingSeconds := Z.max 0 (JS.ceil_div remainingMs 1000) in
  Upd (setTimeLeft remainingSeconds)
  :: (if 0 <? remainingMs
      then [ SetQuestionTimer (updateFallbackTimerFn r endTime) 100 ]
      else if negb (hasAnswered (state r))
           then submitAnswer r (-1) now
           else []).

(** [() => submitAnswer(-1).catch(...)]: [submitAnswer] runs and returns
    [undefined], so reading [.catch] of its result throws. *)
Definition autoSubmit (r : Render) (now : Z) : list Effect :=
  submitAnswer r (-1) now ++ [ Uncaught "TypeError" ].

(** Running a timer callback at instant [now]. *)
Definition fire (f : TimerFn) (now : Z) : list Effect :=
  match f with
  | updateTimerFn r deadline => updateTimer r deadline now
  | updateFallbackTimerFn r endTime => updateFallbackTimer r endTime now
  | autoSubmitFn r => autoSubmit r now
  end.

(** [handleQuestionStart(data)].  [startTime] is the [Date.now()] read for
    the fallback's [startTime]; [now] is the clock read by the first tick,
    which runs before the handler returns. *)
Definition handleQuestionStart (r : Render) (data : QuestionStart)
    (startTime now : Z) : list Effect :=
  [ ClearQuestionTimer;
    Upd (setCurrentQuestion (Some (qs_question data)));
    Upd (setQuestionIndex (qs_questionIndex data));
    Upd (setSelectedAnswer None);
    Upd (setHasAnswered false);
    Upd (setShowResult false);
    Upd (setIsWaitingForNext false) ]
  ++ match qs_deadline data with
     | Some deadline => updateTimer r deadline now
     | None =>
         let timeLimit := JS.number_or (qs_timeLimit data) 9 in
         let endTime := startTime + timeLimit * 1000 in
         Upd (setTimeLeft timeLimit) :: updateFallbackTimer r endTime now
     end.

(** [handleDuelReconnected(data)]. *)
Definition handleDuelReconnected (r : Render) (data : DuelReconnected) : list Effect :=
  [ Upd (setScores (dr_scores data));
    Upd (setQuestionIndex (JS.number_or (dr_currentQuestion data) 0)) ].

(** *** The timers of one question

    The callbacks a run leaves with a plain [setTimeout] fire [delay]
    milliseconds after the run at [now]. *)
Definition delayed (es : list Effect) (now : Z) : list Effect :=
  flat_map (fun e => match e with
                     | SetTimeout g delay => fire g (now + delay)
                     | _ => []
                     end) es.

(** The callback a run leaves in [window.questionTimer], if any. *)
Definition rearmed (es : list Effect) : option TimerFn :=
  last (omap (fun e => match e with
                       | SetQuestionTimer f _ => Some f
                       | _ => None
                       end) es).

(** Everything that follows a run with effects [es] at instant [now]: the
    question timer fires at the successive instants of [clock] for as long
    as it re-arms itself. *)
Fixpoint follow (clock : list Z) (es : list Effect) (now : Z) : list Effect :=
  es ++ delayed es now
     ++ match rearmed es, clock with
        | Some f, t :: clock' => follow clock' (fire f t) t
        | _, _ => []
        end.

(** One question from its [question_start] on: the handler runs at [now]
    and the question timer then fires at the instants of [clock]. *)
Definition questionRun (r : Render) (data : QuestionStart)
    (startTime now : Z) (clock : list Z) : list Effect :=
  follow clock (handleQuestionStart r data startTime now) now.

(** The tick at instant [now] finds the time of the question up: at most
    100ms before the deadline in the deadline branch, the end time reached
    in the fallback branch. *)
Definition timeUp (data : QuestionStart) (startTime now : Z) : bool :=
  match qs_deadline data with
  | Some deadline => deadline - now <=? 100
  | None =>
      startTime + JS.number_or (qs_timeLimit data) 9 * 1000 - now <=? 0
  end.

(** Effects that neither send a message nor arm a timer. *)
Definition quiet (e : Effect) : bool :=
  match e with
  | Upd _ | ClearQuestionTimer | Uncaught _ => true
  | _ => false
  end.

(** A render whose closures pass the guards of [submitAnswer]: no answer
    recorded, time on the clock, a connected socket. *)
Definition can_submit (r : Render) : Prop :=
  hasAnswered (state r) = false /\ 0 < timeLeft (state r)
  /\ isConnected r = true /\ socket r = true.

(** The auto-submitted answer of render [r]: [selectedIndex = -1]. *)
Definition no_answer (r : Render) (ts : Z) : ClientMsg :=
  answer (duelId r) (questionIndex (state r)) (-1) ts.

(** The number of seconds the screen shows ([{timeLeft}s left]) once the
    handler's setter calls are applied. *)
Definition displayed (s : State) : Z := timeLeft s.

(** The render in which the socket listeners are attached when the screen
    mounts with a connected socket. *)
Definition mount_render (duel : string) : Render :=
  {| state := initial; isConnected := true; socket := true; duelId := duel |}.

Definition demo_question : Question :=
  {| prompt := "2 + 2"; options := ["3"; "4"; "5"; "6"] |}.

(** Question 3, announced with its deadline at instant 9000. *)
Definition demo_start : QuestionStart :=
  {| qs_question := demo_question; qs_questionIndex := 3;
     qs_deadline := Some 9000; qs_timeLimit := Some 9 |}.

(** The same announcement without a deadline, and with another time
    limit. *)
Definition demo_start_fallback (timeLimit : option Z) : QuestionStart :=
  {| qs_question := demo_question; qs_questionIndex := 3;
     qs_deadline := None; qs_timeLimit := timeLimit |}.

(** The announcement as the fallback branch would read it: the same
    payload without its deadline. *)
Definition without_deadline (data : QuestionStart) : QuestionStart :=
  {| qs_question := qs_question data;
     qs_questionIndex := qs_questionIndex data;
     qs_deadline := None;
     qs_timeLimit := qs_timeLimit data |}.

(** The render that follows render [r] once the setter calls [es] are
    applied. *)
Definition rerender (r : Render) (es : list Effect) : Render :=
  {| state := apply_effects (state r) es;
     isConnected := isConnected r;
     socket := socket r;
     duelId := duelId r |}.

(** *** The rest of the duel screen *)

(** The payload of [question_end]. *)
Record QuestionEnd := {
  qe_questionIndex : Z;
  qe_correctIndex : Z;
  qe_explanation : string;
  qe_scores : Scores
}.

(** [handleQuestionEnd(data)], up to the [setTimeout]. *)
Definition handleQuestionEnd (data : QuestionEnd) : list Effect :=
  [ Upd (setShowResult true);
    Upd (setScores (qe_scores data));
    Upd (setIsWaitingForNext true) ].

(** The callback [handleQuestionEnd] leaves with [setTimeout(..., 3000)]. *)
Definition questionEndTimeout (data : QuestionEnd) : list Effect :=
  if qe_questionIndex data <? 9 then [ Upd (setIsWaitingForNext false) ] else [].

(** [handleAnswerSubmitted(data)]: [data.result] as it came. *)
Definition handleAnswerSubmitted (result : option AnswerResult) : list Effect :=
  [ Upd (setLastResult result) ].

(** [disabled={hasAnswered || timeLeft <= 0}] of the option buttons. *)
Definition optionDisabled (s : State) : bool :=
  hasAnswered s || (timeLeft s <=? 0).

(** The "Answer Result" card, shown for [lastResult && hasAnswered]. *)
Definition answerResultCard (s : State) : option AnswerResult :=
  if hasAnswered s then lastResult s else None.

(** The "Preparing next question..." card. *)
Definition waitingCard (s : State) : bool := isWaitingForNext s.

(** Clicks on option buttons, each handled by [submitAnswer] of the render
    that follows the previous click: the options clicked and the instants
    of the clicks. *)
Fixpoint clickOptions (r : Render) (cs : list (Z * Z)) : list Effect :=
  match cs with
  | [] => []
  | (index, now) :: cs' =>
      let es := submitAnswer r index now in
      es ++ clickOptions (rerender r es) cs'
  end.

(** The instant at which the countdown of an announcement reaches zero. *)
Definition zeroInstant (data : QuestionStart) (startTime : Z) : Z :=
  match qs_deadline data with
  | Some deadline => deadline
  | None => startTime + JS.number_or (qs_timeLimit data) 9 * 1000
  end.

(** The render of the screen in state [s], with a connected socket. *)
Definition connected_render (duel : string) (s : State) : Render :=
  {| state := s; isConnected := true; socket := true; duelId := duel |}.

(** *** Between two announcements

    What reaches the mounted screen apart from [question_start]: a click on
    an option button, a timer callback coming due (with the render it closes
    over), and the other socket events. *)
Inductive Happening :=
| Click (index now : Z)
| Due (f : TimerFn) (now : Z)
| QuestionEnded (data : QuestionEnd)
| QuestionEndTimeout (data : QuestionEnd)
| AnswerSubmitted (result : option AnswerResult)
| Reconnected (data : DuelReconnected).

(** The effects of one of them.  Only the click runs code of the current
    render [r]: [onClick={() => submitAnswer(index)}]. *)
Definition happen (r : Render) (h : Happening) : list Effect :=
  match h with
  | Click index now => submitAnswer r index now
  | Due f now => fire f now
  | QuestionEnded data => handleQuestionEnd data
  | QuestionEndTimeout data => questionEndTimeout data
  | AnswerSubmitted result => handleAnswerSubmitted result
  | Reconnected data => handleDuelReconnected r data
  end.

(** A sequence of them, each met by the render that follows the one
    before. *)
Fixpoint happenings (r : Render) (hs : list Happening) : list Effect :=
  match hs with
  | [] => []
  | h :: hs' =>
      let es := happen r h in
      es ++ happenings (rerender r es) hs'
  end.

End DuelScreen.

(** ** components/ResultsScreen.tsx *)

Module ResultsScreen.
Import Types.

Record Opponent := { opp_id : string; opp_username : string }.

(** The payload of [duel_end]. *)
Record DuelEnd := {
  de_duelId : string;
  de_winnerId : option string;
  de_finalScores : Scores;
  de_duration : Z
}.

(** What the screen destructures from [location.state || {}]. *)
Record LocationState := {
  ls_winnerId : option string;
  ls_finalScores : option Scores;
  ls_duration : option Z;
  ls_opponent : option Opponent;
  ls_topic : option string
}.

(** The [state] that [handleDuelEnd] of the duel screen passes to
    [navigate('/results/' + duelId, { state })]. *)
Definition handleDuelEnd (opponent : option Opponent) (topic : option string)
    (data : DuelEnd) : LocationState :=
  {| ls_winnerId := de_winnerId data;
     ls_finalScores := Some (de_finalScores data);
     ls_duration := Some (de_duration data);
     ls_opponent := opponent;
     ls_topic := topic |}.

Inductive Headline := Victory | TieGame | Defeat.

Inductive View :=
| Loading
| Results (h : Headline).

(** [winnerId === user?.id] *)
Definition isWinner (winnerId : option string) (user : option User) : bool :=
  JS.strict_eq winnerId (user_id <$> user).

(** [!winnerId] *)
Definition isTie (winnerId : option string) : bool :=
  negb (JS.truthy_string winnerId).

(** [isWinner ? 'Victory!' : isTie ? 'Tie Game!' : 'Defeat'] *)
Definition headline (winnerId : option string) (user : option User) : Headline :=
  if isWinner winnerId user then Victory
  else if isTie winnerId then TieGame
  else Defeat.

Definition view (ls : LocationState) (user : option User) : View :=
  match ls_finalScores ls, ls_opponent ls with
  | Some _, Some _ => Results (headline (ls_winnerId ls) user)
  | _, _ => Loading
  end.

(** [user?.id === 'player1' ? finalScores?.player1 : finalScores?.player2] *)
Definition userScore (user : option User) (finalScores : option Scores) : option Z :=
  if JS.strict_eq (user_id <$> user) (Some "player1")
  then player1 <$> finalScores
  else player2 <$> finalScores.

(** [user?.id === 'player1' ? finalScores?.player2 : finalScores?.player1] *)
Definition opponentScore (user : option User) (finalScores : option Scores) : option Z :=
  if JS.strict_eq (user_id <$> user) (Some "player1")
  then player2 <$> finalScores
  else player1 <$> finalScores.

End ResultsScreen.

(** ** components/TopicSelection.tsx: the topic screen *)

Module TopicSelection.

Record State := {
  selectedTopics : list string;
  topics : list string;
  isLoading : bool
}.

Inductive Effect :=
| Alert (msg : string)
| setIsLoading (b : bool)
(** [navigate(path, { state: { topic } })] *)
| Navigate (path : string) (topic : option string).

(** The updater that [toggleTopic(topic)] hands to [setSelectedTopics]. *)
Definition toggleTopic (topic : string) (prev : list string) : list string :=
  if bool_decide (topic ∈ prev)
  then filter (fun t => t ≠ topic) prev
  else prev ++ [topic].

(** [startDuel()] *)
Definition startDuel (s : State) : list Effect :=
  if (length (selectedTopics s) =? 0)%nat
  then [ Alert "Please select at least one topic" ]
  else [ setIsLoading true;
         Navigate "/matchmaking" (selectedTopics s !! 0%nat) ].

(** The topic a run of [startDuel] hands to the matchmaking route, if it
    navigates at all. *)
Definition navigated_topic (es : list Effect) : option (option string) :=
  head (omap (fun e => match e with Navigate _ t => Some t | _ => None end) es).

(** The selection after clicking the given topics one after the other. *)
Definition clicks (ts : list string) (sel : list string) : list string :=
  foldl (fun acc t => toggleTopic t acc) sel ts.


(** [disabled={selectedTopics.length === 0 || isLoading}] of the Start Duel
    button. *)
Definition startDisabled (s : State) : bool :=
  (length (selectedTopics s) =? 0)%nat || isLoading s.

(** How often topic [t] was clicked. *)
Definition clickCount (t : string) (ts : list string) : nat :=
  length (filter (fun x => x = t) ts).

(** The characters ['-'] (code 45) and [' '] (code 32). *)
Definition hyphen : Ascii.ascii :=
  Ascii.Ascii true false true true false true false false.
Definition space : Ascii.ascii :=
  Ascii.Ascii false false false false false true false false.

(** [topic.replace('-', ' ')], as the lobby, matchmaking and results screens
    show the topic: the first hyphen becomes a space. *)
Fixpoint replaceHyphen (topic : string) : string :=
  match topic with
  | EmptyString => EmptyString
  | String c rest =>
      if Ascii.eqb c hyphen then String space rest
      else String c (replaceHyphen rest)
  end.

(** The number of hyphens of a topic. *)
Fixpoint hyphens (topic : string) : nat :=
  match topic with
  | EmptyString => 0
  | String c rest => (if Ascii.eqb c hyphen then 1 else 0) + hyphens rest
  end.

End TopicSelection.

(** ** components/TopicSelection.tsx: the matchmaking screen *)

Module MatchmakingScreen.
Import Types.

Record State := {
  isSearching : bool;
  ticket : option MatchmakingTicket
}.

Definition initial : State := {| isSearching := false; ticket := None |}.

(** What the screen gets from its hooks: [user] from [useAuth], [socket]
    from [useSocket] ([true] when not [null]) and [topic] from
    [location.state?.topic]. *)
Record Context := {
  user : option User;
  socket : bool;
  topic : option string
}.

(** The bindings of one render. *)
Record Render := { ctx : Context; state : State }.

Inductive Effect :=
| setIsSearching (b : bool)
| setTicket (t : option MatchmakingTicket)
| Emit (m : ClientMsg)
| On (event : string)
| Off (event : string)
| Navigate (path : string)
| Alert (msg : string).

(** [emit] of SocketContext.tsx: sends when there is a socket, otherwise
    only warns. *)
Definition emit (r : Render) (m : ClientMsg) : list Effect :=
  if socket (ctx r) then [ Emit m ] else [].

(** [startMatchmaking()] *)
Definition startMatchmaking (r : Render) : list Effect :=
  match user (ctx r) with
  | None => []
  | Some u =>
      if negb (socket (ctx r)) then []
      else setIsSearching true
           :: emit r (join_queue (user_id u) (topic (ctx r)))
  end.

Definition handleQueueJoined (t : MatchmakingTicket) : list Effect :=
  [ setTicket (Some t) ].

Definition handleMatched (duelId : string) : list Effect :=
  [ setIsSearching false; Navigate ("/lobby/" +:+ duelId) ].

Definition handleError (message : string) : list Effect :=
  [ setIsSearching false; Alert ("Error: " +:+ message) ].

(** [cancelMatchmaking()], the click handler of the Cancel button. *)
Definition cancelMatchmaking (r : Render) : list Effect :=
  match ticket (state r) with
  | Some t => emit r (cancel_queue (ticket_id t))
  | None => []
  end
  ++ [ setIsSearching false; Navigate "/topics" ].

(** The function the effect returns.  It is created by the render in which
    the effect runs and closes over that render's [ticket]. *)
Inductive Cleanup := cleanupOf (r : Render).

Definition runCleanup (c : Cleanup) : list Effect :=
  match c with
  | cleanupOf r =>
      [ Off "queue_joined"; Off "matched"; Off "error" ]
      ++ match ticket (state r) with
         | Some t => emit r (cancel_queue (ticket_id t))
         | None => []
         end
  end.

(** The body of [useEffect(..., [user, topic])] in render [r]. *)
Definition effect (r : Render) : list Effect * option Cleanup :=
  match user (ctx r) with
  | Some _ =>
      if JS.truthy_string (topic (ctx r))
      then (startMatchmaking r ++ [ On "queue_joined"; On "matched"; On "error" ],
            Some (cleanupOf r))
      else ([ Navigate "/topics" ], None)
  | None => ([ Navigate "/topics" ], None)
  end.

(** *** The life of one mounted screen

    [user] and [topic], the dependencies of the effect, do not change
    while the screen is mounted, so the effect runs once, in the first
    render, and its clean-up runs when the screen unmounts. *)
Record Screen := {
  cur : State;
  live : option Cleanup;
  mounted : bool;
  sent : list ClientMsg
}.

Inductive Event :=
| QueueJoined (t : MatchmakingTicket)
| Matched (duelId : string)
| ErrorReceived (message : string)
| ClickCancel
| Unmount.

Definition apply_effect (s : State) (e : Effect) : State :=
  match e with
  | setIsSearching b => {| isSearching := b; ticket := ticket s |}
  | setTicket t => {| isSearching := isSearching s; ticket := t |}
  | _ => s
  end.

Definition emitted (es : list Effect) : list ClientMsg :=
  omap (fun e => match e with Emit m => Some m | _ => None end) es.

Definition navigates (es : list Effect) : bool :=
  existsb (fun e => match e with Navigate _ => true | _ => false end) es.

(** Unmounting runs the clean-up of the live effect. *)
Definition unmount (sc : Screen) : Screen :=
  {| cur := cur sc;
     live := None;
     mounted := false;
     sent := sent sc ++ match live sc with
                        | Some c => emitted (runCleanup c)
                        | None => []
                        end |}.

(** Running a handler: its setters and emissions take effect, and a
    [navigate] away unmounts the screen. *)
Definition perform (sc : Screen) (es : list Effect) : Screen :=
  let sc' := {| cur := foldl apply_effect (cur sc) es;
                live := live sc;
                mounted := mounted sc;
                sent := sent sc ++ emitted es |} in
  if navigates es then unmount sc' else sc'.

Definition mount (c : Context) : Screen :=
  let r := {| ctx := c; state := initial |} in
  let '(es, cl) := effect r in
  perform {| cur := initial; live := cl; mounted := true; sent := [] |} es.

(** Socket events reach the handlers only if the listeners were attached,
    that is if the effect ran with a socket. *)
Definition dispatch (c : Context) (sc : Screen) (ev : Event) : Screen :=
  if negb (mounted sc) then sc
  else
    match ev with
    | QueueJoined t =>
        if socket c then perform sc (handleQueueJoined t) else sc
    | Matched d =>
        if socket c then perform sc (handleMatched d) else sc
    | ErrorReceived m =>
        if socket c then perform sc (handleError m) else sc
    | ClickCancel =>
        perform sc (cancelMatchmaking {| ctx := c; state := cur sc |})
    | Unmount => unmount sc
    end.

Definition run (c : Context) (evs : list Event) : Screen :=
  foldl (dispatch c) (mount c) evs.

(** The clean-up of the live effect is the one the first render created;
    it closes over that render, whose [ticket] is [null]. *)
Definition first_cleanup (c : Context) (sc : Screen) : Prop :=
  live sc = None \/ live sc = Some (cleanupOf {| ctx := c; state := initial |}).

Definition demo_user : User :=
  {| user_id := "u1"; username := "ada"; rating := 1200 |}.

Definition demo_context : Context :=
  {| user := Some demo_user; socket := true; topic := Some "algorithms" |}.

Definition demo_ticket : MatchmakingTicket :=
  {| ticket_id := "t1"; ticket_userId := "u1"; ticket_topic := "algorithms" |}.


Definition is_join_queue (m : ClientMsg) : bool :=
  match m with join_queue _ _ => true | _ => false end.

Definition is_QueueJoined (ev : Event) : bool :=
  match ev with QueueJoined _ => true | _ => false end.

End MatchmakingScreen.

(** ** utils/axiosConfig.ts: the response interceptor *)

Module AxiosConfig.

(** The request configuration ([error.config]).  A replay through
    [api(originalRequest)] sends the same configuration again, flag and
    header included. *)
Record Request := {
  url : string;
  _retry : bool;
  authorization : option string
}.

(** The module-level variables, and the parts of the browser the
    interceptor writes. *)
Record ModuleState := {
  isRefreshing : bool;
  failedQueue : list Request;
  localStorage : gmap string string;
  location_href : string;
  defaultAuthorization : option string
}.

(** How the promise returned by the error handler stands when the handler
    gives control back. *)
Inductive Outcome :=
(** [Promise.reject(error)] *)
| Rejected
(** a pending promise whose [resolve]/[reject] sit on [failedQueue] *)
| Queued
(** suspended at [await axios.post('/api/auth/refresh', ...)] *)
| AwaitingRefresh (originalRequest : Request) (refresh_token : string).

Definition bearer (token : string) : option string :=
  Some ("Bearer " +:+ token).

Definition with_authorization (r : Request) (token : string) : Request :=
  {| url := url r; _retry := _retry r; authorization := bearer token |}.

Definition mark_retry (r : Request) : Request :=
  {| url := url r; _retry := true; authorization := authorization r |}.

(** The error handler up to its first suspension point.  [status] is
    [error.response?.status]. *)
Definition onRejected (st : ModuleState) (status : option Z) (req : Request)
  : ModuleState * Outcome :=
  if bool_decide (status = Some 401) && negb (_retry req) then
    if isRefreshing st then
      ({| isRefreshing := isRefreshing st;
          failedQueue := failedQueue st ++ [req];
          localStorage := localStorage st;
          location_href := location_href st;
          defaultAuthorization := defaultAuthorization st |},
       Queued)
    else
      let originalRequest := mark_retry req in
      let refreshToken := localStorage st !! "codeduel_refresh_token" in
      if negb (JS.truthy_string refreshToken) then
        ({| isRefreshing := true;
            failedQueue := failedQueue st;
            localStorage := ∅;
            location_href := "/";
            defaultAuthorization := defaultAuthorization st |},
         Rejected)
      else
        ({| isRefreshing := true;
            failedQueue := failedQueue st;
            localStorage := localStorage st;
            location_href := location_href st;
            defaultAuthorization := defaultAuthorization st |},
         AwaitingRefresh originalRequest (default "" refreshToken))
  else (st, Rejected).

(** [processQueue(error, token)]: every queued promise is settled, rejected
    with [error] when there is one and resolved with [token] otherwise, and
    the queue is emptied.  Returns the requests whose promises were
    settled. *)
Definition processQueue (st : ModuleState) : ModuleState * list Request :=
  ({| isRefreshing := isRefreshing st;
      failedQueue := [];
      localStorage := localStorage st;
      location_href := location_href st;
      defaultAuthorization := defaultAuthorization st |},
   failedQueue st).

(** The [try] branch after the refresh call resolved with [newToken], and
    the [finally]: the new state and the requests handed to [api(...)], the
    original one first, then the queued ones as their promises resolve. *)
Definition refreshFulfilled (st : ModuleState) (originalRequest : Request)
    (newToken : string) : ModuleState * list Request :=
  let '(st1, resolved) := processQueue st in
  ({| isRefreshing := false;
      failedQueue := failedQueue st1;
      localStorage := <[ "codeduel_token" := newToken ]> (localStorage st1);
      location_href := location_href st1;
      defaultAuthorization := bearer newToken |},
   with_authorization originalRequest newToken
   :: map (fun q => with_authorization q newToken) resolved).

(** The [catch] branch after the refresh call failed, and the [finally]:
    the new state and the requests whose promises are rejected, the queued
    ones first. *)
Definition refreshRejected (st : ModuleState) (originalRequest : Request)
  : ModuleState * list Request :=
  let '(st1, rejected) := processQueue st in
  ({| isRefreshing := false;
      failedQueue := failedQueue st1;
      localStorage := ∅;
      location_href := "/";
      defaultAuthorization := defaultAuthorization st1 |},
   rejected ++ [originalRequest]).

(** *** The interceptor at work

    The page with its requests in flight.  Responses arrive one at a time;
    [configs] holds, per URL, the configuration last sent. *)
Record Page := {
  mstate : ModuleState;
  configs : gmap string Request;
  awaiting : option Request;
  replays : list string;
  rejections : list string;
  refreshes : nat
}.

Inductive NetEvent :=
(** the application calls [api(req)] *)
| Send (req : Request)
(** the server answers the request to [url] with an error status *)
| Fail (u : string) (status : Z)
(** the refresh call resolves with a new token *)
| RefreshOk (newToken : string)
(** the refresh call fails *)
| RefreshFailed.

Definition send_all (cs : gmap string Request) (rs : list Request)
  : gmap string Request :=
  foldl (fun m r => <[ url r := r ]> m) cs rs.

Definition net_step (p : Page) (ev : NetEvent) : Page :=
  match ev with
  | Send req =>
      {| mstate := mstate p; configs := <[ url req := req ]> (configs p);
         awaiting := awaiting p; replays := replays p;
         rejections := rejections p; refreshes := refreshes p |}
  | Fail u status =>
      match configs p !! u with
      | None => p
      | Some req =>
          match onRejected (mstate p) (Some status) req with
          | (st, Rejected) =>
              {| mstate := st; configs := delete u (configs p);
                 awaiting := awaiting p; replays := replays p;
                 rejections := rejections p ++ [u];
                 refreshes := refreshes p |}
          | (st, Queued) =>
              {| mstate := st; configs := delete u (configs p);
                 awaiting := awaiting p; replays := replays p;
                 rejections := rejections p; refreshes := refreshes p |}
          | (st, AwaitingRefresh req' _) =>
              {| mstate := st; configs := delete u (configs p);
                 awaiting := Some req'; replays := replays p;
                 rejections := rejections p;
                 refreshes := S (refreshes p) |}
          end
      end
  | RefreshOk newToken =>
      match awaiting p with
      | None => p
      | Some req =>
          let '(st, again) := refreshFulfilled (mstate p) req newToken in
          {| mstate := st; configs := send_all (configs p) again;
             awaiting := None; replays := replays p ++ map url again;
             rejections := rejections p; refreshes := refreshes p |}
      end
  | RefreshFailed =>
      match awaiting p with
      | None => p
      | Some req =>
          let '(st, failed) := refreshRejected (mstate p) req in
          {| mstate := st; configs := configs p;
             awaiting := None; replays := replays p;
             rejections := rejections p ++ map url failed;
             refreshes := refreshes p |}
      end
  end.

Definition net_run (p : Page) (evs : list NetEvent) : Page :=
  foldl net_step p evs.

Definition fresh (storage : gmap string string) : Page :=
  {| mstate := {| isRefreshing := false; failedQueue := [];
                  localStorage := storage; location_href := "/topics";
                  defaultAuthorization := None |};
     configs := ∅; awaiting := None; replays := []; rejections := [];
     refreshes := 0 |}.

(** How often the request to [u] was sent again by the interceptor. *)
Definition replay_count (u : string) (p : Page) : nat :=
  length (filter (fun v => v = u) (replays p)).

Definition logged_in : gmap string string :=
  {[ "codeduel_token" := "t0"; "codeduel_refresh_token" := "r0" ]}.

Definition get (u : string) : Request :=
  {| url := u; _retry := false; authorization := Some "Bearer t0" |}.


(** *** Counting requests

    The requests the interceptor holds back: queued, or waiting for the
    refresh they started. *)
Definition pending (p : Page) : nat :=
  length (failedQueue (mstate p))
  + match awaiting p with Some _ => 1%nat | None => 0%nat end.

(** The requests it has settled: rejected, or sent again. *)
Definition settled (p : Page) : nat :=
  length (rejections p) + length (replays p).

(** Whether event [ev] hands a failed request to the interceptor. *)
Definition intercepted (p : Page) (ev : NetEvent) : nat :=
  match ev with
  | Fail u _ => match configs p !! u with Some _ => 1%nat | None => 0%nat end
  | _ => 0%nat
  end.

(** The number of failed requests handed to the interceptor along a run. *)
Fixpoint interceptedAlong (p : Page) (evs : list NetEvent) : nat :=
  match evs with
  | [] => 0%nat
  | ev :: evs' => (intercepted p ev + interceptedAlong (net_step p ev) evs')%nat
  end.

(** A refresh is in flight only while [isRefreshing] is set. *)
Definition single_flight (p : Page) : Prop :=
  awaiting p <> None -> isRefreshing (mstate p) = true.

End AxiosConfig.

(** ** components/DuelLobby.tsx *)

Module DuelLobby.

Record State := { countdown : option Z; isReady : bool }.

Definition initial : State := {| countdown := None; isReady := false |}.

(** [handlePregameCountdown(data)]: the [timeLeft] it gives to
    [setCountdown], with [startsAt] the instant of [data.startsAt] and [now]
    the clock; it then starts the interval below. *)
Definition handlePregameCountdown (startsAt now : Z) : Z :=
  Z.max 0 (JS.ceil_div (startsAt - now) 1000).

(** The updater the interval hands to [setCountdown] every second: the new
    countdown, and whether it called [clearInterval(timer)]. *)
Definition intervalTick (prev : option Z) : option Z * bool :=
  match prev with
  | None => (Some 0, true)
  | Some c => if c <=? 1 then (Some 0, true) else (Some (c - 1), false)
  end.

(** The countdown after the interval had [ticks] occasions to fire, and
    whether it has cleared itself; a cleared interval fires no more. *)
Fixpoint runInterval (ticks : nat) (c : option Z) : option Z * bool :=
  match ticks with
  | O => (c, false)
  | S n =>
      match intervalTick c with
      | (c', true) => (c', true)
      | (c', false) => runInterval n c'
      end
  end.

(** What the lobby shows under the two players: the number for
    [countdown !== null && countdown > 0], "Starting Duel!" for
    [countdown === 0], the "I'm Ready!" button for
    [countdown === null && !isReady]. *)
Inductive Panel :=
| Counting (seconds : Z)
| StartingDuel
| ReadyButton
| NoPanel.

Definition panel (s : State) : Panel :=
  match countdown s with
  | Some c => if 0 <? c then Counting c else if c =? 0 then StartingDuel else NoPanel
  | None => if negb (isReady s) then ReadyButton else NoPanel
  end.

(** The lobby [ticks] seconds after [pregame_countdown] arrived at [now]. *)
Definition lobbyAfter (s : State) (startsAt now : Z) (ticks : nat) : State :=
  {| countdown := fst (runInterval ticks (Some (handlePregameCountdown startsAt now)));
     isReady := isReady s |}.

End DuelLobby.

(** ** contexts/SocketContext.tsx *)

Module SocketContext.

(** A listener of the socket, by identity: a handler of a screen as such,
    or the arrow function [(data) => { ...; callback(data) }] that [on]
    builds around it. *)
Inductive Listener :=
| Callback (f : string)
| Wrapper (f : string).

#[global] Instance Listener_eq_dec : EqDecision Listener.
Proof. solve_decision. Defined.

(** The handler a listener ends up calling. *)
Definition target (l : Listener) : string :=
  match l with Callback f | Wrapper f => f end.

(** [socket.off(event, fn)] of the socket's emitter: the first listener of
    [event] identical to [fn] is removed. *)
Fixpoint removeListener (event : string) (fn : Listener)
    (ls : list (string * Listener)) : list (string * Listener) :=
  match ls with
  | [] => []
  | l :: ls' =>
      if bool_decide (l = (event, fn)) then ls'
      else l :: removeListener event fn ls'
  end.

(** [on(event, callback)] of the context: with a socket, the wrapper is
    attached; without, nothing happens. *)
Definition on (socket : option (list (string * Listener)))
    (event callback : string) : option (list (string * Listener)) :=
  match socket with
  | Some ls => Some (ls ++ [(event, Wrapper callback)])
  | None => None
  end.

(** [off(event, callback)] of the context: [socket.off(event, callback)]
    when a callback is given, [socket.off(event)], which drops every
    listener of the event, otherwise. *)
Definition off (socket : option (list (string * Listener)))
    (event : string) (callback : option string)
  : option (list (string * Listener)) :=
  match socket with
  | Some ls =>
      Some match callback with
           | Some f => removeListener event (Callback f) ls
           | None => filter (fun l => l.1 ≠ event) ls
           end
  | None => None
  end.

(** The handlers called, in order, when [event] arrives. *)
Definition called (ls : list (string * Listener)) (event : string) : list string :=
  omap (fun l => if bool_decide (l.1 = event) then Some (target l.2) else None) ls.

(** What the effects of the screens do with the context: attach a handler
    when they run, detach it with the same handler when they are cleaned
    up. *)
Inductive Op :=
| Attach (event callback : string)
| Detach (event callback : string).

#[global] Instance Op_eq_dec : EqDecision Op.
Proof. solve_decision. Defined.

Definition apply_op (socket : option (list (string * Listener))) (op : Op)
  : option (list (string * Listener)) :=
  match op with
  | Attach event f => on socket event f
  | Detach event f => off socket event (Some f)
  end.

Definition apply_ops (socket : option (list (string * Listener)))
    (ops : list Op) : option (list (string * Listener)) :=
  foldl apply_op socket ops.

(** How often [ops] attach handler [f] to [event]. *)
Definition attachments (event f : string) (ops : list Op) : nat :=
  length (filter (fun op => op = Attach event f) ops).

End SocketContext.

(** ** contexts/AuthContext.tsx *)

Module AuthContext.
Import Types.

Record State := {
  user : option User;
  token : option string;
  refreshToken : option string;
  isLoading : bool
}.

(** The state of the provider with what it writes outside React:
    [localStorage] and the default [Authorization] header of axios. *)
Record World := {
  auth : State;
  localStorage : gmap string string;
  axiosAuthorization : option string
}.

(** The payload of [POST /api/auth/guest]. *)
Record LoginResponse := {
  lr_user : User;
  lr_token : string;
  lr_refresh_token : string
}.

Definition bearer (t : string) : option string := Some ("Bearer " +:+ t).

(** [logout()] *)
Definition logout (w : World) : World :=
  {| auth := {| user := None; token := None; refreshToken := None;
                isLoading := isLoading (auth w) |};
     localStorage :=
       delete "codeduel_user"
         (delete "codeduel_refresh_token"
            (delete "codeduel_token" (localStorage w)));
     axiosAuthorization := None |}.

(** [refreshAccessToken()]: the new world and the boolean it resolves to.
    [response] is the outcome of the refresh call, the new token or a
    failure; without a refresh token in the state no call is made. *)
Definition refreshAccessToken (w : World) (response : option string)
  : World * bool :=
  if negb (JS.truthy_string (refreshToken (auth w))) then (w, false)
  else
    match response with
    | Some newToken =>
        ({| auth := {| user := user (auth w); token := Some newToken;
                       refreshToken := refreshToken (auth w);
                       isLoading := isLoading (auth w) |};
            localStorage := <[ "codeduel_token" := newToken ]> (localStorage w);
            axiosAuthorization := bearer newToken |},
         true)
    | None => (logout w, false)
    end.

Section JSON.

(** [JSON.stringify] and [JSON.parse] on users; [parse] gives [None] where
    [JSON.parse] throws. *)
Variable stringify : User -> string.
Variable parse : string -> option User.

(** The effect that runs when the provider mounts.  [None] stands for the
    exception of [JSON.parse], which leaves the effect before
    [setIsLoading(false)]. *)
Definition restoreSession (w : World) : option World :=
  let savedToken := localStorage w !! "codeduel_token" in
  let savedRefreshToken := localStorage w !! "codeduel_refresh_token" in
  let savedUser := localStorage w !! "codeduel_user" in
  if JS.truthy_string savedToken && JS.truthy_string savedUser then
    match parse (default "" savedUser) with
    | Some u =>
        Some {| auth := {| user := Some u; token := savedToken;
                           refreshToken := savedRefreshToken;
                           isLoading := false |};
                localStorage := localStorage w;
                axiosAuthorization := bearer (default "" savedToken) |}
    | None => None
    end
  else
    Some {| auth := {| user := user (auth w); token := token (auth w);
                       refreshToken := refreshToken (auth w);
                       isLoading := false |};
            localStorage := localStorage w;
            axiosAuthorization := axiosAuthorization w |}.

(** [login()]: the new world, and whether the call rethrows.  [response] is
    the outcome of the guest call. *)
Definition login (w : World) (response : option LoginResponse) : World * bool :=
  match response with
  | Some r =>
      ({| auth := {| user := Some (lr_user r); token := Some (lr_token r);
                     refreshToken := Some (lr_refresh_token r);
                     isLoading := false |};
          localStorage :=
            <[ "codeduel_user" := stringify (lr_user r) ]>
              (<[ "codeduel_refresh_token" := lr_refresh_token r ]>
                 (<[ "codeduel_token" := lr_token r ]> (localStorage w)));
          axiosAuthorization := bearer (lr_token r) |},
       false)
  | None =>
      ({| auth := {| user := user (auth w); token := token (auth w);
                     refreshToken := refreshToken (auth w);
                     isLoading := false |};
          localStorage := localStorage w;
          axiosAuthorization := axiosAuthorization w |},
       true)
  end.

End JSON.

(** The page as a reload finds it: the provider's initial state, the
    storage as it was left, no header. *)
Definition reloaded (storage : gmap string string) : World :=
  {| auth := {| user := None; token := None; refreshToken := None;
                isLoading := true |};
     localStorage := storage;
     axiosAuthorization := None |}.

End AuthContext.

(** * Properties *)

(** ** Scoring *)

Section ScoringFacts.
Import Scoring.

(** Flooring the rational number of seconds is integer division of the
    milliseconds. *)
Lemma floor_secondsRemaining (deadline answeredAt : Z) :
  Qfloor (secondsRemainingAtAnswerTime deadline answeredAt)
  = Z.max 0 ((deadline - answeredAt) / 1000).
Proof.
  unfold secondsRemainingAtAnswerTime.
  set (ms := deadline - answeredAt).
  destruct (Z_le_gt_dec 0 ms) as [Hpos | Hneg].
  - assert (Hq : (0 <= inject_Z ms / inject_Z 1000)%Q).
    { apply Qle_shift_div_l; [reflexivity |].
      rewrite Qmult_0_l. change 0%Q with (inject_Z 0).
      rewrite <- Zle_Qle. exact Hpos. }
    rewrite (Qfloor_comp _ _ (Q.max_r _ _ Hq)).
    rewrite <- Zdiv_Qdiv.
    assert (0 <= ms / 1000) by (apply Z.div_pos; lia).
    lia.
  - assert (Hq : (inject_Z ms / inject_Z 1000 <= 0)%Q).
    { apply Qle_shift_div_r; [reflexivity |].
      rewrite Qmult_0_l. change 0%Q with (inject_Z 0).
      rewrite <- Zle_Qle. lia. }
    rewrite (Qfloor_comp _ _ (Q.max_l _ _ Hq)).
    assert (ms / 1000 < 0) by (apply Z.div_lt_upper_bound; lia).
    change (Qfloor 0) with 0. lia.
Qed.

Lemma award_correct (deadline answeredAt : Z) :
  award true deadline answeredAt = 10 + Z.max 0 ((deadline - answeredAt) / 1000).
Proof.
  unfold award, Rules.basePoints, Rules.bonusPerSecond.
  rewrite floor_secondsRemaining. lia.
Qed.

Lemma award_wrong (deadline answeredAt : Z) :
  award false deadline answeredAt = 0.
Proof. reflexivity. Qed.

(** An answer cannot be received before its question is broadcast, so a
    round is worth at most 10 + 9 points. *)
Lemma round_award_bounds (r : Round) :
  round_start r <= round_answeredAt r -> 0 <= round_award r <= 19.
Proof.
  intros Hstart. unfold round_award, round_deadline, Rules.secondsPerQuestion.
  destruct (round_correct r).
  - rewrite award_correct.
    assert ((round_start r + 9 * 1000 - round_answeredAt r) / 1000 <= 9).
    { apply Z.lt_succ_r. apply Z.div_lt_upper_bound; lia. }
    lia.
  - rewrite award_wrong. lia.
Qed.

Lemma total_bounds (rounds : list Round) :
  (forall r, r ∈ rounds -> round_start r <= round_answeredAt r) ->
  0 <= total rounds <= 19 * Z.of_nat (length rounds).
Proof.
  induction rounds as [| r rounds IH]; intros Hall.
  - simpl. lia.
  - assert (Hr : 0 <= round_award r <= 19).
    { apply round_award_bounds, Hall. left. }
    assert (Hrest : 0 <= total rounds <= 19 * Z.of_nat (length rounds)).
    { apply IH. intros r' Hin. apply Hall. right. exact Hin. }
    change (total (r :: rounds)) with (round_award r + total rounds).
    rewrite length_cons, Nat2Z.inj_succ. lia.
Qed.

Lemma perfect_duel_timed (r : Round) :
  r ∈ perfect_duel -> round_start r <= round_answeredAt r.
Proof.
  unfold perfect_duel. intros Hin.
  apply list_elem_of_fmap in Hin as (k & -> & _). simpl. lia.
Qed.

End ScoringFacts.

Example award_scenario_17 : Scoring.award true 9000 2000 = 17.
Proof. reflexivity. Qed.

Example award_after_deadline : Scoring.award true 9000 9500 = 10.
Proof. reflexivity. Qed.

Example award_partial_second : Scoring.award true 9000 8001 = 10.
Proof. reflexivity. Qed.

(** C1.  A correct answer is awarded the base 10 points plus one bonus point
    per whole second remaining at answer time,
    [floor (max 0 ((deadline - answeredAt) / 1000))]; a wrong answer is
    awarded nothing.  With the deadline at T+9000ms a correct answer at
    T+2000ms scores exactly 17.  Over the 10 questions of a duel, 9 seconds
    each, the total is at most 190, the divisor of the accuracy shown on the
    results screen, and 190 is reached by answering every question correctly
    the instant it starts. *)
Theorem C1_award_base_plus_bonus :
  (forall deadline answeredAt,
      Scoring.award true deadline answeredAt
      = 10 + Qfloor (Qmax 0 (inject_Z (deadline - answeredAt) / inject_Z 1000))
      /\ Scoring.award true deadline answeredAt
         = 10 + Z.max 0 ((deadline - answeredAt) / 1000)
      /\ Scoring.award false deadline answeredAt = 0)
  /\ (forall T, Scoring.award true (T + 9000) (T + 2000) = 17)
  /\ (forall rounds,
         Z.of_nat (length rounds) = Rules.questionsPerDuel ->
         (forall r, r ∈ rounds -> Scoring.round_start r <= Scoring.round_answeredAt r) ->
         Scoring.total rounds <= 190)
  /\ (Z.of_nat (length Scoring.perfect_duel) = Rules.questionsPerDuel
      /\ (forall r, r ∈ Scoring.perfect_duel ->
                    Scoring.round_start r <= Scoring.round_answeredAt r)
      /\ Scoring.total Scoring.perfect_duel = 190)
  /\ Rules.accuracyDenominator
     = Rules.questionsPerDuel
       * (Rules.basePoints + Rules.bonusPerSecond * Rules.secondsPerQuestion).
Proof.
  split; [| split; [| split; [| split]]].
  - intros deadline answeredAt. split; [| split].
    + rewrite award_correct, <- floor_secondsRemaining. reflexivity.
    + apply award_correct.
    + apply award_wrong.
  - intros T. rewrite award_correct.
    replace (T + 9000 - (T + 2000)) with 7000 by lia. reflexivity.
  - intros rounds Hlen Htimed.
    pose proof (total_bounds rounds Htimed) as Hb.
    rewrite Hlen in Hb. unfold Rules.questionsPerDuel in Hb. lia.
  - split; [reflexivity | split].
    + apply perfect_duel_timed.
    + reflexivity.
  - reflexivity.
Qed.

(** The bound of C1 at the perfect duel. *)
Lemma C1_award_witness : Scoring.total Scoring.perfect_duel <= 190.
Proof.
  apply (proj1 (proj2 (proj2 C1_award_base_plus_bonus)) Scoring.perfect_duel).
  - reflexivity.
  - intros r Hin.
    apply list_elem_of_fmap in Hin as (k & -> & _). simpl. lia.
Defined.

(** ** The duel screen *)

Section DuelScreenFacts.
Import Types DuelScreen.

Lemma submitAnswer_sends (r : Render) (optionIndex now : Z) :
  can_submit r ->
  submitAnswer r optionIndex now
  = [ Emit (answer (duelId r) (questionIndex (state r)) optionIndex now);
      Upd (setSelectedAnswer (Some optionIndex));
      Upd (setHasAnswered true) ].
Proof.
  intros (Hans & Htime & Hconn & Hsock). unfold submitAnswer.
  rewrite Hans, Hconn, Hsock.
  destruct (Z.leb_spec (timeLeft (state r)) 0); [lia | reflexivity].
Qed.

Lemma submitAnswer_guarded (r : Render) (optionIndex now : Z) :
  hasAnswered (state r) = true \/ timeLeft (state r) <= 0 ->
  submitAnswer r optionIndex now = [].
Proof.
  intros [Hans | Htime]; unfold submitAnswer.
  - rewrite Hans. reflexivity.
  - destruct (Z.leb_spec (timeLeft (state r)) 0); [| lia].
    rewrite orb_true_r. reflexivity.
Qed.

Lemma follow_unfold (clock : list Z) (es : list Effect) (now : Z) :
  follow clock es now
  = es ++ delayed es now
       ++ match rearmed es, clock with
          | Some f, t :: clock' => follow clock' (fire f t) t
          | _, _ => []
          end.
Proof. destruct clock; reflexivity. Qed.

Lemma emitted_app (es1 es2 : list Effect) :
  emitted (es1 ++ es2) = emitted es1 ++ emitted es2.
Proof. apply omap_app. Qed.

(** The deadline branch: the tick that finds at most 100ms left hands the
    auto-submission to a timer, which sends it 100ms later. *)
Lemma updateTimer_chain (r : Render) (deadline : Z) :
  can_submit r ->
  forall clock now,
    existsb (fun t => deadline - t <=? 100) (now :: clock) = true ->
    exists ts, emitted (follow clock (updateTimer r deadline now) now)
               = [ no_answer r ts ].
Proof.
  intros Hr. pose proof Hr as (Hans & _).
  induction clock as [| t clock IH]; intros now Hup.
  - simpl in Hup. rewrite orb_false_r in Hup.
    exists (now + 100). rewrite follow_unfold. unfold updateTimer.
    destruct (Z.ltb_spec 100 (deadline - now)) as [Hlt | Hle].
    + apply Z.leb_le in Hup. lia.
    + rewrite Hans. simpl. unfold autoSubmit.
      rewrite (submitAnswer_sends r _ _ Hr). reflexivity.
  - rewrite follow_unfold. unfold updateTimer at 1 2 3.
    destruct (Z.ltb_spec 100 (deadline - now)) as [Hlt | Hle].
    + simpl. apply IH.
      change (existsb _ (now :: t :: clock))
        with ((deadline - now <=? 100) || existsb (fun t => deadline - t <=? 100) (t :: clock)) in Hup.
      destruct (Z.leb_spec (deadline - now) 100); [lia | exact Hup].
    + exists (now + 100). rewrite Hans. simpl. unfold autoSubmit.
      rewrite (submitAnswer_sends r _ _ Hr). reflexivity.
Qed.

(** The fallback branch: the tick that finds the end time reached sends
    the auto-submission itself. *)
Lemma updateFallbackTimer_chain (r : Render) (endTime : Z) :
  can_submit r ->
  forall clock now,
    existsb (fun t => endTime - t <=? 0) (now :: clock) = true ->
    exists ts, emitted (follow clock (updateFallbackTimer r endTime now) now)
               = [ no_answer r ts ].
Proof.
  intros Hr. pose proof Hr as (Hans & _).
  induction clock as [| t clock IH]; intros now Hup.
  - simpl in Hup. rewrite orb_false_r in Hup.
    exists now. rewrite follow_unfold. unfold updateFallbackTimer.
    destruct (Z.ltb_spec 0 (endTime - now)) as [Hlt | Hle].
    + apply Z.leb_le in Hup. lia.
    + rewrite Hans, (submitAnswer_sends r _ _ Hr). reflexivity.
  - rewrite follow_unfold. unfold updateFallbackTimer at 1 2 3.
    destruct (Z.ltb_spec 0 (endTime - now)) as [Hlt | Hle].
    + simpl. apply IH.
      change (existsb _ (now :: t :: clock))
        with ((endTime - now <=? 0) || existsb (fun t => endTime - t <=? 0) (t :: clock)) in Hup.
      destruct (Z.leb_spec (endTime - now) 0); [lia | exact Hup].
    + exists now. rewrite Hans, (submitAnswer_sends r _ _ Hr). reflexivity.
Qed.

(** Setter calls and clearing the timer neither send nor arm anything. *)
Lemma follow_after_quiet (pre es : list Effect) (clock : list Z) (now : Z) :
  forallb quiet pre = true ->
  emitted (follow clock (pre ++ es) now) = emitted (follow clock es now).
Proof.
  intros Hq. rewrite !follow_unfold.
  assert (Hd : delayed pre now = []).
  { induction pre as [| e pre IH]; [reflexivity |].
    simpl in Hq. apply andb_true_iff in Hq as [He Hq].
    destruct e; try discriminate He; simpl; auto. }
  assert (Hr : omap (fun e => match e with
                              | SetQuestionTimer f _ => Some f
                              | _ => None
                              end) pre = []).
  { induction pre as [| e pre IH]; [reflexivity |].
    simpl in Hq. apply andb_true_iff in Hq as [He Hq].
    destruct e; try discriminate He; simpl; auto. }
  assert (He : emitted pre = []).
  { induction pre as [| e pre IH]; [reflexivity |].
    simpl in Hq. apply andb_true_iff in Hq as [He Hq].
    destruct e; try discriminate He; simpl; auto. }
  unfold delayed in *. unfold rearmed.
  rewrite flat_map_app, omap_app, Hd, Hr, <- app_assoc, emitted_app, He.
  reflexivity.
Qed.

Lemma questionRun_emitted (r : Render) (data : QuestionStart)
    (startTime now : Z) (clock : list Z) :
  emitted (questionRun r data startTime now clock)
  = emitted
      (follow clock
         match qs_deadline data with
         | Some deadline => updateTimer r deadline now
         | None =>
             updateFallbackTimer r
               (startTime + JS.number_or (qs_timeLimit data) 9 * 1000) now
         end now).
Proof.
  unfold questionRun, handleQuestionStart.
  rewrite follow_after_quiet by reflexivity.
  destruct (qs_deadline data) as [deadline |]; [reflexivity |].
  apply (follow_after_quiet [ _ ]). reflexivity.
Qed.






(** Only [question_start] clears [hasAnswered]: nothing else that reaches
    the screen does. *)
Lemma hasAnswered_apply_effects (s : State) (es : list Effect) :
  hasAnswered s = true ->
  Forall (fun e => e <> Upd (setHasAnswered false)) es ->
  hasAnswered (apply_effects s es) = true.
Proof.
  intros Hs Hes. revert s Hs. unfold apply_effects.
  induction Hes as [| e es He _ IH]; intros s Hs; [exact Hs |].
  simpl. apply IH.
  destruct e as [u | | | | |]; try exact Hs.
  destruct u as [| | | | b | | | |]; try exact Hs.
  destruct b; [reflexivity | congruence].
Qed.

Lemma submitAnswer_never_clears (r : Render) (optionIndex now : Z) :
  Forall (fun e => e <> Upd (setHasAnswered false)) (submitAnswer r optionIndex now).
Proof.
  unfold submitAnswer.
  destruct (_ || _); [constructor |]. destruct (_ || _); [constructor |].
  repeat constructor; discriminate.
Qed.

Lemma happen_never_clears (r : Render) (h : Happening) :
  Forall (fun e => e <> Upd (setHasAnswered false)) (happen r h).
Proof.
  destruct h as [index now | f now | data | data | result | data]; simpl.
  - apply submitAnswer_never_clears.
  - destruct f as [r' deadline | r' endTime | r']; simpl.
    + unfold updateTimer. constructor; [discriminate |].
      destruct (100 <? deadline - now); [repeat constructor; discriminate |].
      destruct (negb _); repeat constructor; discriminate.
    + unfold updateFallbackTimer. constructor; [discriminate |].
      destruct (0 <? endTime - now); [repeat constructor; discriminate |].
      destruct (negb _); [apply submitAnswer_never_clears | constructor].
    + unfold autoSubmit. apply Forall_app. split.
      * apply submitAnswer_never_clears.
      * repeat constructor; discriminate.
  - repeat constructor; discriminate.
  - unfold questionEndTimeout.
    destruct (_ <? 9); repeat constructor; discriminate.
  - repeat constructor; discriminate.
  - repeat constructor; discriminate.
Qed.

Lemma rerender_app (r : Render) (es1 es2 : list Effect) :
  rerender r (es1 ++ es2) = rerender (rerender r es1) es2.
Proof. unfold rerender, apply_effects. simpl. rewrite foldl_app. reflexivity. Qed.

(** So [hasAnswered], once set, stays set until the next announcement. *)
Lemma happenings_keep_hasAnswered (hs : list Happening) :
  forall r,
    hasAnswered (state r) = true ->
    hasAnswered (state (rerender r (happenings r hs))) = true.
Proof.
  induction hs as [| h hs IH]; intros r Hr; [exact Hr |].
  change (happenings r (h :: hs))
    with (happen r h ++ happenings (rerender r (happen r h)) hs).
  rewrite rerender_app. apply IH. simpl.
  apply hasAnswered_apply_effects; [exact Hr | apply happen_never_clears].
Qed.
End DuelScreenFacts.

Section EngineFacts.
Import Engine.

Lemma find_snoc {A} (f : A -> bool) (l : list A) (x : A) :
  find f (l ++ [x])
  = match find f l with
    | Some y => Some y
    | None => if f x then Some x else None
    end.
Proof.
  induction l as [| a l IH]; simpl.
  - reflexivity.
  - destruct (f a); [reflexivity | exact IH].
Qed.

Lemma grade_keeps (s : Session) (q : Z) :
  sess_id (grade s q) = sess_id s
  /\ sess_records (grade s q) = sess_records s
  /\ sess_deadline (grade s q) = sess_deadline s
  /\ sess_questions (grade s q) = sess_questions s.
Proof. unfold grade. destruct (is_active s q); simpl; auto. Qed.

Lemma advance_keeps (s : Session) (d : Z) :
  sess_id (advance s d) = sess_id s
  /\ sess_records (advance s d) = sess_records s.
Proof.
  unfold advance. destruct (sess_state s); simpl; auto.
  destruct (q =? 9); simpl; auto.
Qed.

Lemma record_answer_keeps (s : Session) (r : AnswerRecord) :
  sess_id (record_answer s r) = sess_id s
  /\ sess_records (record_answer s r) = sess_records s ++ [r]
  /\ sess_deadline (record_answer s r) = sess_deadline s.
Proof.
  unfold record_answer.
  match goal with |- context [if ?b then _ else _] => destruct b end.
  - pose proof (grade_keeps
      {| sess_id := sess_id s; sess_state := sess_state s;
         sess_questionIndex := sess_questionIndex s;
         sess_questions := sess_questions s;
         sess_player1 := sess_player1 s; sess_player2 := sess_player2 s;
         sess_deadline := sess_deadline s;
         sess_answered := {[rec_userId r]} ∪ sess_answered s;
         sess_records := sess_records s ++ [r] |} (rec_questionIndex r))
      as (H1 & H2 & H3 & _).
    auto.
  - simpl. auto.
Qed.

(** The shape of an accepted submission. *)
Lemma submit_accepted (reg : gmap string Session) (sid uid : string)
    (q sel t : Z) (r : AnswerRecord) (reg' : gmap string Session) :
  submit reg sid uid q sel t = (Accepted r, reg') ->
  exists s,
    reg !! sid = Some s
    /\ is_slot s uid = true
    /\ q = sess_questionIndex s
    /\ is_active s q = true
    /\ t <= sess_deadline s
    /\ find_record s q uid = None
    /\ r = {| rec_sessionId := sess_id s; rec_questionIndex := q;
              rec_userId := uid; rec_selectedIndex := sel;
              rec_correct := is_correct s q sel; rec_answeredAt := t |}
    /\ reg' = <[ sid := record_answer s r ]> reg.
Proof.
  unfold submit. intros H.
  destruct (reg !! sid) as [s |]; [| discriminate].
  destruct (is_slot s uid) eqn:Hslot; simpl in H; [| discriminate].
  destruct (Z.eqb_spec q (sess_questionIndex s)); simpl in H; [| discriminate].
  destruct (is_active s q) eqn:Hact; simpl in H; [| discriminate].
  destruct (Z.leb_spec t (sess_deadline s)); simpl in H; [| discriminate].
  unfold has_record in H.
  destruct (find_record s q uid) eqn:Hfind; [discriminate |].
  inversion H; subst. exists s. repeat split; auto.
Qed.

(** A rejected submission changes nothing. *)
Lemma submit_rejected (reg : gmap string Session) (sid uid : string)
    (q sel t : Z) :
  (forall r, fst (submit reg sid uid q sel t) <> Accepted r) ->
  snd (submit reg sid uid q sel t) = reg.
Proof.
  unfold submit. intros H.
  destruct (reg !! sid) as [s |]; [| reflexivity].
  destruct (negb (is_slot s uid)); [reflexivity |].
  destruct (negb (q =? sess_questionIndex s)); [reflexivity |].
  destruct (negb _); [reflexivity |].
  destruct (has_record s q uid); [reflexivity |].
  exfalso. eapply H. reflexivity.
Qed.

Lemma find_record_none (s : Session) (q : Z) (uid : string) :
  find_record s q uid = None ->
  (sess_id s, q, uid) ∉ map rec_key (sess_records s).
Proof.
  unfold find_record. intros H Hin.
  apply list_elem_of_fmap in Hin as (r & Hk & Hr).
  apply list_elem_of_In in Hr.
  pose proof (find_none _ _ H r Hr) as Hf.
  unfold has_key in Hf. apply bool_decide_eq_false in Hf. congruence.
Qed.

Lemma submit_cases (reg : gmap string Session) (sid uid : string) (q sel t : Z) :
  (exists r, submit reg sid uid q sel t
             = (Accepted r, snd (submit reg sid uid q sel t)))
  \/ snd (submit reg sid uid q sel t) = reg.
Proof.
  destruct (submit reg sid uid q sel t) as [res reg'] eqn:Hs.
  destruct res; simpl; eauto;
    right; rewrite <- (submit_rejected reg sid uid q sel t);
    try (rewrite Hs; reflexivity);
    intros r'; rewrite Hs; discriminate.
Qed.

Lemma find_app_l {A} (f : A -> bool) (l k : list A) (x : A) :
  find f l = Some x -> find f (l ++ k) = Some x.
Proof.
  induction l as [| a l IH]; simpl; [discriminate |].
  destruct (f a); auto.
Qed.

Lemma has_record_grows (s s' : Session) (extra : list AnswerRecord)
    (q : Z) (uid : string) :
  sess_id s' = sess_id s ->
  sess_records s' = sess_records s ++ extra ->
  has_record s q uid = true ->
  has_record s' q uid = true.
Proof.
  unfold has_record, find_record. intros Hid Hrec H.
  destruct (find _ (sess_records s)) as [r |] eqn:Hf; [| discriminate].
  rewrite Hid, Hrec, (find_app_l _ _ _ _ Hf). reflexivity.
Qed.

(** Once a key has its record, every later state of the session has
    it. *)
Lemma step_keeps_record (reg : gmap string Session) (ev : Event)
    (sid uid : string) (q : Z) :
  (forall s, reg !! sid = Some s -> has_record s q uid = true) ->
  forall s', step reg ev !! sid = Some s' -> has_record s' q uid = true.
Proof.
  intros Hreg s' Hs'. destruct ev as [sid0 uid0 q0 sel0 t0 | sid0 q0 | sid0 d | sid0];
    simpl in Hs'.
  - destruct (submit_cases reg sid0 uid0 q0 sel0 t0) as [[r Hacc] | Hsame].
    + apply submit_accepted in Hacc
        as (s0 & Hs0 & _ & _ & _ & _ & _ & _ & Hreg').
      rewrite Hreg' in Hs'. clear Hreg'.
      destruct (decide (sid0 = sid)) as [-> | Hne].
      * rewrite lookup_insert_eq in Hs'. inversion Hs'; subst s'.
        destruct (record_answer_keeps s0 r) as (Hid & Hrec & _).
        eapply has_record_grows; eauto.
      * rewrite lookup_insert_ne in Hs' by exact Hne. eauto.
    + rewrite Hsame in Hs'. eauto.
  - rewrite lookup_alter in Hs'. case_decide; [| eauto]. subst sid0.
    destruct (reg !! sid) as [s |] eqn:Hs; [| discriminate].
    simpl in Hs'. inversion Hs'; subst s'.
    destruct (grade_keeps s q0) as (Hid & Hrec & _).
    apply (has_record_grows s _ []); auto. rewrite app_nil_r. exact Hrec.
  - rewrite lookup_alter in Hs'. case_decide; [| eauto]. subst sid0.
    destruct (reg !! sid) as [s |] eqn:Hs; [| discriminate].
    simpl in Hs'. inversion Hs'; subst s'.
    destruct (advance_keeps s d) as (Hid & Hrec).
    apply (has_record_grows s _ []); auto. rewrite app_nil_r. exact Hrec.
  - rewrite lookup_delete in Hs'. case_decide; [discriminate | eauto].
Qed.

Lemma run_keeps_record (evs : list Event) (reg : gmap string Session)
    (sid uid : string) (q : Z) :
  (forall s, reg !! sid = Some s -> has_record s q uid = true) ->
  forall s', run reg evs !! sid = Some s' -> has_record s' q uid = true.
Proof.
  revert reg. induction evs as [| ev evs IH]; intros reg Hreg.
  - exact Hreg.
  - apply (IH (step reg ev)). apply step_keeps_record. exact Hreg.
Qed.

(** The two slots of a session keep their identities. *)
Lemma grade_slots (s : Session) (q : Z) (uid : string) :
  is_slot (grade s q) uid = is_slot s uid.
Proof. unfold grade. destruct (is_active s q); reflexivity. Qed.

Lemma advance_slots (s : Session) (d : Z) (uid : string) :
  is_slot (advance s d) uid = is_slot s uid.
Proof.
  unfold advance. destruct (sess_state s); try reflexivity.
  destruct (q =? 9); reflexivity.
Qed.

Lemma record_answer_slots (s : Session) (r : AnswerRecord) (uid : string) :
  is_slot (record_answer s r) uid = is_slot s uid.
Proof.
  unfold record_answer.
  match goal with |- context [if ?b then _ else _] => destruct b end;
    [rewrite grade_slots |]; reflexivity.
Qed.

Lemma step_keeps_slot (reg : gmap string Session) (ev : Event)
    (sid uid : string) :
  (forall s, reg !! sid = Some s -> is_slot s uid = true) ->
  forall s', step reg ev !! sid = Some s' -> is_slot s' uid = true.
Proof.
  intros Hreg s' Hs'.
  destruct ev as [sid0 uid0 q0 sel0 t0 | sid0 q0 | sid0 d | sid0]; simpl in Hs'.
  - destruct (submit_cases reg sid0 uid0 q0 sel0 t0) as [[r Hacc] | Hsame].
    + apply submit_accepted in Hacc
        as (s0 & Hs0 & _ & _ & _ & _ & _ & _ & Hreg').
      rewrite Hreg' in Hs'. clear Hreg'.
      destruct (decide (sid0 = sid)) as [-> | Hne].
      * rewrite lookup_insert_eq in Hs'. inversion Hs'; subst s'.
        rewrite record_answer_slots. eauto.
      * rewrite lookup_insert_ne in Hs' by exact Hne. eauto.
    + rewrite Hsame in Hs'. eauto.
  - rewrite lookup_alter in Hs'. case_decide; [| eauto]. subst sid0.
    destruct (reg !! sid) as [s |] eqn:Hs; [| discriminate].
    simpl in Hs'. inversion Hs'; subst s'. rewrite grade_slots. eauto.
  - rewrite lookup_alter in Hs'. case_decide; [| eauto]. subst sid0.
    destruct (reg !! sid) as [s |] eqn:Hs; [| discriminate].
    simpl in Hs'. inversion Hs'; subst s'. rewrite advance_slots. eauto.
  - rewrite lookup_delete in Hs'. case_decide; [discriminate | eauto].
Qed.

Lemma run_keeps_slot (evs : list Event) (reg : gmap string Session)
    (sid uid : string) :
  (forall s, reg !! sid = Some s -> is_slot s uid = true) ->
  forall s', run reg evs !! sid = Some s' -> is_slot s' uid = true.
Proof.
  revert reg. induction evs as [| ev evs IH]; intros reg Hreg.
  - exact Hreg.
  - apply (IH (step reg ev)). apply step_keeps_slot. exact Hreg.
Qed.

(** Every step keeps the records of every session free of duplicate
    keys. *)
Lemma step_keeps_unique (reg : gmap string Session) (ev : Event) :
  (forall sid s, reg !! sid = Some s -> records_unique s) ->
  forall sid s, step reg ev !! sid = Some s -> records_unique s.
Proof.
  intros Hreg sid s' Hs'.
  destruct ev as [sid0 uid0 q0 sel0 t0 | sid0 q0 | sid0 d | sid0]; simpl in Hs'.
  - destruct (submit_cases reg sid0 uid0 q0 sel0 t0) as [[r Hacc] | Hsame].
    + apply submit_accepted in Hacc
        as (s0 & Hs0 & _ & _ & _ & _ & Hnone & Hr & Hreg').
      rewrite Hreg' in Hs'. clear Hreg'.
      destruct (decide (sid0 = sid)) as [-> | Hne].
      * rewrite lookup_insert_eq in Hs'. inversion Hs'; subst s'.
        destruct (record_answer_keeps s0 r) as (_ & Hrec & _).
        unfold records_unique. rewrite Hrec, map_app.
        apply NoDup_app. split; [exact (Hreg _ _ Hs0) | split].
        -- intros k Hk Hk'. simpl in Hk'. apply list_elem_of_singleton in Hk'.
           subst k. apply (find_record_none _ _ _ Hnone).
           rewrite Hr in Hk. exact Hk.
        -- simpl. apply NoDup_singleton.
      * rewrite lookup_insert_ne in Hs' by exact Hne. eauto.
    + rewrite Hsame in Hs'. eauto.
  - rewrite lookup_alter in Hs'. case_decide; [| eauto]. subst sid0.
    destruct (reg !! sid) as [s |] eqn:Hs; [| discriminate].
    simpl in Hs'. inversion Hs'; subst s'.
    destruct (grade_keeps s q0) as (_ & Hrec & _).
    unfold records_unique. rewrite Hrec. exact (Hreg _ _ Hs).
  - rewrite lookup_alter in Hs'. case_decide; [| eauto]. subst sid0.
    destruct (reg !! sid) as [s |] eqn:Hs; [| discriminate].
    simpl in Hs'. inversion Hs'; subst s'.
    destruct (advance_keeps s d) as (_ & Hrec).
    unfold records_unique. rewrite Hrec. exact (Hreg _ _ Hs).
  - rewrite lookup_delete in Hs'. case_decide; [discriminate | eauto].
Qed.

Lemma run_keeps_unique (evs : list Event) (reg : gmap string Session) :
  (forall sid s, reg !! sid = Some s -> records_unique s) ->
  forall sid s, run reg evs !! sid = Some s -> records_unique s.
Proof.
  revert reg. induction evs as [| ev evs IH]; intros reg Hreg.
  - exact Hreg.
  - apply (IH (step reg ev)). apply step_keeps_unique. exact Hreg.
Qed.

(** The verdict on a submission whose key already has its record. *)
Lemma submit_duplicate (reg : gmap string Session) (sid uid : string)
    (q sel t : Z) :
  (forall s, reg !! sid = Some s -> has_record s q uid = true) ->
  submit reg sid uid q sel t
  = (match reg !! sid with
     | None => SessionNotFound
     | Some s =>
         if negb (is_slot s uid) then SessionNotFound
         else if negb (q =? sess_questionIndex s) then StaleQuestion
         else if negb (is_active s q && (t <=? sess_deadline s)) then LateAnswer
         else AlreadyAnswered
     end, reg).
Proof.
  intros Hrec. unfold submit.
  destruct (reg !! sid) as [s |]; [| reflexivity].
  rewrite (Hrec s eq_refl).
  destruct (negb (is_slot s uid)); [reflexivity |].
  destruct (negb (q =? sess_questionIndex s)); [reflexivity |].
  destruct (negb _); reflexivity.
Qed.

End EngineFacts.


(** ** What the countdown shows *)

Lemma ceil_div_bounds (n k : Z) :
  JS.ceil_div n 1000 <= k <-> n <= k * 1000.
Proof.
  unfold JS.ceil_div. split; intros H.
  - assert (- k <= - n / 1000) by lia.
    assert (Hm : 1000 * (- n / 1000) <= - n)
      by (apply Z.mul_div_le; lia).
    lia.
  - assert (- k <= - n / 1000) by (apply Z.div_le_lower_bound; lia).
    lia.
Qed.

Section CountdownFacts.
Import Types DuelScreen.

(** The seconds shown after a run are those of its last [setTimeLeft]. *)
Lemma timeLeft_apply_effects (s : State) (es : list Effect) :
  timeLeft (apply_effects s es)
  = default (timeLeft s)
      (last (omap (fun e => match e with
                            | Upd (setTimeLeft n) => Some n
                            | _ => None
                            end) es)).
Proof.
  induction es as [| e es IH] using rev_ind; [reflexivity |].
  unfold apply_effects in *. rewrite foldl_app, omap_app. simpl.
  destruct e as [u | | | | |]; simpl; try (rewrite app_nil_r; exact IH).
  destruct u; simpl; try (rewrite app_nil_r; exact IH).
  rewrite last_snoc. reflexivity.
Qed.

Lemma submitAnswer_keeps_timeLeft (r : Render) (optionIndex now : Z) :
  omap (fun e => match e with
                 | Upd (setTimeLeft n) => Some n
                 | _ => None
                 end) (submitAnswer r optionIndex now) = [].
Proof.
  unfold submitAnswer.
  destruct (_ || _); [reflexivity |]. destruct (_ || _); reflexivity.
Qed.

(** After a tick of the deadline branch the screen shows the whole seconds
    left to the deadline, rounded up. *)
Lemma updateTimer_displayed (r : Render) (s : State) (deadline now : Z) :
  displayed (apply_effects s (updateTimer r deadline now))
  = Z.max 0 (JS.ceil_div (deadline - now) 1000).
Proof.
  unfold displayed. rewrite timeLeft_apply_effects. unfold updateTimer.
  destruct (100 <? deadline - now); [reflexivity |].
  destruct (negb (hasAnswered (state r))); reflexivity.
Qed.

(** After a tick of the fallback branch it shows the whole seconds left to
    the end time. *)
Lemma updateFallbackTimer_displayed (r : Render) (s : State) (endTime now : Z) :
  displayed (apply_effects s (updateFallbackTimer r endTime now))
  = Z.max 0 (JS.ceil_div (endTime - now) 1000).
Proof.
  unfold displayed. rewrite timeLeft_apply_effects. unfold updateFallbackTimer.
  destruct (0 <? endTime - now); [reflexivity |].
  destruct (negb (hasAnswered (state r))); [| reflexivity].
  simpl. rewrite submitAnswer_keeps_timeLeft. reflexivity.
Qed.


End CountdownFacts.


(** ** Timeout and duplicate answers *)

Example timer_tick_before_deadline :
  DuelScreen.emitted (DuelScreen.updateTimer (DuelScreen.mount_render "d1") 9000 4000) = [].
Proof. reflexivity. Qed.

Example timer_autosubmits_at_deadline :
  DuelScreen.emitted
    (DuelScreen.questionRun (DuelScreen.mount_render "d1") DuelScreen.demo_start
       0 0 [4000; 8950])
  = [ Types.answer "d1" 0 (-1) 9050 ].
Proof. reflexivity. Qed.

Example fallback_autosubmits_at_end :
  DuelScreen.emitted
    (DuelScreen.questionRun (DuelScreen.mount_render "d1")
       (DuelScreen.demo_start_fallback (Some 5)) 0 0 [4000; 5000])
  = [ Types.answer "d1" 0 (-1) 5000 ].
Proof. reflexivity. Qed.

(** An answer of [-1] matches no correct index. *)
Lemma is_correct_no_answer (s : Engine.Session) (q : Z) :
  (forall qn, qn ∈ Engine.sess_questions s -> 0 <= Engine.correctIndex qn) ->
  Engine.is_correct s q (-1) = false.
Proof.
  intros Hvalid. unfold Engine.is_correct.
  destruct (Engine.sess_questions s !! Z.to_nat q) as [qn |] eqn:Hq; [| reflexivity].
  apply list_elem_of_lookup_2 in Hq. apply Hvalid in Hq.
  apply Z.eqb_neq. lia.
Qed.

(** The record of an accepted submission is the one grading finds. *)
Lemma submit_accepted_found (reg reg' : gmap string Engine.Session)
    (sid uid : string) (q sel t : Z) (r : Engine.AnswerRecord) :
  Engine.submit reg sid uid q sel t = (Engine.Accepted r, reg') ->
  exists s s',
    reg !! sid = Some s /\ reg' !! sid = Some s'
    /\ Engine.find_record s' q uid = Some r
    /\ Engine.rec_selectedIndex r = sel
    /\ Engine.rec_correct r = Engine.is_correct s q sel.
Proof.
  intros Hacc.
  apply submit_accepted in Hacc
    as (s & Hs & _ & _ & _ & _ & Hnone & Hr & Hreg').
  exists s, (Engine.record_answer s r). subst reg'.
  rewrite lookup_insert_eq.
  destruct (record_answer_keeps s r) as (Hid & Hrec & _).
  repeat split; auto; try (subst r; reflexivity).
  unfold Engine.find_record in *. rewrite Hid, Hrec, find_snoc, Hnone.
  unfold Engine.has_key. rewrite bool_decide_eq_true_2; [reflexivity |].
  subst r. reflexivity.
Qed.

(** In the engine a submission with [selectedIndex = -1], when accepted, is
    recorded with [correct = false] and awarded 0, and a player without a
    record for the question is awarded 0. *)
Lemma no_answer_is_scored_zero :
  (forall reg reg' sid uid q t rcd,
      (forall s qn, reg !! sid = Some s -> qn ∈ Engine.sess_questions s ->
                    0 <= Engine.correctIndex qn) ->
      Engine.submit reg sid uid q (-1) t = (Engine.Accepted rcd, reg') ->
      Engine.rec_selectedIndex rcd = -1
      /\ Engine.rec_correct rcd = false
      /\ exists s', reg' !! sid = Some s' /\ Engine.award_for s' q uid = 0)
  /\ (forall s q uid,
         Engine.find_record s q uid = None -> Engine.award_for s q uid = 0).
Proof.
  split.
  - intros reg reg' sid uid q t rcd Hvalid Hacc.
    apply submit_accepted_found in Hacc
      as (s & s' & Hs & Hs' & Hfound & Hsel & Hcorrect).
    rewrite (is_correct_no_answer s q (fun qn => Hvalid s qn Hs)) in Hcorrect.
    repeat split; auto.
    exists s'. split; [exact Hs' |].
    unfold Engine.award_for. rewrite Hfound, Hcorrect. reflexivity.
  - intros s q uid Hnone. unfold Engine.award_for. rewrite Hnone. reflexivity.
Qed.

(** Alice's missing answer to question 0, sent in time, is recorded as
    wrong. *)
Example no_answer_in_time_is_recorded :
  fst (Engine.submit Engine.demo_registry "d1" "alice" 0 (-1) 9000)
  = Engine.Accepted
      {| Engine.rec_sessionId := "d1"; Engine.rec_questionIndex := 0;
         Engine.rec_userId := "alice"; Engine.rec_selectedIndex := -1;
         Engine.rec_correct := false; Engine.rec_answeredAt := 9000 |}.
Proof. reflexivity. Qed.

(** The session of the examples once question 3 is the current one, and
    what the engine answers to the message the client sent for it. *)
Example stale_autosubmission_is_rejected :
  let reg :=
    Engine.run Engine.demo_registry
      [ Engine.EvTimerFired "d1" 0; Engine.EvAdvance "d1" 18000;
        Engine.EvTimerFired "d1" 1; Engine.EvAdvance "d1" 27000;
        Engine.EvTimerFired "d1" 2; Engine.EvAdvance "d1" 36000 ] in
  (Engine.sess_state <$> reg !! "d1") = Some (Engine.ACTIVE 3)
  /\ Engine.submit reg "d1" "alice" 0 (-1) 35000 = (Engine.StaleQuestion, reg).
Proof. vm_compute. split; reflexivity. Qed.

(** C2.  The code departs from the claim for every question but the first
    one.  The socket listeners
    are attached once, by the render in which the screen mounts, so the
    timers of every question call the [submitAnswer] of that render, where
    [questionIndex] is 0.  For an announced question with another index,
    when its time runs up the client sends exactly one message, an answer
    with [selectedIndex = -1] for question 0; it sends no answer at all for
    the announced question; and an engine whose session has the announced
    question as its current one answers that message [StaleQuestion] and
    records nothing. *)
Theorem C2_timeout_submission_names_question_0
    (duel : string) (data : DuelScreen.QuestionStart)
    (startTime now : Z) (clock : list Z) :
  DuelScreen.qs_questionIndex data <> 0 ->
  existsb (DuelScreen.timeUp data startTime) (now :: clock) = true ->
  let sent :=
    DuelScreen.emitted
      (DuelScreen.questionRun (DuelScreen.mount_render duel) data
         startTime now clock) in
  (exists ts, sent = [ Types.answer duel 0 (-1) ts ])
  /\ (forall sel ts,
         Types.answer duel (DuelScreen.qs_questionIndex data) sel ts ∉ sent)
  /\ (forall reg s uid receivedAt,
         reg !! duel = Some s ->
         Engine.is_slot s uid = true ->
         Engine.sess_questionIndex s = DuelScreen.qs_questionIndex data ->
         Engine.submit reg duel uid 0 (-1) receivedAt
         = (Engine.StaleQuestion, reg)).
Proof.
  intros Hindex Hup sent.
  assert (Hsent : exists ts, sent = [ Types.answer duel 0 (-1) ts ]).
  { assert (Hr : DuelScreen.can_submit (DuelScreen.mount_render duel))
      by (repeat split; simpl; lia).
    subst sent. rewrite questionRun_emitted. unfold DuelScreen.timeUp in Hup.
    destruct (DuelScreen.qs_deadline data) as [deadline |].
    - apply (updateTimer_chain _ deadline Hr clock now Hup).
    - apply (updateFallbackTimer_chain _ _ Hr clock now Hup). }
  split; [exact Hsent | split].
  - intros sel ts Hin. destruct Hsent as [ts' Hsent].
    rewrite Hsent in Hin. apply list_elem_of_singleton in Hin.
    injection Hin as Hq _ _. contradiction.
  - intros reg s uid receivedAt Hs Hslot Hcurrent.
    unfold Engine.submit. rewrite Hs, Hslot, Hcurrent.
    destruct (Z.eqb_spec 0 (DuelScreen.qs_questionIndex data)) as [Heq | _];
      [congruence | reflexivity].
Qed.

(** C2 at the announcement of question 3, deadline at 9000, with ticks at 0,
    4000 and 8950: the client sends an answer for question 0. *)
Lemma C2_timeout_witness :
  let sent :=
    DuelScreen.emitted
      (DuelScreen.questionRun (DuelScreen.mount_render "d1")
         DuelScreen.demo_start 0 0 [4000; 8950]) in
  (exists ts, sent = [ Types.answer "d1" 0 (-1) ts ])
  /\ (forall sel ts, Types.answer "d1" 3 sel ts ∉ sent)
  /\ (forall reg s uid receivedAt,
         reg !! "d1" = Some s ->
         Engine.is_slot s uid = true ->
         Engine.sess_questionIndex s = 3 ->
         Engine.submit reg "d1" uid 0 (-1) receivedAt
         = (Engine.StaleQuestion, reg)).
Proof.
  apply (C2_timeout_submission_names_question_0 "d1"
           DuelScreen.demo_start 0 0 [4000; 8950]).
  - simpl. lia.
  - reflexivity.
Defined.

Example duplicate_in_time_is_AlreadyAnswered :
  fst (Engine.submit
         (snd (Engine.submit Engine.demo_registry "d1" "alice" 0 2 1000))
         "d1" "alice" 0 1 1500)
  = Engine.AlreadyAnswered.
Proof. reflexivity. Qed.

Example duplicate_after_deadline_is_LateAnswer :
  fst (Engine.submit
         (snd (Engine.submit Engine.demo_registry "d1" "alice" 0 2 1000))
         "d1" "alice" 0 1 9500)
  = Engine.LateAnswer.
Proof. reflexivity. Qed.

(** The other two verdicts a duplicate can get: after the session has moved
    to question 1, and after it has been removed. *)
Example duplicate_after_advance_is_StaleQuestion :
  fst (Engine.submit
         (Engine.run
            (snd (Engine.submit Engine.demo_registry "d1" "alice" 0 2 1000))
            [ Engine.EvTimerFired "d1" 0; Engine.EvAdvance "d1" 18000 ])
         "d1" "alice" 0 1 9500)
  = Engine.StaleQuestion.
Proof. vm_compute. reflexivity. Qed.

Example duplicate_after_removal_is_SessionNotFound :
  fst (Engine.submit
         (Engine.run
            (snd (Engine.submit Engine.demo_registry "d1" "alice" 0 2 1000))
            [ Engine.EvRemove "d1" ])
         "d1" "alice" 0 1 1500)
  = Engine.SessionNotFound.
Proof. vm_compute. reflexivity. Qed.

(** C3, as stated, fails in both halves.  In the engine a second submit for
    a key that has its record is answered [LateAnswer], not
    [AlreadyAnswered], when it arrives after the deadline, because the
    deadline is checked first.  On the client, after the player has clicked
    option 1 of question 3 at 2000, so that [hasAnswered] is true, the call
    of [submitAnswer] that the question timer makes at 9050 still runs in
    the render that attached the listeners: it sends a second answer and
    overwrites the selected option. *)
Lemma C3_late_duplicate_and_timer_after_click :
  ~ (forall (reg reg' : gmap string Engine.Session) (sid uid : string)
            (q sel t sel' t' : Z) (r : Engine.AnswerRecord),
        Engine.submit reg sid uid q sel t = (Engine.Accepted r, reg') ->
        fst (Engine.submit reg' sid uid q sel' t') = Engine.AlreadyAnswered)
  /\ (let r0 := DuelScreen.mount_render "d1" in
      let started := DuelScreen.handleQuestionStart r0 DuelScreen.demo_start 0 0 in
      let r1 := DuelScreen.rerender r0 started in
      let click := DuelScreen.submitAnswer r1 1 2000 in
      let r2 := DuelScreen.rerender r1 click in
      let lastTick := DuelScreen.fire (DuelScreen.updateTimerFn r0 9000) 8950 in
      let call := DuelScreen.delayed lastTick 8950 in
      DuelScreen.emitted click = [ Types.answer "d1" 3 1 2000 ]
      /\ DuelScreen.hasAnswered (DuelScreen.state r2) = true
      /\ DuelScreen.emitted (DuelScreen.follow [4000; 8950] started 0)
         = DuelScreen.emitted call
      /\ DuelScreen.emitted call = [ Types.answer "d1" 0 (-1) 9050 ]
      /\ DuelScreen.selectedAnswer (DuelScreen.state r2) = Some 1
      /\ DuelScreen.selectedAnswer
           (DuelScreen.apply_effects (DuelScreen.state r2) call)
         = Some (-1)).
Proof.
  split.
  - intros Hclaim.
    pose (first := Engine.submit Engine.demo_registry "d1" "alice" 0 2 1000).
    assert (Hfirst : first
                     = (Engine.Accepted
                          {| Engine.rec_sessionId := "d1";
                             Engine.rec_questionIndex := 0;
                             Engine.rec_userId := "alice";
                             Engine.rec_selectedIndex := 2;
                             Engine.rec_correct := true;
                             Engine.rec_answeredAt := 1000 |},
                        snd first)) by reflexivity.
    specialize (Hclaim _ _ "d1" "alice" 0 2 1000 1 9500 _ Hfirst).
    vm_compute in Hclaim. discriminate Hclaim.
  - repeat split.
Qed.

(** C3, amended.  In every state the engine reaches, each session holds at
    most one AnswerRecord per key (session, questionIndex, userId).  Once a
    submit for a key has been accepted, every later submit for that key is
    rejected and leaves the registry, records and scores included, as it
    was; its verdict is that of the first failing check: [SessionNotFound]
    when the session has been removed, else [StaleQuestion] when the
    question is no longer the current one, else [LateAnswer] when the
    session has left [ACTIVE(questionIndex)] or the submit arrives after the
    deadline, else [AlreadyAnswered].  On the client, once a call of
    [submitAnswer] has sent an answer, [hasAnswered] is true in every render
    up to the next [question_start], whatever clicks, timer callbacks and
    other socket events come in between, and [submitAnswer] as such a render
    calls it (a click on an option) emits nothing and changes no state.  So
    it is in the render that follows a tick which found the countdown at
    its end and set the time left to 0. *)
Theorem C3_one_record_per_key :
  (forall reg evs,
      (forall sid s, reg !! sid = Some s -> Engine.records_unique s) ->
      forall sid s, Engine.run reg evs !! sid = Some s -> Engine.records_unique s)
  /\ (forall reg reg' sid uid q sel t r evs sel' t',
         Engine.submit reg sid uid q sel t = (Engine.Accepted r, reg') ->
         let later := Engine.run reg' evs in
         Engine.submit later sid uid q sel' t'
         = (match later !! sid with
            | None => Engine.SessionNotFound
            | Some s =>
                if negb (q =? Engine.sess_questionIndex s)
                then Engine.StaleQuestion
                else if negb (Engine.is_active s q
                              && (t' <=? Engine.sess_deadline s))
                     then Engine.LateAnswer
                     else Engine.AlreadyAnswered
            end, later))
  /\ (forall r index now hs index' now',
         DuelScreen.can_submit r ->
         let first := DuelScreen.submitAnswer r index now in
         let answered := DuelScreen.rerender r first in
         let later :=
           DuelScreen.rerender answered (DuelScreen.happenings answered hs) in
         DuelScreen.emitted first
         = [ Types.answer (DuelScreen.duelId r)
               (DuelScreen.questionIndex (DuelScreen.state r)) index now ]
         /\ DuelScreen.hasAnswered (DuelScreen.state later) = true
         /\ DuelScreen.emitted (DuelScreen.submitAnswer later index' now') = []
         /\ forall s,
              DuelScreen.apply_effects s
                (DuelScreen.submitAnswer later index' now') = s)
  /\ (forall r r' f zero now index' now',
         f = DuelScreen.updateTimerFn r' zero
         \/ f = DuelScreen.updateFallbackTimerFn r' zero ->
         zero <= now ->
         let later := DuelScreen.rerender r (DuelScreen.fire f now) in
         DuelScreen.timeLeft (DuelScreen.state later) = 0
         /\ DuelScreen.emitted (DuelScreen.submitAnswer later index' now') = []
         /\ forall s,
              DuelScreen.apply_effects s
                (DuelScreen.submitAnswer later index' now') = s).
Proof.
  split; [| split; [| split]].
  - intros reg evs Hreg. apply run_keeps_unique. exact Hreg.
  - intros reg reg' sid uid q sel t r evs sel' t' Hacc later.
    assert (Hrec : forall s, later !! sid = Some s -> Engine.has_record s q uid = true).
    { apply run_keeps_record. intros s' Hs'.
      apply submit_accepted_found in Hacc as (s0 & s1 & _ & Hs1 & Hfound & _).
      rewrite Hs1 in Hs'. inversion Hs'; subst s'.
      unfold Engine.has_record. rewrite Hfound. reflexivity. }
    assert (Hslot : forall s, later !! sid = Some s -> Engine.is_slot s uid = true).
    { apply run_keeps_slot. intros s' Hs'.
      apply submit_accepted in Hacc
        as (s0 & Hs0 & Hslot0 & _ & _ & _ & _ & _ & Hreg').
      rewrite Hreg', lookup_insert_eq in Hs'. inversion Hs'; subst s'.
      rewrite record_answer_slots. exact Hslot0. }
    rewrite (submit_duplicate later sid uid q sel' t' Hrec).
    destruct (later !! sid) as [s |]; [| reflexivity].
    rewrite (Hslot s eq_refl). reflexivity.
  - intros r index now hs index' now' Hr first answered later.
    assert (Hfirst : first
                     = [ DuelScreen.Emit
                           (Types.answer (DuelScreen.duelId r)
                              (DuelScreen.questionIndex (DuelScreen.state r))
                              index now);
                         DuelScreen.Upd (DuelScreen.setSelectedAnswer (Some index));
                         DuelScreen.Upd (DuelScreen.setHasAnswered true) ])
      by (apply submitAnswer_sends; exact Hr).
    assert (Hlater : DuelScreen.hasAnswered (DuelScreen.state later) = true).
    { apply happenings_keep_hasAnswered.
      subst answered. rewrite Hfirst. reflexivity. }
    assert (Hnone : DuelScreen.submitAnswer later index' now' = [])
      by (apply submitAnswer_guarded; left; exact Hlater).
    rewrite Hnone. repeat split; auto.
    rewrite Hfirst. reflexivity.
  - intros r r' f zero now index' now' Hf Hzero later.
    assert (Hshown : DuelScreen.timeLeft (DuelScreen.state later) = 0).
    { pose proof (proj2 (ceil_div_bounds (zero - now) 0)) as Hceil.
      subst later.
      change (DuelScreen.timeLeft
                (DuelScreen.state (DuelScreen.rerender r (DuelScreen.fire f now))))
        with (DuelScreen.displayed
                (DuelScreen.apply_effects (DuelScreen.state r)
                   (DuelScreen.fire f now))).
      destruct Hf as [-> | ->]; cbn [DuelScreen.fire];
        [ rewrite updateTimer_displayed | rewrite updateFallbackTimer_displayed ];
        lia. }
    assert (Hnone : DuelScreen.submitAnswer later index' now' = [])
      by (apply submitAnswer_guarded; right; lia).
    rewrite Hnone. repeat split; auto.
Qed.

(** The amended C3 on the demo session, where alice answers question 0 at
    1000 and her second submit, at 1500, gets [AlreadyAnswered], and on the
    duel screen, where a click at 2000 is followed by two more. *)
Lemma C3_one_record_witness :
  Engine.submit
    (Engine.run (snd (Engine.submit Engine.demo_registry "d1" "alice" 0 2 1000)) [])
    "d1" "alice" 0 1 1500
  = (Engine.AlreadyAnswered,
     Engine.run (snd (Engine.submit Engine.demo_registry "d1" "alice" 0 2 1000)) [])
  /\ DuelScreen.emitted
       (DuelScreen.submitAnswer
          (DuelScreen.rerender
             (DuelScreen.rerender (DuelScreen.mount_render "d1")
                (DuelScreen.submitAnswer (DuelScreen.mount_render "d1") 1 2000))
             (DuelScreen.happenings
                (DuelScreen.rerender (DuelScreen.mount_render "d1")
                   (DuelScreen.submitAnswer (DuelScreen.mount_render "d1") 1 2000))
                [ DuelScreen.Click 2 3000;
                  DuelScreen.Due (DuelScreen.updateTimerFn
                                    (DuelScreen.mount_render "d1") 9000) 4000 ]))
          3 5000)
     = [].
Proof.
  split.
  - exact (proj1 (proj2 C3_one_record_per_key)
             Engine.demo_registry
             (snd (Engine.submit Engine.demo_registry "d1" "alice" 0 2 1000))
             "d1" "alice" 0 2 1000
             {| Engine.rec_sessionId := "d1"; Engine.rec_questionIndex := 0;
                Engine.rec_userId := "alice"; Engine.rec_selectedIndex := 2;
                Engine.rec_correct := true; Engine.rec_answeredAt := 1000 |}
             [] 1 1500 eq_refl).
  - apply (proj1 (proj2 (proj2 C3_one_record_per_key))
             (DuelScreen.mount_render "d1") 1 2000
             [ DuelScreen.Click 2 3000;
               DuelScreen.Due (DuelScreen.updateTimerFn
                                 (DuelScreen.mount_render "d1") 9000) 4000 ]
             3 5000).
    repeat split; simpl; lia.
Defined.


(** ** The countdown *)

Example countdown_from_deadline :
  DuelScreen.displayed
    (DuelScreen.apply_effects DuelScreen.initial
       (DuelScreen.handleQuestionStart (DuelScreen.mount_render "d1")
          DuelScreen.demo_start 50 50))
  = 9.
Proof. reflexivity. Qed.

Example countdown_from_timeLimit :
  DuelScreen.displayed
    (DuelScreen.apply_effects DuelScreen.initial
       (DuelScreen.handleQuestionStart (DuelScreen.mount_render "d1")
          (DuelScreen.demo_start_fallback (Some 5)) 50 50))
  = 5.
Proof. reflexivity. Qed.

(** The fallback lags behind the deadline by the time the announcement took
    to arrive: at instant 9000 the deadline branch shows 0 seconds, the
    fallback branch, started at 50, still shows 1. *)
Example fallback_lags_by_the_latency :
  let r := DuelScreen.mount_render "d1" in
  DuelScreen.displayed
    (DuelScreen.apply_effects DuelScreen.initial
       (DuelScreen.questionRun r DuelScreen.demo_start 50 50 [9000]))
  = 0
  /\ DuelScreen.displayed
       (DuelScreen.apply_effects DuelScreen.initial
          (DuelScreen.questionRun r
             (DuelScreen.without_deadline DuelScreen.demo_start) 50 50 [9000]))
     = 1.
Proof. split; reflexivity. Qed.






(** ** Reconnection *)

Example reconnect_mid_question_4 :
  let data := {| DuelScreen.dr_duelId := "d1";
                 DuelScreen.dr_currentQuestion := Some 4;
                 DuelScreen.dr_scores := {| Types.player1 := 37; Types.player2 := 24 |};
                 DuelScreen.dr_status := "active" |} in
  let s := DuelScreen.apply_effects DuelScreen.initial
             (DuelScreen.handleDuelReconnected (DuelScreen.mount_render "d1") data) in
  DuelScreen.questionIndex s = 4
  /\ DuelScreen.scores s = {| Types.player1 := 37; Types.player2 := 24 |}.
Proof. split; reflexivity. Qed.

Lemma number_or_zero (n : Z) : JS.number_or (Some n) 0 = n.
Proof. unfold JS.number_or. destruct (Z.eqb_spec n 0); congruence. Qed.

(** C5.  On [duel_reconnected] the client takes the snapshot as it is: the
    handler performs two setter calls and nothing else (no message, no
    timer), after which the displayed scores are the snapshot's scores and
    the question index is the snapshot's [currentQuestion], for 4, for 0 and
    for every other number; all other state is as before. *)
Theorem C5_reconnect_resumes_from_snapshot
    (r : DuelScreen.Render) (s : DuelScreen.State)
    (duel status : string) (n : Z) (snapshot : Types.Scores) :
  let data := {| DuelScreen.dr_duelId := duel;
                 DuelScreen.dr_currentQuestion := Some n;
                 DuelScreen.dr_scores := snapshot;
                 DuelScreen.dr_status := status |} in
  let s' := DuelScreen.apply_effects s (DuelScreen.handleDuelReconnected r data) in
  DuelScreen.handleDuelReconnected r data
  = [ DuelScreen.Upd (DuelScreen.setScores snapshot);
      DuelScreen.Upd (DuelScreen.setQuestionIndex n) ]
  /\ DuelScreen.emitted (DuelScreen.handleDuelReconnected r data) = []
  /\ DuelScreen.scores s' = snapshot
  /\ DuelScreen.questionIndex s' = n
  /\ DuelScreen.currentQuestion s' = DuelScreen.currentQuestion s
  /\ DuelScreen.timeLeft s' = DuelScreen.timeLeft s
  /\ DuelScreen.selectedAnswer s' = DuelScreen.selectedAnswer s
  /\ DuelScreen.hasAnswered s' = DuelScreen.hasAnswered s
  /\ DuelScreen.showResult s' = DuelScreen.showResult s
  /\ DuelScreen.lastResult s' = DuelScreen.lastResult s
  /\ DuelScreen.isWaitingForNext s' = DuelScreen.isWaitingForNext s.
Proof.
  intros data s'. subst data s'. unfold DuelScreen.handleDuelReconnected.
  cbn [DuelScreen.dr_currentQuestion DuelScreen.dr_scores].
  rewrite number_or_zero. repeat split.
Qed.


(** ** The results screen *)

Section ResultsFacts.
Import Types ResultsScreen.

Lemma headline_cases (winnerId : option string) (user : option User) :
  headline winnerId user
  = if bool_decide (winnerId = user_id <$> user) then Victory
    else match winnerId with
         | None => TieGame
         | Some w => if String.eqb w "" then TieGame else Defeat
         end.
Proof.
  unfold headline, isWinner, isTie, JS.strict_eq, JS.truthy_string.
  destruct (bool_decide _); [reflexivity |].
  destruct winnerId as [w |]; [| reflexivity].
  destruct (String.eqb w ""); reflexivity.
Qed.

(** Without a logged-in user [user?.id] is [undefined], and so is the
    [winnerId] of a tie: the comparison succeeds. *)
Lemma headline_without_user : headline None None = Victory.
Proof. reflexivity. Qed.

End ResultsFacts.

Example tie_is_reported :
  ResultsScreen.headline None (Some MatchmakingScreen.demo_user)
  = ResultsScreen.TieGame.
Proof. reflexivity. Qed.

Example defeat_is_reported :
  ResultsScreen.headline (Some "u2") (Some MatchmakingScreen.demo_user)
  = ResultsScreen.Defeat.
Proof. reflexivity. Qed.

(** C6.  For a logged-in user the results screen reports a tie for every
    [duel_end] without a [winnerId] and a victory for every [duel_end] whose
    [winnerId] is the user's id.  The headline is a total function of
    [winnerId] and the user's id: victory when they are equal, otherwise a
    tie when [winnerId] is missing (or empty), otherwise a defeat. *)
Theorem C6_ties_are_reported
    (data : ResultsScreen.DuelEnd) (opponent : ResultsScreen.Opponent)
    (topic : option string) (u : Types.User) :
  let shown :=
    ResultsScreen.view
      (ResultsScreen.handleDuelEnd (Some opponent) topic data) (Some u) in
  (ResultsScreen.de_winnerId data = None ->
   shown = ResultsScreen.Results ResultsScreen.TieGame)
  /\ (ResultsScreen.de_winnerId data = Some (Types.user_id u) ->
      shown = ResultsScreen.Results ResultsScreen.Victory)
  /\ shown
     = ResultsScreen.Results
         (if bool_decide (ResultsScreen.de_winnerId data = Some (Types.user_id u))
          then ResultsScreen.Victory
          else match ResultsScreen.de_winnerId data with
               | None => ResultsScreen.TieGame
               | Some w =>
                   if String.eqb w "" then ResultsScreen.TieGame
                   else ResultsScreen.Defeat
               end).
Proof.
  intros shown. subst shown. unfold ResultsScreen.view. simpl.
  rewrite headline_cases. simpl. split; [| split].
  - intros ->. reflexivity.
  - intros ->. rewrite bool_decide_eq_true_2; reflexivity.
  - reflexivity.
Qed.

(** C6 at a tie seen by the demo user. *)
Lemma C6_ties_witness :
  ResultsScreen.view
    (ResultsScreen.handleDuelEnd
       (Some {| ResultsScreen.opp_id := "u2"; ResultsScreen.opp_username := "bob" |})
       (Some "algorithms")
       {| ResultsScreen.de_duelId := "d1";
          ResultsScreen.de_winnerId := None;
          ResultsScreen.de_finalScores := {| Types.player1 := 40; Types.player2 := 40 |};
          ResultsScreen.de_duration := 90 |})
    (Some MatchmakingScreen.demo_user)
  = ResultsScreen.Results ResultsScreen.TieGame.
Proof.
  apply (proj1 (C6_ties_are_reported
                  {| ResultsScreen.de_duelId := "d1";
                     ResultsScreen.de_winnerId := None;
                     ResultsScreen.de_finalScores :=
                       {| Types.player1 := 40; Types.player2 := 40 |};
                     ResultsScreen.de_duration := 90 |}
                  {| ResultsScreen.opp_id := "u2"; ResultsScreen.opp_username := "bob" |}
                  (Some "algorithms") MatchmakingScreen.demo_user)).
  reflexivity.
Defined.


(** ** Topic selection *)

Section TopicFacts.
Import TopicSelection.

Lemma toggleTopic_elem (t t' : string) (sel : list string) :
  t' ∈ toggleTopic t sel <-> (t' = t /\ t ∉ sel) \/ (t' ≠ t /\ t' ∈ sel).
Proof.
  unfold toggleTopic. case_bool_decide as Hin.
  - rewrite list_elem_of_filter. split.
    + intros [Hne Hin']. right. split; assumption.
    + intros [[-> Hout] | [Hne Hin']]; [contradiction | split; assumption].
  - rewrite elem_of_app, list_elem_of_singleton. split.
    + intros [Hin' | ->].
      * right. split; [| exact Hin']. intros ->. contradiction.
      * left. split; [reflexivity | exact Hin].
    + intros [[-> _] | [_ Hin']]; [right; reflexivity | left; exact Hin'].
Qed.

Lemma toggleTopic_fresh (t : string) (sel : list string) :
  t ∉ sel -> toggleTopic t sel = sel ++ [t].
Proof.
  intros Hout. unfold toggleTopic. rewrite bool_decide_eq_false_2; auto.
Qed.

(** Clicking distinct topics, none of them selected yet, appends them in
    the order of the clicks. *)
Lemma clicks_in_order (ts sel : list string) :
  NoDup (sel ++ ts) -> clicks ts sel = sel ++ ts.
Proof.
  revert sel. induction ts as [| t ts IH]; intros sel Hnd.
  - simpl. rewrite app_nil_r. reflexivity.
  - unfold clicks in *. simpl.
    assert (Hout : t ∉ sel).
    { apply NoDup_app in Hnd as (_ & Hdisj & _).
      intros Hin. apply (Hdisj t Hin). left. }
    rewrite (toggleTopic_fresh t sel Hout), IH.
    + rewrite <- app_assoc. reflexivity.
    + rewrite <- app_assoc. exact Hnd.
Qed.

End TopicFacts.

Example startDuel_first_of_three :
  TopicSelection.startDuel
    {| TopicSelection.selectedTopics := ["react"; "python"; "algorithms"];
       TopicSelection.topics := ["algorithms"; "python"; "react"];
       TopicSelection.isLoading := false |}
  = [ TopicSelection.setIsLoading true;
      TopicSelection.Navigate "/matchmaking" (Some "react") ].
Proof. reflexivity. Qed.

Example toggle_twice_reorders :
  TopicSelection.toggleTopic "a" (TopicSelection.toggleTopic "a" ["a"; "b"])
  = ["b"; "a"].
Proof. reflexivity. Qed.

(** C7.  With a non-empty selection [startDuel] navigates to the
    matchmaking route with exactly the first selected topic, and the
    matchmaking screen mounted there joins the queue of that topic; the
    selection lists the topics in the order they were clicked, so the first
    is the earliest selected.  With an empty selection [startDuel] only
    alerts: it does not navigate, so no matchmaking is initiated. *)
Theorem C7_first_selected_topic :
  (forall first rest topics loading,
      let s := {| TopicSelection.selectedTopics := first :: rest;
                  TopicSelection.topics := topics;
                  TopicSelection.isLoading := loading |} in
      TopicSelection.startDuel s
      = [ TopicSelection.setIsLoading true;
          TopicSelection.Navigate "/matchmaking" (Some first) ]
      /\ TopicSelection.navigated_topic (TopicSelection.startDuel s)
         = Some (Some first))
  /\ (forall first rest u,
         first ≠ "" ->
         NoDup (first :: rest) ->
         TopicSelection.clicks (first :: rest) [] = first :: rest
         /\ MatchmakingScreen.sent
              (MatchmakingScreen.mount
                 {| MatchmakingScreen.user := Some u;
                    MatchmakingScreen.socket := true;
                    MatchmakingScreen.topic := Some first |})
            = [ Types.join_queue (Types.user_id u) (Some first) ])
  /\ (forall topics loading,
         let s := {| TopicSelection.selectedTopics := [];
                     TopicSelection.topics := topics;
                     TopicSelection.isLoading := loading |} in
         TopicSelection.startDuel s
         = [ TopicSelection.Alert "Please select at least one topic" ]
         /\ TopicSelection.navigated_topic (TopicSelection.startDuel s) = None).
Proof.
  split; [| split].
  - intros first rest topics loading s. split; reflexivity.
  - intros first rest u Hne Hnd. split.
    + apply (clicks_in_order (first :: rest) []). exact Hnd.
    + unfold MatchmakingScreen.mount, MatchmakingScreen.effect. simpl.
      destruct (String.eqb_spec first ""); [contradiction | reflexivity].
  - intros topics loading s. split; reflexivity.
Qed.

(** C7 for the selection react, python, algorithms. *)
Lemma C7_first_selected_witness :
  TopicSelection.clicks ["react"; "python"; "algorithms"] []
  = ["react"; "python"; "algorithms"]
  /\ MatchmakingScreen.sent
       (MatchmakingScreen.mount
          {| MatchmakingScreen.user := Some MatchmakingScreen.demo_user;
             MatchmakingScreen.socket := true;
             MatchmakingScreen.topic := Some "react" |})
     = [ Types.join_queue "u1" (Some "react") ].
Proof.
  apply (proj1 (proj2 C7_first_selected_topic)
           "react" ["python"; "algorithms"] MatchmakingScreen.demo_user).
  - discriminate.
  - apply (NoDup_ListNoDup ["react"; "python"; "algorithms"]).
    repeat constructor; simpl; intuition discriminate.
Defined.

(** C8.  [toggleTopic t] flips the membership of [t] in the selection and
    leaves the membership of every other topic as it was; toggling the same
    topic twice restores the membership of every topic. *)
Theorem C8_toggle_flips_membership (t t' : string) (sel : list string) :
  bool_decide (t' ∈ TopicSelection.toggleTopic t sel)
  = xorb (bool_decide (t' = t)) (bool_decide (t' ∈ sel))
  /\ bool_decide (t' ∈ TopicSelection.toggleTopic t (TopicSelection.toggleTopic t sel))
     = bool_decide (t' ∈ sel).
Proof.
  assert (Hflip : forall l,
             bool_decide (t' ∈ TopicSelection.toggleTopic t l)
             = xorb (bool_decide (t' = t)) (bool_decide (t' ∈ l))).
  { intros l. apply eq_true_iff_eq.
    rewrite bool_decide_eq_true, toggleTopic_elem.
    destruct (decide (t' = t)) as [-> | Hne].
    - rewrite (bool_decide_eq_true_2 (t = t)) by reflexivity.
      destruct (decide (t ∈ l)) as [Hin | Hout].
      + rewrite (bool_decide_eq_true_2 _ Hin). simpl. intuition discriminate.
      + rewrite (bool_decide_eq_false_2 _ Hout). simpl. tauto.
    - rewrite (bool_decide_eq_false_2 (t' = t)) by exact Hne. simpl.
      rewrite bool_decide_eq_true. tauto. }
  split; [apply Hflip |].
  rewrite !Hflip. destruct (bool_decide (t' = t)), (bool_decide (t' ∈ sel)); reflexivity.
Qed.


(** ** Leaving the matchmaking screen *)

Section MatchmakingFacts.
Import Types MatchmakingScreen.

Lemma unmount_first_cleanup (c : Context) (sc : Screen) :
  first_cleanup c (unmount sc).
Proof. left. reflexivity. Qed.

Lemma perform_first_cleanup (c : Context) (sc : Screen) (es : list Effect) :
  first_cleanup c sc -> first_cleanup c (perform sc es).
Proof.
  intros Hsc. unfold perform. destruct (navigates es).
  - apply unmount_first_cleanup.
  - exact Hsc.
Qed.

Lemma mount_first_cleanup (c : Context) : first_cleanup c (mount c).
Proof.
  unfold mount, effect. simpl.
  destruct (user c); [destruct (JS.truthy_string (topic c)) |];
    apply perform_first_cleanup; (left; reflexivity) || (right; reflexivity).
Qed.

Lemma dispatch_first_cleanup (c : Context) (sc : Screen) (ev : Event) :
  first_cleanup c sc -> first_cleanup c (dispatch c sc ev).
Proof.
  intros Hsc. unfold dispatch. destruct (negb (mounted sc)); [exact Hsc |].
  destruct ev; try (destruct (socket c); [| exact Hsc]);
    try (apply perform_first_cleanup; exact Hsc).
  apply unmount_first_cleanup.
Qed.

Lemma run_first_cleanup (c : Context) (evs : list Event) :
  first_cleanup c (run c evs).
Proof.
  unfold run. induction evs as [| ev evs IH] using rev_ind.
  - apply mount_first_cleanup.
  - rewrite foldl_app. simpl. apply dispatch_first_cleanup. exact IH.
Qed.

(** Whatever happened before, unmounting sends nothing. *)
Lemma unmount_sends_nothing (c : Context) (evs : list Event) :
  sent (unmount (run c evs)) = sent (run c evs).
Proof.
  unfold unmount. simpl.
  destruct (run_first_cleanup c evs) as [-> | ->]; simpl; apply app_nil_r.
Qed.

End MatchmakingFacts.

Example cancel_button_sends_cancel_queue :
  MatchmakingScreen.sent
    (MatchmakingScreen.run MatchmakingScreen.demo_context
       [ MatchmakingScreen.QueueJoined MatchmakingScreen.demo_ticket;
         MatchmakingScreen.ClickCancel ])
  = [ Types.join_queue "u1" (Some "algorithms"); Types.cancel_queue "t1" ].
Proof. reflexivity. Qed.

Example unmount_sends_no_cancel_queue :
  MatchmakingScreen.sent
    (MatchmakingScreen.run MatchmakingScreen.demo_context
       [ MatchmakingScreen.QueueJoined MatchmakingScreen.demo_ticket;
         MatchmakingScreen.Unmount ])
  = [ Types.join_queue "u1" (Some "algorithms") ].
Proof. reflexivity. Qed.

(** C9, evaluated.  Pressing Cancel while a ticket is held sends
    [cancel_queue] with that ticket's id.  Unmounting while a ticket is held
    sends nothing: the clean-up of the effect belongs to the first render,
    in which [ticket] is still [null], and the effect does not run again
    when the ticket arrives since its dependencies are [user] and [topic].
    After [queue_joined] delivered ticket [t], an unmount leaves the screen
    with the ticket held and no [cancel_queue] sent. *)
Theorem C9_unmount_abandons_the_ticket
    (u : Types.User) (topic : string) (t : Types.MatchmakingTicket) :
  topic ≠ "" ->
  let c := {| MatchmakingScreen.user := Some u;
              MatchmakingScreen.socket := true;
              MatchmakingScreen.topic := Some topic |} in
  let joined := MatchmakingScreen.run c [ MatchmakingScreen.QueueJoined t ] in
  MatchmakingScreen.ticket (MatchmakingScreen.cur joined) = Some t
  /\ MatchmakingScreen.sent
       (MatchmakingScreen.dispatch c joined MatchmakingScreen.ClickCancel)
     = [ Types.join_queue (Types.user_id u) (Some topic);
         Types.cancel_queue (Types.ticket_id t) ]
  /\ MatchmakingScreen.sent
       (MatchmakingScreen.dispatch c joined MatchmakingScreen.Unmount)
     = [ Types.join_queue (Types.user_id u) (Some topic) ]
  /\ MatchmakingScreen.mounted
       (MatchmakingScreen.dispatch c joined MatchmakingScreen.Unmount) = false
  /\ (forall evs,
         filter (fun m => Types.is_cancel_queue m = true)
           (MatchmakingScreen.sent
              (MatchmakingScreen.unmount (MatchmakingScreen.run c evs)))
         = filter (fun m => Types.is_cancel_queue m = true)
             (MatchmakingScreen.sent (MatchmakingScreen.run c evs))).
Proof.
  intros Hne c joined.
  assert (Hlast : forall evs,
             MatchmakingScreen.sent
               (MatchmakingScreen.unmount (MatchmakingScreen.run c evs))
             = MatchmakingScreen.sent (MatchmakingScreen.run c evs))
    by (intros evs; apply unmount_sends_nothing).
  repeat split; try (intros evs; rewrite Hlast; reflexivity);
    subst joined c;
    unfold MatchmakingScreen.run, MatchmakingScreen.mount, MatchmakingScreen.effect;
    simpl; destruct (String.eqb_spec topic ""); try contradiction; reflexivity.
Qed.

(** C9 at the demo user queueing for algorithms with ticket t1. *)
Lemma C9_unmount_witness :
  MatchmakingScreen.sent
    (MatchmakingScreen.dispatch MatchmakingScreen.demo_context
       (MatchmakingScreen.run MatchmakingScreen.demo_context
          [ MatchmakingScreen.QueueJoined MatchmakingScreen.demo_ticket ])
       MatchmakingScreen.Unmount)
  = [ Types.join_queue "u1" (Some "algorithms") ].
Proof.
  apply (C9_unmount_abandons_the_ticket MatchmakingScreen.demo_user
           "algorithms" MatchmakingScreen.demo_ticket).
  discriminate.
Defined.


(** ** The 401 interceptor *)

Section InterceptorFacts.
Import AxiosConfig.

(** A request marked [_retry] is rejected at once: no refresh, no replay. *)
Lemma marked_request_is_rejected (st : ModuleState) (status : option Z)
    (req : Request) :
  _retry req = true -> onRejected st status req = (st, Rejected).
Proof.
  intros Hmark. unfold onRejected. rewrite Hmark, andb_false_r. reflexivity.
Qed.

(** Errors other than 401 are passed on. *)
Lemma other_error_is_rejected (st : ModuleState) (status : option Z)
    (req : Request) :
  status ≠ Some 401 -> onRejected st status req = (st, Rejected).
Proof.
  intros Hst. unfold onRejected. rewrite bool_decide_eq_false_2 by exact Hst.
  reflexivity.
Qed.

(** A 401 during a refresh in flight is queued and starts no refresh. *)
Lemma concurrent_401_is_queued (st : ModuleState) (req : Request) :
  isRefreshing st = true -> _retry req = false ->
  exists st',
    onRejected st (Some 401) req = (st', Queued)
    /\ failedQueue st' = failedQueue st ++ [req]
    /\ isRefreshing st' = true
    /\ localStorage st' = localStorage st.
Proof.
  intros Hrefreshing Hfresh. unfold onRejected.
  rewrite Hfresh, Hrefreshing. simpl. eexists. repeat split.
Qed.

(** Without a stored refresh token the request is rejected, the storage
    cleared and the page sent to the login route. *)
Lemma no_refresh_token_logs_out (st : ModuleState) (req : Request) :
  isRefreshing st = false -> _retry req = false ->
  JS.truthy_string (localStorage st !! "codeduel_refresh_token") = false ->
  exists st',
    onRejected st (Some 401) req = (st', Rejected)
    /\ localStorage st' = ∅
    /\ location_href st' = "/".
Proof.
  intros Hidle Hfresh Hnone. unfold onRejected.
  rewrite Hfresh, Hidle, Hnone. simpl. eexists. repeat split.
Qed.

(** With a refresh token the first 401 marks the request and starts the
    one refresh. *)
Lemma first_401_starts_refresh (st : ModuleState) (req : Request) (rt : string) :
  isRefreshing st = false -> _retry req = false ->
  localStorage st !! "codeduel_refresh_token" = Some rt -> rt ≠ "" ->
  exists st',
    onRejected st (Some 401) req = (st', AwaitingRefresh (mark_retry req) rt)
    /\ isRefreshing st' = true.
Proof.
  intros Hidle Hfresh Hrt Hne. unfold onRejected.
  rewrite Hfresh, Hidle, Hrt. simpl.
  destruct (String.eqb_spec rt ""); [contradiction |]. simpl.
  eexists. repeat split.
Qed.

(** A failed refresh rejects the request and everything queued, clears the
    storage and sends the page to the login route. *)
Lemma failed_refresh_logs_out (st : ModuleState) (req : Request) :
  let '(st', failed) := refreshRejected st req in
  failed = failedQueue st ++ [req]
  /\ localStorage st' = ∅
  /\ location_href st' = "/"
  /\ isRefreshing st' = false
  /\ failedQueue st' = [].
Proof. simpl. repeat split. Qed.

(** A successful refresh replays the original request, still marked, and
    the queued requests as they were queued: unmarked. *)
Lemma refresh_replays (st : ModuleState) (req : Request) (newToken : string) :
  let '(st', again) := refreshFulfilled st req newToken in
  map url again = url req :: map url (failedQueue st)
  /\ map _retry again = _retry req :: map _retry (failedQueue st)
  /\ isRefreshing st' = false.
Proof.
  simpl. repeat split.
  - f_equal. rewrite map_map. reflexivity.
  - f_equal. rewrite map_map. reflexivity.
Qed.

End InterceptorFacts.

(** C10, evaluated.  Requests /a and /b are answered 401 one after the
    other.  /a starts the refresh and is marked [_retry]; /b arrives during
    the refresh and is queued, unmarked.  The refresh succeeds and both are
    replayed.  The replay of /b is answered 401 again: not being marked, it
    starts a second refresh and is replayed a second time.  So /b, which
    failed with 401, is retried twice and two refreshes are made. *)
Theorem C10_queued_request_is_retried_twice :
  let trace :=
    [ AxiosConfig.Send (AxiosConfig.get "/a");
      AxiosConfig.Send (AxiosConfig.get "/b");
      AxiosConfig.Fail "/a" 401;
      AxiosConfig.Fail "/b" 401;
      AxiosConfig.RefreshOk "t1";
      AxiosConfig.Fail "/b" 401;
      AxiosConfig.RefreshOk "t2" ] in
  let page := AxiosConfig.net_run (AxiosConfig.fresh AxiosConfig.logged_in) trace in
  AxiosConfig.replays page = ["/a"; "/b"; "/b"]
  /\ AxiosConfig.replay_count "/b" page = 2%nat
  /\ AxiosConfig.refreshes page = 2%nat
  /\ AxiosConfig.rejections page = [].
Proof. vm_compute. repeat split. Qed.

(** Without a refresh token the first 401 is rejected and logs the user
    out, but [isRefreshing] is left set: the next 401 is queued and never
    settled. *)
Example no_refresh_token_leaves_flag_set :
  let page :=
    AxiosConfig.net_run (AxiosConfig.fresh ∅)
      [ AxiosConfig.Send (AxiosConfig.get "/a"); AxiosConfig.Fail "/a" 401;
        AxiosConfig.Send (AxiosConfig.get "/b"); AxiosConfig.Fail "/b" 401 ] in
  AxiosConfig.rejections page = ["/a"]
  /\ AxiosConfig.isRefreshing (AxiosConfig.mstate page) = true
  /\ map AxiosConfig.url (AxiosConfig.failedQueue (AxiosConfig.mstate page)) = ["/b"]
  /\ AxiosConfig.location_href (AxiosConfig.mstate page) = "/".
Proof. vm_compute. repeat split. Qed.



(** * Further properties of the client *)

(** ** The lobby countdown *)

Lemma runInterval_counts_down (ticks : nat) :
  forall c,
    0 <= c ->
    DuelLobby.runInterval ticks (Some c)
    = (Some (Z.max 0 (c - Z.of_nat ticks)),
       bool_decide (Z.max 1 c <= Z.of_nat ticks)).
Proof.
  induction ticks as [| n IH]; intros c Hc.
  - simpl. rewrite bool_decide_eq_false_2 by lia. f_equal. f_equal. lia.
  - cbn [DuelLobby.runInterval DuelLobby.intervalTick].
    destruct (Z.leb_spec c 1) as [Hle | Hgt].
    + rewrite bool_decide_eq_true_2 by lia. f_equal. f_equal. lia.
    + rewrite IH by lia. f_equal.
      * f_equal. lia.
      * apply bool_decide_ext. lia.
Qed.

Example lobby_counts_3_2_1 :
  map (fun n => DuelLobby.panel
                  (DuelLobby.lobbyAfter DuelLobby.initial 3000 500 n))
      [0; 1; 2; 3; 4]%nat
  = [ DuelLobby.Counting 3; DuelLobby.Counting 2; DuelLobby.Counting 1;
      DuelLobby.StartingDuel; DuelLobby.StartingDuel ].
Proof. reflexivity. Qed.

(** X1.  After [pregame_countdown] the lobby counts down from the whole
    seconds left to [startsAt], rounded up and never negative, by one per
    tick of its interval; it shows the number while it is positive and
    "Starting Duel!" from then on, and the interval clears itself at the
    tick that reaches zero (at the first tick when the countdown started at
    zero), so it never runs on. *)
Theorem X1_lobby_countdown (s : DuelLobby.State) (startsAt now : Z) (ticks : nat) :
  let c := DuelLobby.handlePregameCountdown startsAt now in
  0 <= c
  /\ DuelLobby.panel (DuelLobby.lobbyAfter s startsAt now ticks)
     = (if Z.of_nat ticks <? c
        then DuelLobby.Counting (c - Z.of_nat ticks)
        else DuelLobby.StartingDuel)
  /\ snd (DuelLobby.runInterval ticks (Some c))
     = bool_decide (Z.max 1 c <= Z.of_nat ticks).
Proof.
  intros c.
  assert (Hc : 0 <= c) by (subst c; unfold DuelLobby.handlePregameCountdown; lia).
  split; [exact Hc | split].
  - unfold DuelLobby.lobbyAfter, DuelLobby.panel. fold c.
    rewrite (runInterval_counts_down ticks c Hc).
    cbn [fst DuelLobby.countdown].
    destruct (Z.ltb_spec (Z.of_nat ticks) c) as [Hlt | Hge].
    + replace (Z.max 0 (c - Z.of_nat ticks)) with (c - Z.of_nat ticks) by lia.
      destruct (Z.ltb_spec 0 (c - Z.of_nat ticks)); [reflexivity | lia].
    + replace (Z.max 0 (c - Z.of_nat ticks)) with 0 by lia. reflexivity.
  - rewrite (runInterval_counts_down ticks c Hc). reflexivity.
Qed.


(** ** The duel screen between question_start and question_end *)

Section DuelScreenMore.
Import Types DuelScreen.

Lemma ceil_div_positive (n : Z) : 0 < n -> 0 < JS.ceil_div n 1000.
Proof.
  intros Hn. unfold JS.ceil_div.
  assert (- n / 1000 < 0) by (apply Z.div_lt_upper_bound; lia).
  lia.
Qed.

(** The state a [question_start] leaves, whatever the state before, when
    the announcement has a deadline or its own time has not run out at the
    first tick. *)
Lemma handleQuestionStart_state (r : Render) (s : State) (data : QuestionStart)
    (startTime now : Z) :
  qs_deadline data <> None \/ now < zeroInstant data startTime ->
  apply_effects s (handleQuestionStart r data startTime now)
  = {| currentQuestion := Some (qs_question data);
       questionIndex := qs_questionIndex data;
       timeLeft := Z.max 0 (JS.ceil_div (zeroInstant data startTime - now) 1000);
       selectedAnswer := None;
       hasAnswered := false;
       scores := scores s;
       showResult := false;
       lastResult := lastResult s;
       isWaitingForNext := false |}.
Proof.
  intros Hcase. unfold handleQuestionStart, zeroInstant in *.
  destruct (qs_deadline data) as [deadline |].
  - unfold updateTimer.
    destruct (100 <? deadline - now); [reflexivity |].
    destruct (negb (hasAnswered (state r))); reflexivity.
  - destruct Hcase as [Hd | Hnow]; [congruence |].
    unfold updateFallbackTimer.
    destruct (Z.ltb_spec 0 (startTime + JS.number_or (qs_timeLimit data) 9 * 1000 - now));
      [reflexivity | lia].
Qed.

Lemma clickOptions_answered (r : Render) (cs : list (Z * Z)) :
  hasAnswered (state r) = true -> clickOptions r cs = [].
Proof.
  revert r. induction cs as [| [index now] cs IH]; intros r Hans; [reflexivity |].
  simpl. rewrite (submitAnswer_guarded r index now (or_introl Hans)). simpl.
  apply IH. exact Hans.
Qed.

Lemma rerender_nothing (r : Render) : rerender r [] = r.
Proof. destruct r. reflexivity. Qed.

Lemma clickOptions_at_most_one (cs : list (Z * Z)) :
  forall r, (length (emitted (clickOptions r cs)) <= 1)%nat.
Proof.
  induction cs as [| [index now] cs IH]; intros r; [simpl; lia |].
  simpl. unfold submitAnswer.
  destruct (hasAnswered (state r) || (timeLeft (state r) <=? 0)) eqn:Hguard.
  - simpl. rewrite rerender_nothing. apply IH.
  - destruct (negb (isConnected r) || negb (socket r)).
    + simpl. rewrite rerender_nothing. apply IH.
    + rewrite emitted_app, clickOptions_answered by reflexivity. simpl. lia.
Qed.

End DuelScreenMore.

Example question_start_past_deadline_resets :
  let s := DuelScreen.apply_effects
             {| DuelScreen.currentQuestion := None; DuelScreen.questionIndex := 2;
                DuelScreen.timeLeft := 0; DuelScreen.selectedAnswer := Some 1;
                DuelScreen.hasAnswered := true;
                DuelScreen.scores := {| Types.player1 := 17; Types.player2 := 0 |};
                DuelScreen.showResult := true; DuelScreen.lastResult := None;
                DuelScreen.isWaitingForNext := true |}
             (DuelScreen.handleQuestionStart (DuelScreen.mount_render "d1")
                DuelScreen.demo_start 9500 9500) in
  DuelScreen.hasAnswered s = false
  /\ DuelScreen.timeLeft s = 0
  /\ DuelScreen.optionDisabled s = true.
Proof. repeat split. Qed.

(** X2.  A [question_start] that carries a deadline, or whose own time has
    not run out when it arrives, starts the question from a clean slate
    whatever the screen showed before: the announced question and index,
    no selection, [hasAnswered], [showResult] and the waiting card off, the
    countdown at the whole seconds left (0 when the deadline has passed).
    The scores and the last answer result are left as they were. *)
Theorem X2_question_start_resets
    (r : DuelScreen.Render) (s : DuelScreen.State)
    (data : DuelScreen.QuestionStart) (startTime now : Z) :
  DuelScreen.qs_deadline data <> None
  \/ now < DuelScreen.zeroInstant data startTime ->
  let s' := DuelScreen.apply_effects s
              (DuelScreen.handleQuestionStart r data startTime now) in
  DuelScreen.currentQuestion s' = Some (DuelScreen.qs_question data)
  /\ DuelScreen.questionIndex s' = DuelScreen.qs_questionIndex data
  /\ DuelScreen.selectedAnswer s' = None
  /\ DuelScreen.hasAnswered s' = false
  /\ DuelScreen.showResult s' = false
  /\ DuelScreen.waitingCard s' = false
  /\ DuelScreen.timeLeft s'
     = Z.max 0 (JS.ceil_div (DuelScreen.zeroInstant data startTime - now) 1000)
  /\ DuelScreen.scores s' = DuelScreen.scores s
  /\ DuelScreen.lastResult s' = DuelScreen.lastResult s.
Proof.
  intros Hcase s'. subst s'.
  rewrite (handleQuestionStart_state r s data startTime now Hcase).
  repeat split.
Qed.

(** X2 at the announcement of question 3 arriving after its deadline. *)
Lemma X2_question_start_witness :
  DuelScreen.hasAnswered
    (DuelScreen.apply_effects DuelScreen.initial
       (DuelScreen.handleQuestionStart (DuelScreen.mount_render "d1")
          DuelScreen.demo_start 9500 9500))
  = false.
Proof.
  apply (X2_question_start_resets (DuelScreen.mount_render "d1")
           DuelScreen.initial DuelScreen.demo_start 9500 9500).
  left. discriminate.
Defined.

(** X3.  The result of the previous answer is not cleared by
    [question_start]: the "Answer Result" card is hidden while the new
    question is unanswered and, as soon as the player answers it, shows the
    previous question's result again, until [answer_submitted] replaces
    it. *)
Theorem X3_answer_card_shows_previous_result
    (r : DuelScreen.Render) (s : DuelScreen.State)
    (data : DuelScreen.QuestionStart) (startTime now index clickedAt : Z)
    (duel : string) (previous : DuelScreen.AnswerResult)
    (fresh : option DuelScreen.AnswerResult) :
  DuelScreen.lastResult s = Some previous ->
  now < DuelScreen.zeroInstant data startTime ->
  let started := DuelScreen.apply_effects s
                   (DuelScreen.handleQuestionStart r data startTime now) in
  let answered :=
    DuelScreen.apply_effects started
      (DuelScreen.submitAnswer (DuelScreen.connected_render duel started)
         index clickedAt) in
  DuelScreen.answerResultCard started = None
  /\ DuelScreen.answerResultCard answered = Some previous
  /\ DuelScreen.answerResultCard
       (DuelScreen.apply_effects answered (DuelScreen.handleAnswerSubmitted fresh))
     = fresh.
Proof.
  intros Hprev Hnow started answered. subst answered started.
  rewrite (handleQuestionStart_state r s data startTime now (or_intror Hnow)).
  unfold DuelScreen.submitAnswer, DuelScreen.connected_render.
  cbn [DuelScreen.state DuelScreen.hasAnswered DuelScreen.timeLeft
       DuelScreen.isConnected DuelScreen.socket].
  pose proof (ceil_div_positive (DuelScreen.zeroInstant data startTime - now)) as Hpos.
  destruct (Z.leb_spec
              (Z.max 0 (JS.ceil_div (DuelScreen.zeroInstant data startTime - now) 1000)) 0);
    [lia |].
  simpl. rewrite Hprev. repeat split.
Qed.

(** X3 for question 3 announced at 0, answered at 2000, with an earlier
    result of 17 points. *)
Lemma X3_answer_card_witness :
  let previous := {| DuelScreen.correct := true; DuelScreen.points_earned := 17;
                     DuelScreen.time_taken := 2 |} in
  let s := DuelScreen.apply_effects DuelScreen.initial
             (DuelScreen.handleAnswerSubmitted (Some previous)) in
  let started := DuelScreen.apply_effects s
                   (DuelScreen.handleQuestionStart (DuelScreen.mount_render "d1")
                      DuelScreen.demo_start 0 0) in
  DuelScreen.answerResultCard
    (DuelScreen.apply_effects started
       (DuelScreen.submitAnswer (DuelScreen.connected_render "d1" started) 1 2000))
  = Some previous.
Proof.
  intros previous s started.
  apply (X3_answer_card_shows_previous_result (DuelScreen.mount_render "d1") s
           DuelScreen.demo_start 0 0 1 2000 "d1" previous None).
  - reflexivity.
  - reflexivity.
Defined.

(** X4.  While the countdown of an announced question has not reached zero,
    its option buttons are enabled, and a click on option [index] in that
    render sends exactly one answer: for the announced question index, with
    the clicked option, whether or not the question has such an option. *)
Theorem X4_click_answers_announced_question
    (r : DuelScreen.Render) (s : DuelScreen.State)
    (data : DuelScreen.QuestionStart) (startTime now index clickedAt : Z)
    (duel : string) :
  now < DuelScreen.zeroInstant data startTime ->
  let started := DuelScreen.apply_effects s
                   (DuelScreen.handleQuestionStart r data startTime now) in
  DuelScreen.optionDisabled started = false
  /\ DuelScreen.emitted
       (DuelScreen.submitAnswer (DuelScreen.connected_render duel started)
          index clickedAt)
     = [ Types.answer duel (DuelScreen.qs_questionIndex data) index clickedAt ].
Proof.
  intros Hnow started. subst started.
  rewrite (handleQuestionStart_state r s data startTime now (or_intror Hnow)).
  unfold DuelScreen.optionDisabled, DuelScreen.submitAnswer, DuelScreen.connected_render.
  cbn [DuelScreen.state DuelScreen.hasAnswered DuelScreen.timeLeft
       DuelScreen.isConnected DuelScreen.socket DuelScreen.duelId
       DuelScreen.questionIndex].
  pose proof (ceil_div_positive (DuelScreen.zeroInstant data startTime - now)) as Hpos.
  destruct (Z.leb_spec
              (Z.max 0 (JS.ceil_div (DuelScreen.zeroInstant data startTime - now) 1000)) 0);
    [lia |].
  split; reflexivity.
Qed.

(** X4 for question 3 announced at 0 and option 7 clicked at 80. *)
Lemma X4_click_witness :
  DuelScreen.emitted
    (DuelScreen.submitAnswer
       (DuelScreen.connected_render "d1"
          (DuelScreen.apply_effects DuelScreen.initial
             (DuelScreen.handleQuestionStart (DuelScreen.mount_render "d1")
                DuelScreen.demo_start 0 0)))
       7 80)
  = [ Types.answer "d1" 3 7 80 ].
Proof.
  apply (X4_click_answers_announced_question (DuelScreen.mount_render "d1")
           DuelScreen.initial DuelScreen.demo_start 0 0 7 80 "d1").
  reflexivity.
Defined.

(** X5.  Clicking option buttons sends at most one answer per question,
    however many clicks follow one another: the first click that passes the
    guards sets [hasAnswered], and every click in a later render is
    ignored.  When the first click passes, it is the one sent. *)
Theorem X5_one_answer_per_question_by_clicks
    (r : DuelScreen.Render) (cs : list (Z * Z)) :
  (length (DuelScreen.emitted (DuelScreen.clickOptions r cs)) <= 1)%nat
  /\ (forall index now,
         DuelScreen.can_submit r ->
         DuelScreen.emitted (DuelScreen.clickOptions r ((index, now) :: cs))
         = [ Types.answer (DuelScreen.duelId r)
               (DuelScreen.questionIndex (DuelScreen.state r)) index now ]).
Proof.
  split; [apply clickOptions_at_most_one |].
  intros index now Hr. simpl.
  rewrite (submitAnswer_sends r index now Hr), emitted_app.
  rewrite clickOptions_answered by reflexivity. reflexivity.
Qed.

(** X5 for three clicks in the render of a mounted screen. *)
Lemma X5_one_answer_witness :
  DuelScreen.emitted
    (DuelScreen.clickOptions (DuelScreen.mount_render "d1")
       [(2, 1000); (1, 1200); (2, 1400)])
  = [ Types.answer "d1" 0 2 1000 ].
Proof.
  apply (proj2 (X5_one_answer_per_question_by_clicks
                  (DuelScreen.mount_render "d1") [(1, 1200); (2, 1400)]) 2 1000).
  repeat split; simpl; lia.
Defined.

(** X6.  [question_end] shows the result with the scores of the event and
    the "Preparing next question..." card; three seconds later the card is
    taken down for the questions 0 to 8 and stays for every later index, so
    after the last question it is never cleared.  The handler leaves the
    option buttons as they were: if they were enabled, a click still sends
    an answer for the question that has ended. *)
Theorem X6_question_end_keeps_options
    (s : DuelScreen.State) (data : DuelScreen.QuestionEnd)
    (duel : string) (index clickedAt : Z) :
  let ended := DuelScreen.apply_effects s (DuelScreen.handleQuestionEnd data) in
  let later := DuelScreen.apply_effects ended (DuelScreen.questionEndTimeout data) in
  DuelScreen.showResult ended = true
  /\ DuelScreen.scores ended = DuelScreen.qe_scores data
  /\ DuelScreen.waitingCard ended = true
  /\ DuelScreen.waitingCard later = (9 <=? DuelScreen.qe_questionIndex data)
  /\ DuelScreen.optionDisabled later = DuelScreen.optionDisabled s
  /\ (DuelScreen.optionDisabled s = false ->
      DuelScreen.emitted
        (DuelScreen.submitAnswer (DuelScreen.connected_render duel later)
           index clickedAt)
      = [ Types.answer duel (DuelScreen.questionIndex s) index clickedAt ]).
Proof.
  intros ended later. subst later ended.
  unfold DuelScreen.questionEndTimeout.
  destruct (Z.ltb_spec (DuelScreen.qe_questionIndex data) 9) as [Hlt | Hge];
    (destruct (Z.leb_spec 9 (DuelScreen.qe_questionIndex data)); [| ]; try lia);
    repeat split;
    intros Hen; unfold DuelScreen.optionDisabled in Hen;
    unfold DuelScreen.submitAnswer; simpl; rewrite Hen; reflexivity.
Qed.

(** X6 for the end of question 9 on a screen with 5 seconds on its clock. *)
Lemma X6_question_end_witness :
  let s := DuelScreen.apply_effects DuelScreen.initial
             [ DuelScreen.Upd (DuelScreen.setQuestionIndex 9);
               DuelScreen.Upd (DuelScreen.setTimeLeft 5) ] in
  let data := {| DuelScreen.qe_questionIndex := 9; DuelScreen.qe_correctIndex := 2;
                 DuelScreen.qe_explanation := "";
                 DuelScreen.qe_scores := {| Types.player1 := 40; Types.player2 := 31 |} |} in
  DuelScreen.emitted
    (DuelScreen.submitAnswer
       (DuelScreen.connected_render "d1"
          (DuelScreen.apply_effects
             (DuelScreen.apply_effects s (DuelScreen.handleQuestionEnd data))
             (DuelScreen.questionEndTimeout data)))
       1 9100)
  = [ Types.answer "d1" 9 1 9100 ].
Proof.
  intros s data.
  apply (X6_question_end_keeps_options s data "d1" 1 9100).
  reflexivity.
Defined.


(** ** Socket listeners *)

Section SocketFacts.
Import SocketContext.

(** The wrappers around handler [f] attached to [event]. *)
Lemma removeListener_keeps_wrappers (event f : string) (ev' g : string)
    (ls : list (string * Listener)) :
  filter (fun l => l = (event, Wrapper f)) (removeListener ev' (Callback g) ls)
  = filter (fun l => l = (event, Wrapper f)) ls.
Proof.
  induction ls as [| l ls IH]; [reflexivity |].
  simpl. case_bool_decide as Hl.
  - subst l. rewrite filter_cons_False by discriminate. reflexivity.
  - rewrite !filter_cons. rewrite IH. reflexivity.
Qed.

Lemma apply_ops_some (ops : list Op) (ls : list (string * Listener)) :
  exists ls', apply_ops (Some ls) ops = Some ls'.
Proof.
  revert ls. induction ops as [| op ops IH]; intros ls; [eauto |].
  unfold apply_ops in *. simpl. destruct op; simpl; apply IH.
Qed.

Lemma apply_ops_wrappers (event f : string) (ops : list Op) :
  forall ls ls',
    apply_ops (Some ls) ops = Some ls' ->
    length (filter (fun l => l = (event, Wrapper f)) ls')
    = (length (filter (fun l => l = (event, Wrapper f)) ls)
       + attachments event f ops)%nat.
Proof.
  unfold attachments.
  induction ops as [| op ops IH]; intros ls ls' Hrun.
  - simpl in Hrun. inversion Hrun; subst. simpl. lia.
  - unfold apply_ops in *. simpl in Hrun. destruct op as [ev g | ev g]; simpl in Hrun.
    + rewrite (IH _ _ Hrun), filter_app, length_app, !filter_cons, filter_nil.
      repeat case_decide; simplify_eq; simpl; try lia; congruence.
    + rewrite (IH _ _ Hrun), removeListener_keeps_wrappers, !filter_cons.
      case_decide; [discriminate | reflexivity].
Qed.

(** On a socket that only the context has attached listeners to, detaching
    removes nothing. *)
Lemma apply_ops_called (event f : string) (ops : list Op) :
  forall ls',
    apply_ops (Some []) ops = Some ls' ->
    length (filter (fun g => g = f) (called ls' event))
    = attachments event f ops.
Proof.
  assert (Hgen : forall ops ls ls',
             Forall (fun l => exists ev g, l = (ev, Wrapper g)) ls ->
             apply_ops (Some ls) ops = Some ls' ->
             Forall (fun l => exists ev g, l = (ev, Wrapper g)) ls').
  { clear. induction ops as [| op ops IH]; intros ls ls' Hls Hrun.
    - simpl in Hrun. inversion Hrun; subst. exact Hls.
    - unfold apply_ops in *. simpl in Hrun.
      destruct op as [ev g | ev g]; simpl in Hrun;
        refine (IH _ _ _ Hrun).
      + apply Forall_app. split; [exact Hls |]. constructor; [eauto | constructor].
      + clear Hrun IH. induction ls as [| l ls IHls]; [constructor |].
        simpl. inversion Hls; subst. case_bool_decide; [assumption |].
        constructor; auto. }
  intros ls' Hrun.
  pose proof (Hgen ops [] ls' (Forall_nil_2 _) Hrun) as Hall.
  rewrite <- (Nat.add_0_l (attachments event f ops)).
  change 0%nat with (length (filter (fun l => l = (event, Wrapper f))
                               (@nil (string * Listener)))).
  rewrite <- (apply_ops_wrappers event f ops [] ls' Hrun).
  clear Hrun. induction ls' as [| l ls' IH]; [reflexivity |].
  inversion Hall as [| ? ? (ev & g & ->) Hrest]; subst.
  unfold called in *. simpl. rewrite filter_cons.
  case_bool_decide as Hev; simpl in Hev.
  - subst ev. simpl. rewrite filter_cons.
    destruct (decide (g = f)) as [-> | Hne].
    + rewrite decide_True by reflexivity. simpl. f_equal. apply IH. exact Hrest.
    + rewrite decide_False; [apply IH; exact Hrest |].
      intros Heq. inversion Heq. contradiction.
  - rewrite decide_False; [apply IH; exact Hrest |].
    intros Heq. inversion Heq. contradiction.
Qed.

End SocketFacts.

Example on_then_off_leaves_wrapper :
  SocketContext.off
    (SocketContext.on (Some []) "matched" "handleMatched")
    "matched" (Some "handleMatched")
  = Some [ ("matched", SocketContext.Wrapper "handleMatched") ].
Proof. reflexivity. Qed.

(** X7.  [off(event, callback)] of the socket context never detaches what
    [on(event, callback)] attached, because [on] attaches a wrapper of its
    own around the callback: after any sequence of attaching and detaching
    by the screens, the socket carries one wrapper per [on] call, and on a
    socket with no other listeners an arriving event calls the handler once
    for every time it was ever attached.  Only [off(event)] without a
    callback drops the wrappers, with every other listener of the event;
    without a socket all of it does nothing. *)
Theorem X7_off_never_detaches (event f : string) (ops : list SocketContext.Op) :
  (forall ls, exists ls',
      SocketContext.apply_ops (Some ls) ops = Some ls'
      /\ length (filter (fun l => l = (event, SocketContext.Wrapper f)) ls')
         = (length (filter (fun l => l = (event, SocketContext.Wrapper f)) ls)
            + SocketContext.attachments event f ops)%nat)
  /\ (exists ls',
         SocketContext.apply_ops (Some []) ops = Some ls'
         /\ length (filter (fun g => g = f) (SocketContext.called ls' event))
            = SocketContext.attachments event f ops)
  /\ (forall ls, exists ls',
         SocketContext.off (Some ls) event None = Some ls'
         /\ SocketContext.called ls' event = [])
  /\ SocketContext.apply_ops None ops = None.
Proof.
  split; [| split; [| split]].
  - intros ls. destruct (apply_ops_some ops ls) as [ls' Hrun].
    exists ls'. split; [exact Hrun |].
    apply (apply_ops_wrappers event f ops ls ls' Hrun).
  - destruct (apply_ops_some ops []) as [ls' Hrun].
    exists ls'. split; [exact Hrun |].
    apply (apply_ops_called event f ops ls' Hrun).
  - intros ls. eexists. split; [reflexivity |].
    unfold SocketContext.called.
    induction ls as [| l ls IH]; [reflexivity |].
    rewrite filter_cons. destruct (decide (l.1 ≠ event)) as [Hne | Heq].
    + simpl. rewrite bool_decide_eq_false_2 by exact Hne. exact IH.
    + exact IH.
  - induction ops as [| op ops IH]; [reflexivity |].
    unfold SocketContext.apply_ops in *. simpl. destruct op; exact IH.
Qed.


(** ** Sessions in localStorage *)

Section AuthFacts.
Import Types AuthContext.

Variable stringify : User -> string.
Variable parse : string -> option User.

Lemma login_storage (w : World) (r : LoginResponse) :
  let storage := localStorage (fst (login stringify w (Some r))) in
  storage !! "codeduel_token" = Some (lr_token r)
  /\ storage !! "codeduel_refresh_token" = Some (lr_refresh_token r)
  /\ storage !! "codeduel_user" = Some (stringify (lr_user r)).
Proof. simpl. repeat split; by simplify_map_eq. Qed.

Lemma truthy_nonempty (v : string) : v ≠ "" -> JS.truthy_string (Some v) = true.
Proof.
  intros Hne. simpl. destruct (String.eqb_spec v ""); [contradiction | reflexivity].
Qed.

(** What a reload restores from a storage that holds a token and a
    parsable user. *)
Lemma restoreSession_stored (storage : gmap string string) (tok : string) (u : User) :
  storage !! "codeduel_token" = Some tok ->
  storage !! "codeduel_user" = Some (stringify u) ->
  tok ≠ "" -> stringify u ≠ "" -> parse (stringify u) = Some u ->
  restoreSession parse (reloaded storage)
  = Some {| auth := {| user := Some u; token := Some tok;
                       refreshToken := storage !! "codeduel_refresh_token";
                       isLoading := false |};
            localStorage := storage;
            axiosAuthorization := bearer tok |}.
Proof.
  intros Htok Huser Hne1 Hne2 Hparse. unfold restoreSession, reloaded.
  cbn [localStorage]. rewrite Htok, Huser, !truthy_nonempty by assumption.
  simpl. rewrite Hparse. reflexivity.
Qed.

End AuthFacts.

(** X8.  [logout] undoes [login] and nothing else: after a successful login
    followed by a logout, user, token and refresh token are [null], the
    axios header is gone, and localStorage is what it was before the login
    without the three [codeduel_] keys; every other key keeps its value. *)
Theorem X8_logout_undoes_login
    (stringify : Types.User -> string) (w : AuthContext.World)
    (r : AuthContext.LoginResponse) :
  let w' := AuthContext.logout (fst (AuthContext.login stringify w (Some r))) in
  AuthContext.user (AuthContext.auth w') = None
  /\ AuthContext.token (AuthContext.auth w') = None
  /\ AuthContext.refreshToken (AuthContext.auth w') = None
  /\ AuthContext.axiosAuthorization w' = None
  /\ AuthContext.localStorage w'
     = delete "codeduel_user"
         (delete "codeduel_refresh_token"
            (delete "codeduel_token" (AuthContext.localStorage w)))
  /\ (forall k,
         k ≠ "codeduel_token" -> k ≠ "codeduel_refresh_token" ->
         k ≠ "codeduel_user" ->
         AuthContext.localStorage w' !! k = AuthContext.localStorage w !! k).
Proof.
  intros w'. subst w'. simpl.
  assert (Hmap : delete "codeduel_user"
                   (delete "codeduel_refresh_token"
                      (delete "codeduel_token"
                         (<["codeduel_user":=stringify (AuthContext.lr_user r)]>
                            (<["codeduel_refresh_token":=AuthContext.lr_refresh_token r]>
                               (<["codeduel_token":=AuthContext.lr_token r]>
                                  (AuthContext.localStorage w))))))
                 = delete "codeduel_user"
                     (delete "codeduel_refresh_token"
                        (delete "codeduel_token" (AuthContext.localStorage w)))).
  { apply map_eq. intros k.
    destruct (decide (k = "codeduel_user")) as [-> | H1];
      [by simplify_map_eq |].
    destruct (decide (k = "codeduel_refresh_token")) as [-> | H2];
      [by simplify_map_eq |].
    destruct (decide (k = "codeduel_token")) as [-> | H3];
      [by simplify_map_eq |].
    by simplify_map_eq. }
  repeat split; [exact Hmap |].
  intros k H1 H2 H3. rewrite Hmap. by simplify_map_eq.
Qed.

(** X8 on a storage that holds a key of another application. *)
Lemma X8_logout_witness :
  AuthContext.localStorage
    (AuthContext.logout
       (fst (AuthContext.login Types.user_id
               (AuthContext.reloaded {[ "theme" := "dark" ]})
               (Some {| AuthContext.lr_user := MatchmakingScreen.demo_user;
                        AuthContext.lr_token := "t0";
                        AuthContext.lr_refresh_token := "r0" |}))))
  !! "theme"
  = AuthContext.localStorage (AuthContext.reloaded {[ "theme" := "dark" ]}) !! "theme".
Proof.
  apply (X8_logout_undoes_login Types.user_id
           (AuthContext.reloaded {[ "theme" := "dark" ]})
           {| AuthContext.lr_user := MatchmakingScreen.demo_user;
              AuthContext.lr_token := "t0";
              AuthContext.lr_refresh_token := "r0" |});
    discriminate.
Defined.

(** X9.  A session saved by [login] survives a reload: when the token is not
    empty and [JSON.parse] gives back the user that [JSON.stringify] wrote,
    the effect of the freshly mounted provider restores exactly the world
    the login left: the same user, token, refresh token, storage and axios
    header, with [isLoading] false. *)
Theorem X9_login_survives_reload
    (stringify : Types.User -> string) (parse : string -> option Types.User)
    (w : AuthContext.World) (r : AuthContext.LoginResponse) :
  AuthContext.lr_token r ≠ "" ->
  stringify (AuthContext.lr_user r) ≠ "" ->
  parse (stringify (AuthContext.lr_user r)) = Some (AuthContext.lr_user r) ->
  let logged := fst (AuthContext.login stringify w (Some r)) in
  AuthContext.restoreSession parse
    (AuthContext.reloaded (AuthContext.localStorage logged))
  = Some logged.
Proof.
  intros Htok Hstr Hparse logged. subst logged.
  destruct (login_storage stringify w r) as (H1 & H2 & H3). cbv zeta in H1, H2, H3.
  rewrite (restoreSession_stored stringify parse _ _ _ H1 H3 Htok Hstr Hparse), H2.
  reflexivity.
Qed.

(** X9 with a user written as its id and read back as the demo user. *)
Lemma X9_login_witness :
  let r := {| AuthContext.lr_user := MatchmakingScreen.demo_user;
              AuthContext.lr_token := "t0";
              AuthContext.lr_refresh_token := "r0" |} in
  let parse := fun text : string =>
                 if String.eqb text "u1" then Some MatchmakingScreen.demo_user
                 else None in
  AuthContext.restoreSession parse
    (AuthContext.reloaded
       (AuthContext.localStorage
          (fst (AuthContext.login Types.user_id (AuthContext.reloaded ∅) (Some r)))))
  = Some (fst (AuthContext.login Types.user_id (AuthContext.reloaded ∅) (Some r))).
Proof.
  intros r parse.
  apply (X9_login_survives_reload Types.user_id parse (AuthContext.reloaded ∅) r).
  - discriminate.
  - discriminate.
  - reflexivity.
Defined.

(** X10.  A reload restores a session only from a storage that holds both a
    non-empty [codeduel_token] and a non-empty [codeduel_user]: when either
    is missing or empty the provider stays logged out, with [isLoading]
    false and storage and header untouched, even if a refresh token is
    still stored.  That is what a reload finds after [logout].  When both
    are stored but the user entry does not parse, the effect throws before
    it reaches [setIsLoading(false)]. *)
Theorem X10_restore_needs_token_and_user
    (parse : string -> option Types.User) (storage : gmap string string) :
  (JS.truthy_string (storage !! "codeduel_token") = false
   \/ JS.truthy_string (storage !! "codeduel_user") = false ->
   AuthContext.restoreSession parse (AuthContext.reloaded storage)
   = Some {| AuthContext.auth :=
               {| AuthContext.user := None; AuthContext.token := None;
                  AuthContext.refreshToken := None;
                  AuthContext.isLoading := false |};
             AuthContext.localStorage := storage;
             AuthContext.axiosAuthorization := None |})
  /\ (forall w,
         storage = AuthContext.localStorage (AuthContext.logout w) ->
         JS.truthy_string (storage !! "codeduel_token") = false)
  /\ (forall tok text,
         storage !! "codeduel_token" = Some tok -> tok ≠ "" ->
         storage !! "codeduel_user" = Some text -> text ≠ "" ->
         parse text = None ->
         AuthContext.restoreSession parse (AuthContext.reloaded storage) = None).
Proof.
  split; [| split].
  - intros Hmissing. unfold AuthContext.restoreSession, AuthContext.reloaded.
    cbn [AuthContext.localStorage].
    destruct Hmissing as [-> | ->]; [reflexivity |].
    rewrite andb_false_r. reflexivity.
  - intros w ->. simpl. by simplify_map_eq.
  - intros tok text Htok Hne1 Huser Hne2 Hparse.
    unfold AuthContext.restoreSession, AuthContext.reloaded.
    cbn [AuthContext.localStorage].
    rewrite Htok, Huser, !truthy_nonempty by assumption.
    simpl. rewrite Hparse. reflexivity.
Qed.

(** X10 on a storage that holds only a refresh token. *)
Lemma X10_restore_witness :
  AuthContext.restoreSession (fun _ => None)
    (AuthContext.reloaded {[ "codeduel_refresh_token" := "r0" ]})
  = Some {| AuthContext.auth :=
              {| AuthContext.user := None; AuthContext.token := None;
                 AuthContext.refreshToken := None;
                 AuthContext.isLoading := false |};
            AuthContext.localStorage := {[ "codeduel_refresh_token" := "r0" ]};
            AuthContext.axiosAuthorization := None |}.
Proof.
  apply (proj1 (X10_restore_needs_token_and_user (fun _ => None)
                  {[ "codeduel_refresh_token" := "r0" ]})).
  left. reflexivity.
Defined.

(** X11.  The interceptor finds the refresh token where [login] put it:
    after a login whose refresh token is not empty, the first 401 of an
    unmarked request starts a refresh with exactly that token and leaves
    the storage alone.  After a [logout] the same 401 finds no token: the
    request is rejected, the storage cleared and the page sent to "/". *)
Theorem X11_login_feeds_the_interceptor
    (stringify : Types.User -> string) (w : AuthContext.World)
    (r : AuthContext.LoginResponse)
    (st : AxiosConfig.ModuleState) (req : AxiosConfig.Request) :
  AxiosConfig.isRefreshing st = false ->
  AxiosConfig._retry req = false ->
  AuthContext.lr_refresh_token r ≠ "" ->
  (AxiosConfig.localStorage st
   = AuthContext.localStorage (fst (AuthContext.login stringify w (Some r))) ->
   exists st',
     AxiosConfig.onRejected st (Some 401) req
     = (st', AxiosConfig.AwaitingRefresh (AxiosConfig.mark_retry req)
               (AuthContext.lr_refresh_token r))
     /\ AxiosConfig.isRefreshing st' = true
     /\ AxiosConfig.localStorage st' = AxiosConfig.localStorage st)
  /\ (forall w',
         AxiosConfig.localStorage st
         = AuthContext.localStorage (AuthContext.logout w') ->
         exists st',
           AxiosConfig.onRejected st (Some 401) req = (st', AxiosConfig.Rejected)
           /\ AxiosConfig.localStorage st' = ∅
           /\ AxiosConfig.location_href st' = "/").
Proof.
  intros Hidle Hfresh Hrt. split.
  - intros Hstorage.
    destruct (login_storage stringify w r) as (_ & H2 & _). cbv zeta in H2.
    rewrite <- Hstorage in H2.
    unfold AxiosConfig.onRejected. rewrite Hfresh, Hidle, H2.
    rewrite (truthy_nonempty _ Hrt). simpl. eexists. repeat split.
  - intros w' Hstorage.
    apply no_refresh_token_logs_out; [exact Hidle | exact Hfresh |].
    rewrite Hstorage. simpl. by simplify_map_eq.
Qed.

(** X11 for the demo user's login with refresh token r0. *)
Lemma X11_login_witness :
  exists st',
    AxiosConfig.onRejected
      {| AxiosConfig.isRefreshing := false; AxiosConfig.failedQueue := [];
         AxiosConfig.localStorage :=
           AuthContext.localStorage
             (fst (AuthContext.login Types.user_id (AuthContext.reloaded ∅)
                     (Some {| AuthContext.lr_user := MatchmakingScreen.demo_user;
                              AuthContext.lr_token := "t0";
                              AuthContext.lr_refresh_token := "r0" |})));
         AxiosConfig.location_href := "/topics";
         AxiosConfig.defaultAuthorization := None |}
      (Some 401) (AxiosConfig.get "/api/topics")
    = (st', AxiosConfig.AwaitingRefresh
              (AxiosConfig.mark_retry (AxiosConfig.get "/api/topics")) "r0").
Proof.
  destruct (proj1 (X11_login_feeds_the_interceptor Types.user_id
                     (AuthContext.reloaded ∅)
                     {| AuthContext.lr_user := MatchmakingScreen.demo_user;
                        AuthContext.lr_token := "t0";
                        AuthContext.lr_refresh_token := "r0" |}
                     {| AxiosConfig.isRefreshing := false;
                        AxiosConfig.failedQueue := [];
                        AxiosConfig.localStorage :=
                          AuthContext.localStorage
                            (fst (AuthContext.login Types.user_id
                                    (AuthContext.reloaded ∅)
                                    (Some {| AuthContext.lr_user := MatchmakingScreen.demo_user;
                                             AuthContext.lr_token := "t0";
                                             AuthContext.lr_refresh_token := "r0" |})));
                        AxiosConfig.location_href := "/topics";
                        AxiosConfig.defaultAuthorization := None |}
                     (AxiosConfig.get "/api/topics")
                     eq_refl eq_refl ltac:(discriminate)) eq_refl)
    as (st' & Heq & _).
  exists st'. exact Heq.
Defined.

(** X12.  A refreshed token survives a reload, whichever code refreshed it.
    After the interceptor's refresh succeeded on the storage a login left,
    a reload restores the login's user and refresh token with the new
    token; and after a successful [refreshAccessToken] of the provider a
    reload restores exactly the world it left. *)
Theorem X12_refreshed_token_survives_reload
    (stringify : Types.User -> string) (parse : string -> option Types.User)
    (w : AuthContext.World) (r : AuthContext.LoginResponse)
    (st : AxiosConfig.ModuleState) (req : AxiosConfig.Request)
    (newToken : string) :
  newToken ≠ "" ->
  AuthContext.lr_refresh_token r ≠ "" ->
  stringify (AuthContext.lr_user r) ≠ "" ->
  parse (stringify (AuthContext.lr_user r)) = Some (AuthContext.lr_user r) ->
  let logged := fst (AuthContext.login stringify w (Some r)) in
  (AxiosConfig.localStorage st = AuthContext.localStorage logged ->
   let storage :=
     AxiosConfig.localStorage (fst (AxiosConfig.refreshFulfilled st req newToken)) in
   AuthContext.restoreSession parse (AuthContext.reloaded storage)
   = Some {| AuthContext.auth :=
               {| AuthContext.user := Some (AuthContext.lr_user r);
                  AuthContext.token := Some newToken;
                  AuthContext.refreshToken := Some (AuthContext.lr_refresh_token r);
                  AuthContext.isLoading := false |};
             AuthContext.localStorage := storage;
             AuthContext.axiosAuthorization := AuthContext.bearer newToken |})
  /\ snd (AuthContext.refreshAccessToken logged (Some newToken)) = true
  /\ AuthContext.restoreSession parse
       (AuthContext.reloaded
          (AuthContext.localStorage
             (fst (AuthContext.refreshAccessToken logged (Some newToken)))))
     = Some (fst (AuthContext.refreshAccessToken logged (Some newToken))).
Proof.
  intros Hnew Hrt Hstr Hparse logged. subst logged.
  destruct (login_storage stringify w r) as (H1 & H2 & H3). cbv zeta in H1, H2, H3.
  split; [| split].
  - intros Hstorage storage. subst storage. simpl. rewrite Hstorage.
    set (storage := <["codeduel_token":=newToken]> _).
    assert (Ht : storage !! "codeduel_token" = Some newToken)
      by (subst storage; by simplify_map_eq).
    assert (Hu : storage !! "codeduel_user" = Some (stringify (AuthContext.lr_user r)))
      by (subst storage; by simplify_map_eq).
    assert (Hr : storage !! "codeduel_refresh_token"
                 = Some (AuthContext.lr_refresh_token r))
      by (subst storage; by simplify_map_eq).
    rewrite (restoreSession_stored stringify parse _ _ _ Ht Hu Hnew Hstr Hparse), Hr.
    reflexivity.
  - unfold AuthContext.refreshAccessToken, AuthContext.login.
    cbn [AuthContext.auth AuthContext.refreshToken fst].
    rewrite (truthy_nonempty _ Hrt). reflexivity.
  - unfold AuthContext.refreshAccessToken, AuthContext.login.
    cbn [AuthContext.auth AuthContext.refreshToken fst].
    rewrite (truthy_nonempty _ Hrt). cbn [negb fst AuthContext.localStorage].
    set (storage := <["codeduel_token":=newToken]> _).
    assert (Ht : storage !! "codeduel_token" = Some newToken)
      by (subst storage; by simplify_map_eq).
    assert (Hu : storage !! "codeduel_user" = Some (stringify (AuthContext.lr_user r)))
      by (subst storage; by simplify_map_eq).
    assert (Hr : storage !! "codeduel_refresh_token"
                 = Some (AuthContext.lr_refresh_token r))
      by (subst storage; by simplify_map_eq).
    rewrite (restoreSession_stored stringify parse _ _ _ Ht Hu Hnew Hstr Hparse), Hr.
    reflexivity.
Qed.

(** X12 for the demo user's login and the new token t1. *)
Lemma X12_refreshed_token_witness :
  let r := {| AuthContext.lr_user := MatchmakingScreen.demo_user;
              AuthContext.lr_token := "t0";
              AuthContext.lr_refresh_token := "r0" |} in
  let parse := fun text : string =>
                 if String.eqb text "u1" then Some MatchmakingScreen.demo_user
                 else None in
  let logged := fst (AuthContext.login Types.user_id (AuthContext.reloaded ∅) (Some r)) in
  snd (AuthContext.refreshAccessToken logged (Some "t1")) = true.
Proof.
  intros r parse logged.
  apply (X12_refreshed_token_survives_reload Types.user_id parse
           (AuthContext.reloaded ∅) r
           {| AxiosConfig.isRefreshing := true; AxiosConfig.failedQueue := [];
              AxiosConfig.localStorage := AuthContext.localStorage logged;
              AxiosConfig.location_href := "/topics";
              AxiosConfig.defaultAuthorization := None |}
           (AxiosConfig.get "/api/topics") "t1");
    try discriminate; reflexivity.
Defined.


(** ** The interceptor over whole runs *)

Section InterceptorRuns.
Import AxiosConfig.

Lemma net_run_cons (p : Page) (ev : NetEvent) (evs : list NetEvent) :
  net_run p (ev :: evs) = net_run (net_step p ev) evs.
Proof. reflexivity. Qed.

(** One event: nothing is lost, and a refresh stays covered by the flag. *)
Lemma net_step_accounts (p : Page) (ev : NetEvent) :
  single_flight p ->
  (pending (net_step p ev) + settled (net_step p ev)
   = pending p + settled p + intercepted p ev)%nat
  /\ single_flight (net_step p ev).
Proof.
  unfold single_flight, pending, settled, intercepted. intros Hsf.
  destruct ev as [req | u status | newToken |]; simpl.
  - split; [lia | exact Hsf].
  - destruct (configs p !! u) as [req |]; [| split; [lia | exact Hsf]].
    unfold onRejected.
    destruct (bool_decide (Some status = Some 401) && negb (_retry req)).
    + destruct (isRefreshing (mstate p)) eqn:Hflag.
      * simpl. rewrite length_app. simpl. split; [lia | intros _; reflexivity].
      * assert (Hnone : awaiting p = None).
        { destruct (awaiting p); [| reflexivity].
          assert (false = true) by (apply Hsf; discriminate). discriminate. }
        destruct (negb (JS.truthy_string (localStorage (mstate p) !! "codeduel_refresh_token")));
          simpl.
        -- rewrite length_app. simpl. split; [lia | intros _; reflexivity].
        -- rewrite Hnone. split; [lia | intros _; reflexivity].
    + simpl. rewrite length_app. simpl. split; [lia | exact Hsf].
  - destruct (awaiting p) as [req |] eqn:Haw.
    + simpl. rewrite length_app. simpl. rewrite !length_map.
      split; [lia | intros H; contradiction].
    + rewrite Haw. simpl. split; [lia | exact Hsf].
  - destruct (awaiting p) as [req |] eqn:Haw.
    + simpl. rewrite length_app, length_map, length_app. simpl.
      split; [lia | intros H; contradiction].
    + rewrite Haw. simpl. split; [lia | exact Hsf].
Qed.

Lemma net_run_accounts (evs : list NetEvent) :
  forall p,
    single_flight p ->
    (pending (net_run p evs) + settled (net_run p evs)
     = pending p + settled p + interceptedAlong p evs)%nat
    /\ single_flight (net_run p evs).
Proof.
  induction evs as [| ev evs IH]; intros p Hsf.
  - simpl. split; [lia | exact Hsf].
  - rewrite net_run_cons.
    destruct (net_step_accounts p ev Hsf) as [Hstep Hsf'].
    destruct (IH _ Hsf') as [Hrun Hsf''].
    split; [| exact Hsf'']. simpl. lia.
Qed.

(** Once the flag is set with no refresh in flight, no event clears it. *)
Lemma net_step_stuck (p : Page) (ev : NetEvent) :
  isRefreshing (mstate p) = true -> awaiting p = None ->
  isRefreshing (mstate (net_step p ev)) = true
  /\ awaiting (net_step p ev) = None
  /\ refreshes (net_step p ev) = refreshes p
  /\ replays (net_step p ev) = replays p
  /\ failedQueue (mstate p) `prefix_of` failedQueue (mstate (net_step p ev)).
Proof.
  intros Hflag Hnone.
  destruct ev as [req | u status | newToken |]; simpl.
  - repeat split; auto.
  - destruct (configs p !! u) as [req |]; [| repeat split; auto].
    unfold onRejected. rewrite Hflag.
    destruct (bool_decide (Some status = Some 401) && negb (_retry req)); simpl.
    + repeat split; auto. apply prefix_app_r. reflexivity.
    + repeat split; auto.
  - rewrite Hnone. repeat split; auto.
  - rewrite Hnone. repeat split; auto.
Qed.

Lemma net_run_stuck (evs : list NetEvent) :
  forall p,
    isRefreshing (mstate p) = true -> awaiting p = None ->
    isRefreshing (mstate (net_run p evs)) = true
    /\ awaiting (net_run p evs) = None
    /\ refreshes (net_run p evs) = refreshes p
    /\ replays (net_run p evs) = replays p
    /\ failedQueue (mstate p) `prefix_of` failedQueue (mstate (net_run p evs)).
Proof.
  induction evs as [| ev evs IH]; intros p Hflag Hnone.
  - simpl. repeat split; auto.
  - rewrite net_run_cons.
    destruct (net_step_stuck p ev Hflag Hnone) as (H1 & H2 & H3 & H4 & H5).
    destruct (IH _ H1 H2) as (K1 & K2 & K3 & K4 & K5).
    repeat split; auto; try congruence.
    etransitivity; eassumption.
Qed.

End InterceptorRuns.

Example accounts_after_refresh :
  let p := AxiosConfig.net_run (AxiosConfig.fresh AxiosConfig.logged_in)
             [ AxiosConfig.Send (AxiosConfig.get "/a");
               AxiosConfig.Send (AxiosConfig.get "/b");
               AxiosConfig.Fail "/a" 401; AxiosConfig.Fail "/b" 401;
               AxiosConfig.Fail "/c" 401 ] in
  AxiosConfig.pending p = 2%nat /\ AxiosConfig.settled p = 0%nat.
Proof. split; reflexivity. Qed.

(** X13.  The interceptor loses no request.  Along every run of a freshly
    loaded page, each failed request handed to the interceptor is, at any
    moment, either settled (rejected, or sent again) or held back (queued,
    or waiting for the refresh it started): the two counts add up to the
    number of requests handed over. *)
Theorem X13_no_request_is_lost
    (storage : gmap string string) (evs : list AxiosConfig.NetEvent) :
  let p := AxiosConfig.net_run (AxiosConfig.fresh storage) evs in
  (AxiosConfig.pending p + AxiosConfig.settled p)%nat
  = AxiosConfig.interceptedAlong (AxiosConfig.fresh storage) evs.
Proof.
  intros p. subst p.
  destruct (net_run_accounts evs (AxiosConfig.fresh storage)) as [Hrun _].
  - intros H. contradiction.
  - rewrite Hrun. reflexivity.
Qed.

(** X14.  At most one refresh is in flight.  On every page reached from a
    fresh load, while a refresh is awaited [isRefreshing] is set, and a
    request that fails then, whatever its status, neither starts a refresh
    nor displaces the request that waits for the current one. *)
Theorem X14_single_refresh_in_flight
    (storage : gmap string string) (evs : list AxiosConfig.NetEvent)
    (u : string) (status : Z) :
  let p := AxiosConfig.net_run (AxiosConfig.fresh storage) evs in
  AxiosConfig.awaiting p <> None ->
  AxiosConfig.isRefreshing (AxiosConfig.mstate p) = true
  /\ AxiosConfig.refreshes (AxiosConfig.net_step p (AxiosConfig.Fail u status))
     = AxiosConfig.refreshes p
  /\ AxiosConfig.awaiting (AxiosConfig.net_step p (AxiosConfig.Fail u status))
     = AxiosConfig.awaiting p.
Proof.
  intros p Haw.
  assert (Hsf : AxiosConfig.single_flight p).
  { subst p. apply net_run_accounts. intros H. contradiction. }
  pose proof (Hsf Haw) as Hflag. split; [exact Hflag |].
  simpl. destruct (AxiosConfig.configs p !! u) as [req |]; [| split; reflexivity].
  unfold AxiosConfig.onRejected. rewrite Hflag.
  destruct (bool_decide (Some status = Some 401) && negb (AxiosConfig._retry req));
    split; reflexivity.
Qed.

(** X14 while the refresh started by /a is awaited and /b fails. *)
Lemma X14_single_refresh_witness :
  AxiosConfig.refreshes
    (AxiosConfig.net_step
       (AxiosConfig.net_run (AxiosConfig.fresh AxiosConfig.logged_in)
          [ AxiosConfig.Send (AxiosConfig.get "/a");
            AxiosConfig.Send (AxiosConfig.get "/b");
            AxiosConfig.Fail "/a" 401 ])
       (AxiosConfig.Fail "/b" 401))
  = AxiosConfig.refreshes
      (AxiosConfig.net_run (AxiosConfig.fresh AxiosConfig.logged_in)
         [ AxiosConfig.Send (AxiosConfig.get "/a");
           AxiosConfig.Send (AxiosConfig.get "/b");
           AxiosConfig.Fail "/a" 401 ]).
Proof.
  apply (X14_single_refresh_in_flight AxiosConfig.logged_in
           [ AxiosConfig.Send (AxiosConfig.get "/a");
             AxiosConfig.Send (AxiosConfig.get "/b");
             AxiosConfig.Fail "/a" 401 ] "/b" 401).
  vm_compute. discriminate.
Defined.

(** X15.  A 401 without a stored refresh token leaves [isRefreshing] set for
    good.  The request is rejected, but the early return skips the
    [finally] that clears the flag; from then on no event clears it, no
    refresh is ever started and nothing is ever sent again, and every
    unmarked request that fails with 401 joins a queue that only grows: its
    promise is never settled. *)
Theorem X15_flag_stays_set_without_refresh_token
    (storage : gmap string string) (req : AxiosConfig.Request)
    (evs : list AxiosConfig.NetEvent) :
  AxiosConfig._retry req = false ->
  JS.truthy_string (storage !! "codeduel_refresh_token") = false ->
  let p0 := AxiosConfig.net_run (AxiosConfig.fresh storage)
              [ AxiosConfig.Send req; AxiosConfig.Fail (AxiosConfig.url req) 401 ] in
  let p := AxiosConfig.net_run p0 evs in
  AxiosConfig.rejections p0 = [ AxiosConfig.url req ]
  /\ AxiosConfig.isRefreshing (AxiosConfig.mstate p) = true
  /\ AxiosConfig.refreshes p = 0%nat
  /\ AxiosConfig.replays p = []
  /\ (forall more,
         AxiosConfig.failedQueue (AxiosConfig.mstate p)
         `prefix_of`
         AxiosConfig.failedQueue (AxiosConfig.mstate (AxiosConfig.net_run p more))).
Proof.
  intros Hfresh Hnone p0 p.
  assert (Hp0 : AxiosConfig.rejections p0 = [ AxiosConfig.url req ]
                /\ AxiosConfig.isRefreshing (AxiosConfig.mstate p0) = true
                /\ AxiosConfig.awaiting p0 = None
                /\ AxiosConfig.refreshes p0 = 0%nat
                /\ AxiosConfig.replays p0 = []).
  { subst p0. unfold AxiosConfig.net_run. simpl. rewrite lookup_insert_eq.
    unfold AxiosConfig.onRejected. rewrite Hfresh. simpl. rewrite Hnone. simpl.
    repeat split. }
  destruct Hp0 as (Hrej & Hflag & Haw & Href & Hrep).
  destruct (net_run_stuck evs p0 Hflag Haw) as (K1 & K2 & K3 & K4 & _).
  fold p in K1, K2, K3, K4.
  repeat split; try congruence.
  intros more. apply (net_run_stuck more p K1 K2).
Qed.

(** X15 with an empty storage: /a is rejected, /b then waits for ever. *)
Lemma X15_flag_witness :
  AxiosConfig.replays
    (AxiosConfig.net_run
       (AxiosConfig.net_run (AxiosConfig.fresh ∅)
          [ AxiosConfig.Send (AxiosConfig.get "/a");
            AxiosConfig.Fail (AxiosConfig.url (AxiosConfig.get "/a")) 401 ])
       [ AxiosConfig.Send (AxiosConfig.get "/b"); AxiosConfig.Fail "/b" 401;
         AxiosConfig.RefreshOk "t1" ])
  = [].
Proof.
  apply (X15_flag_stays_set_without_refresh_token ∅ (AxiosConfig.get "/a")
           [ AxiosConfig.Send (AxiosConfig.get "/b"); AxiosConfig.Fail "/b" 401;
             AxiosConfig.RefreshOk "t1" ]);
    reflexivity.
Defined.


(** ** What the matchmaking screen sends *)

Section MatchmakingRuns.
Import Types MatchmakingScreen.

Lemma cleanup_is_silent (c : Context) (sc : Screen) :
  first_cleanup c sc ->
  match live sc with
  | Some cl => emitted (runCleanup cl)
  | None => []
  end = [].
Proof. intros [-> | ->]; reflexivity. Qed.

Lemma run_snoc (c : Context) (evs : list Event) (ev : Event) :
  run c (evs ++ [ev]) = dispatch c (run c evs) ev.
Proof. unfold run. rewrite foldl_app. reflexivity. Qed.

(** What one event adds to the messages sent. *)
Lemma dispatch_sent (c : Context) (sc : Screen) (ev : Event) :
  first_cleanup c sc ->
  sent (dispatch c sc ev)
  = sent sc
    ++ (if mounted sc then
          match ev, ticket (cur sc) with
          | ClickCancel, Some t =>
              if socket c then [ cancel_queue (ticket_id t) ] else []
          | _, _ => []
          end
        else []).
Proof.
  intros Hfirst. pose proof (cleanup_is_silent c sc Hfirst) as Hsilent.
  unfold dispatch. destruct (mounted sc); simpl; [| rewrite app_nil_r; reflexivity].
  destruct ev as [t | d | m | |].
  - destruct (socket c); simpl; rewrite app_nil_r; reflexivity.
  - destruct (socket c); simpl; [| rewrite app_nil_r; reflexivity].
    rewrite Hsilent, !app_nil_r. reflexivity.
  - destruct (socket c); simpl; rewrite app_nil_r; reflexivity.
  - unfold perform, cancelMatchmaking, emit. simpl.
    destruct (ticket (cur sc)) as [t |]; [destruct (socket c) |]; simpl;
      rewrite Hsilent, !app_nil_r; reflexivity.
  - unfold unmount. simpl. rewrite Hsilent. reflexivity.
Qed.

Lemma dispatch_cancel_unmounts (c : Context) (sc : Screen) :
  mounted (dispatch c sc ClickCancel) = false.
Proof.
  unfold dispatch. destruct (mounted sc) eqn:Hm; simpl; [| exact Hm].
  unfold perform, cancelMatchmaking, emit. simpl.
  destruct (ticket (cur sc)) as [t |]; [destruct (socket c) |]; reflexivity.
Qed.

Lemma dispatch_unmounted (c : Context) (sc : Screen) (ev : Event) :
  mounted sc = false -> dispatch c sc ev = sc.
Proof. intros Hm. unfold dispatch. rewrite Hm. reflexivity. Qed.

(** A ticket is held only after [queue_joined]. *)
Lemma dispatch_ticket (c : Context) (sc : Screen) (ev : Event) :
  is_QueueJoined ev = false ->
  ticket (cur (dispatch c sc ev)) = ticket (cur sc).
Proof.
  intros Hev. unfold dispatch. destruct (mounted sc); [| reflexivity].
  destruct ev as [t | d | m | |]; try discriminate Hev;
    try (destruct (socket c); reflexivity); try reflexivity.
  all: unfold perform, cancelMatchmaking, emit; simpl;
    destruct (ticket (cur sc)) as [t |] eqn:Ht; [destruct (socket c) |];
    simpl; rewrite ?Ht; reflexivity.
Qed.

Lemma mount_ticket (c : Context) : ticket (cur (mount c)) = None.
Proof.
  unfold mount, effect, startMatchmaking, emit. cbn [ctx state].
  destruct (user c); [destruct (JS.truthy_string (topic c)) |]; try reflexivity.
  destruct (socket c); reflexivity.
Qed.

Lemma run_ticket (c : Context) (evs : list Event) :
  existsb is_QueueJoined evs = false -> ticket (cur (run c evs)) = None.
Proof.
  induction evs as [| ev evs IH] using rev_ind; intros Hno.
  - apply mount_ticket.
  - rewrite existsb_app in Hno. apply orb_false_iff in Hno as [Hevs Hev].
    simpl in Hev. rewrite orb_false_r in Hev.
    rewrite run_snoc, dispatch_ticket by exact Hev. apply IH. exact Hevs.
Qed.

(** The messages of a run: those of mounting, then at most one
    [cancel_queue], which only a Cancel click on a ticket adds and which
    ends the screen. *)
Lemma run_sent (c : Context) (evs : list Event) :
  exists extra,
    sent (run c evs) = sent (mount c) ++ extra
    /\ (extra = []
        \/ (exists id, extra = [ cancel_queue id ])
           /\ mounted (run c evs) = false
           /\ ClickCancel ∈ evs
           /\ existsb is_QueueJoined evs = true).
Proof.
  induction evs as [| ev evs IH] using rev_ind.
  - exists []. split; [rewrite app_nil_r; reflexivity | left; reflexivity].
  - destruct IH as (extra & Hsent & Hextra).
    rewrite run_snoc, (dispatch_sent c _ ev (run_first_cleanup c evs)), Hsent.
    destruct Hextra as [-> | ((id & ->) & Hm & Hin & Hq)].
    + rewrite app_nil_r.
      destruct (mounted (run c evs)) eqn:Hm;
        [| exists []; split; [reflexivity | left; reflexivity]].
      destruct ev as [t | d | m | |];
        try (exists []; split; [reflexivity | left; reflexivity]).
      destruct (ticket (cur (run c evs))) as [t |] eqn:Ht;
        [| exists []; split; [reflexivity | left; reflexivity]].
      destruct (socket c);
        [| exists []; split; [reflexivity | left; reflexivity]].
      eexists. split; [reflexivity |]. right. repeat split.
      * eauto.
      * apply dispatch_cancel_unmounts.
      * apply elem_of_app. right. left.
      * rewrite existsb_app.
        destruct (existsb is_QueueJoined evs) eqn:Hq; [reflexivity |].
        rewrite (run_ticket c evs Hq) in Ht. discriminate.
    + rewrite Hm, app_nil_r. exists [ cancel_queue id ].
      split; [reflexivity |]. right. repeat split.
      * eauto.
      * rewrite dispatch_unmounted by exact Hm. exact Hm.
      * apply elem_of_app. left. exact Hin.
      * rewrite existsb_app, Hq. reflexivity.
Qed.

Lemma mount_sent (c : Context) :
  sent (mount c) = []
  \/ exists u, user c = Some u
               /\ sent (mount c) = [ join_queue (user_id u) (topic c) ].
Proof.
  unfold mount, effect, startMatchmaking, emit. cbn [ctx state].
  destruct (user c) as [u |]; [| left; reflexivity].
  destruct (JS.truthy_string (topic c)); [| left; reflexivity].
  destruct (socket c); [right; eauto | left; reflexivity].
Qed.

End MatchmakingRuns.

Example cancel_before_ticket_sends_nothing :
  MatchmakingScreen.sent
    (MatchmakingScreen.run MatchmakingScreen.demo_context
       [ MatchmakingScreen.ClickCancel;
         MatchmakingScreen.QueueJoined MatchmakingScreen.demo_ticket ])
  = [ Types.join_queue "u1" (Some "algorithms") ].
Proof. reflexivity. Qed.

(** X16.  Whatever happens on a mounted matchmaking screen, it sends at most
    one [join_queue], when it mounts, for the logged-in user and the topic
    of the route, followed by at most one [cancel_queue]; and a
    [cancel_queue] is only ever sent by a click on Cancel. *)
Theorem X16_one_join_then_one_cancel
    (c : MatchmakingScreen.Context) (evs : list MatchmakingScreen.Event) :
  exists joined cancelled,
    MatchmakingScreen.sent (MatchmakingScreen.run c evs) = joined ++ cancelled
    /\ (joined = []
        \/ exists u, MatchmakingScreen.user c = Some u
                     /\ joined = [ Types.join_queue (Types.user_id u)
                                     (MatchmakingScreen.topic c) ])
    /\ (cancelled = [] \/ exists id, cancelled = [ Types.cancel_queue id ])
    /\ (MatchmakingScreen.ClickCancel ∉ evs -> cancelled = []).
Proof.
  destruct (run_sent c evs) as (extra & Hsent & Hextra).
  exists (MatchmakingScreen.sent (MatchmakingScreen.mount c)), extra.
  split; [exact Hsent | split; [apply mount_sent | split]].
  - destruct Hextra as [-> | (Hid & _)]; [left; reflexivity | right; exact Hid].
  - intros Hno. destruct Hextra as [-> | (_ & _ & Hin & _)]; [reflexivity | contradiction].
Qed.

(** X16 for a screen that gets its ticket and is then unmounted. *)
Lemma X16_one_join_witness :
  exists joined cancelled,
    MatchmakingScreen.sent
      (MatchmakingScreen.run MatchmakingScreen.demo_context
         [ MatchmakingScreen.QueueJoined MatchmakingScreen.demo_ticket;
           MatchmakingScreen.Unmount ])
    = joined ++ cancelled
    /\ cancelled = [].
Proof.
  destruct (X16_one_join_then_one_cancel MatchmakingScreen.demo_context
              [ MatchmakingScreen.QueueJoined MatchmakingScreen.demo_ticket;
                MatchmakingScreen.Unmount ])
    as (joined & cancelled & Hsent & _ & _ & Hno).
  exists joined, cancelled. split; [exact Hsent |].
  apply Hno. intros Hin.
  apply list_elem_of_In in Hin. simpl in Hin.
  destruct Hin as [H | [H | []]]; discriminate H.
Defined.

(** X17.  Until [queue_joined] has delivered a ticket the screen has nothing
    to cancel: in a run without [queue_joined] nothing is sent beyond what
    mounting sent, so a click on Cancel that comes before the ticket leaves
    the matchmaking request standing: [join_queue] was sent and no
    [cancel_queue] follows. *)
Theorem X17_cancel_before_ticket_sends_nothing
    (c : MatchmakingScreen.Context) (evs : list MatchmakingScreen.Event) :
  existsb MatchmakingScreen.is_QueueJoined evs = false ->
  MatchmakingScreen.sent (MatchmakingScreen.run c evs)
  = MatchmakingScreen.sent (MatchmakingScreen.mount c)
  /\ (MatchmakingScreen.ClickCancel ∈ evs ->
      MatchmakingScreen.mounted (MatchmakingScreen.run c evs) = false).
Proof.
  intros Hno. split.
  - destruct (run_sent c evs) as (extra & Hsent & [-> | (_ & _ & _ & Hq)]).
    + rewrite Hsent, app_nil_r. reflexivity.
    + rewrite Hno in Hq. discriminate Hq.
  - clear Hno. induction evs as [| ev evs IH] using rev_ind; intros Hin.
    + inversion Hin.
    + rewrite run_snoc. apply elem_of_app in Hin as [Hin | Hin].
      * rewrite dispatch_unmounted; apply IH; exact Hin.
      * apply list_elem_of_singleton in Hin. subst ev.
        apply dispatch_cancel_unmounts.
Qed.

(** X17 for a click on Cancel right after mounting. *)
Lemma X17_cancel_before_ticket_witness :
  MatchmakingScreen.sent
    (MatchmakingScreen.run MatchmakingScreen.demo_context
       [ MatchmakingScreen.ClickCancel ])
  = MatchmakingScreen.sent (MatchmakingScreen.mount MatchmakingScreen.demo_context).
Proof.
  apply (X17_cancel_before_ticket_sends_nothing MatchmakingScreen.demo_context
           [ MatchmakingScreen.ClickCancel ]).
  reflexivity.
Defined.

(** X18.  Without a logged-in user, or without a topic in the route state
    (missing or empty), the matchmaking screen does no matchmaking: its
    effect navigates to /topics, nothing is ever sent, and no later event
    has any effect on it. *)
Theorem X18_no_matchmaking_without_user_or_topic
    (c : MatchmakingScreen.Context) (evs : list MatchmakingScreen.Event) :
  MatchmakingScreen.user c = None
  \/ JS.truthy_string (MatchmakingScreen.topic c) = false ->
  MatchmakingScreen.run c evs = MatchmakingScreen.mount c
  /\ MatchmakingScreen.sent (MatchmakingScreen.run c evs) = []
  /\ MatchmakingScreen.mounted (MatchmakingScreen.run c evs) = false
  /\ fst (MatchmakingScreen.effect
            {| MatchmakingScreen.ctx := c;
               MatchmakingScreen.state := MatchmakingScreen.initial |})
     = [ MatchmakingScreen.Navigate "/topics" ].
Proof.
  intros Hguard.
  assert (Hmount : MatchmakingScreen.sent (MatchmakingScreen.mount c) = []
                   /\ MatchmakingScreen.mounted (MatchmakingScreen.mount c) = false
                   /\ fst (MatchmakingScreen.effect
                             {| MatchmakingScreen.ctx := c;
                                MatchmakingScreen.state := MatchmakingScreen.initial |})
                      = [ MatchmakingScreen.Navigate "/topics" ]).
  { unfold MatchmakingScreen.mount, MatchmakingScreen.effect.
    cbn [MatchmakingScreen.ctx MatchmakingScreen.state].
    destruct Hguard as [-> | Htopic].
    - repeat split.
    - destruct (MatchmakingScreen.user c); rewrite ?Htopic; repeat split. }
  destruct Hmount as (Hsent & Hm & Heff).
  assert (Hrun : MatchmakingScreen.run c evs = MatchmakingScreen.mount c).
  { induction evs as [| ev evs IH] using rev_ind; [reflexivity |].
    rewrite run_snoc, IH. apply dispatch_unmounted. exact Hm. }
  rewrite Hrun. repeat split; assumption.
Qed.

(** X18 for a route state with an empty topic. *)
Lemma X18_no_matchmaking_witness :
  MatchmakingScreen.sent
    (MatchmakingScreen.run
       {| MatchmakingScreen.user := Some MatchmakingScreen.demo_user;
          MatchmakingScreen.socket := true;
          MatchmakingScreen.topic := Some "" |}
       [ MatchmakingScreen.QueueJoined MatchmakingScreen.demo_ticket;
         MatchmakingScreen.ClickCancel ])
  = [].
Proof.
  apply (X18_no_matchmaking_without_user_or_topic
           {| MatchmakingScreen.user := Some MatchmakingScreen.demo_user;
              MatchmakingScreen.socket := true;
              MatchmakingScreen.topic := Some "" |}
           [ MatchmakingScreen.QueueJoined MatchmakingScreen.demo_ticket;
             MatchmakingScreen.ClickCancel ]).
  right. reflexivity.
Defined.


(** ** The selection of topics *)

Section TopicRuns.
Import TopicSelection.

Lemma clicks_snoc (ts : list string) (t : string) (sel : list string) :
  clicks (ts ++ [t]) sel = toggleTopic t (clicks ts sel).
Proof. unfold clicks. rewrite foldl_app. reflexivity. Qed.

Lemma toggleTopic_NoDup (t : string) (sel : list string) :
  NoDup sel -> NoDup (toggleTopic t sel).
Proof.
  intros Hnd. unfold toggleTopic. case_bool_decide as Hin.
  - apply NoDup_filter. exact Hnd.
  - apply NoDup_app. split; [exact Hnd | split].
    + intros x Hx Hx'. apply list_elem_of_singleton in Hx'. subst x. contradiction.
    + apply NoDup_singleton.
Qed.

Lemma toggleTopic_member (t t' : string) (sel : list string) :
  bool_decide (t' ∈ toggleTopic t sel)
  = xorb (bool_decide (t' = t)) (bool_decide (t' ∈ sel)).
Proof.
  apply eq_true_iff_eq. rewrite bool_decide_eq_true, toggleTopic_elem.
  destruct (decide (t' = t)) as [-> | Hne].
  - rewrite (bool_decide_eq_true_2 (t = t)) by reflexivity.
    destruct (decide (t ∈ sel)) as [Hin | Hout].
    + rewrite (bool_decide_eq_true_2 _ Hin). simpl. intuition discriminate.
    + rewrite (bool_decide_eq_false_2 _ Hout). simpl. tauto.
  - rewrite (bool_decide_eq_false_2 (t' = t)) by exact Hne. simpl.
    rewrite bool_decide_eq_true. tauto.
Qed.

Lemma clickCount_snoc (t x : string) (ts : list string) :
  clickCount t (ts ++ [x])
  = (clickCount t ts + if bool_decide (x = t) then 1 else 0)%nat.
Proof.
  unfold clickCount. rewrite filter_app, length_app, filter_cons, filter_nil.
  case_decide; case_bool_decide; try contradiction; reflexivity.
Qed.

Lemma replaceHyphen_no_hyphen (topic : string) :
  hyphens topic = 0%nat -> replaceHyphen topic = topic.
Proof.
  induction topic as [| ch rest IH]; [reflexivity |].
  simpl. destruct (Ascii.eqb ch hyphen); [discriminate |].
  intros Hrest. rewrite IH by exact Hrest. reflexivity.
Qed.

End TopicRuns.

Example display_of_system_design :
  TopicSelection.replaceHyphen "system-design" = "system design".
Proof. reflexivity. Qed.

Example display_keeps_second_hyphen :
  TopicSelection.replaceHyphen "test-driven-development" = "test driven-development".
Proof. reflexivity. Qed.

(** X19.  The selection never lists a topic twice and lists only topics that
    were clicked: toggling keeps a duplicate-free selection duplicate-free,
    so whatever topics are clicked from the empty selection, in whatever
    order and however often, the result has no duplicates and all its
    topics are among the clicked ones. *)
Theorem X19_selection_has_no_duplicates (ts sel : list string) :
  NoDup sel ->
  NoDup (TopicSelection.clicks ts sel)
  /\ (forall t, t ∈ TopicSelection.clicks ts sel -> t ∈ sel \/ t ∈ ts).
Proof.
  intros Hnd. induction ts as [| x ts IH] using rev_ind.
  - split; [exact Hnd | intros t Ht; left; exact Ht].
  - destruct IH as [IHnd IHin]. rewrite clicks_snoc. split.
    + apply toggleTopic_NoDup. exact IHnd.
    + intros t Ht. apply toggleTopic_elem in Ht as [[-> _] | [_ Ht]].
      * right. apply elem_of_app. right. left.
      * destruct (IHin t Ht) as [Hs | Hc]; [left; exact Hs |].
        right. apply elem_of_app. left. exact Hc.
Qed.

(** X19 for five clicks on three topics. *)
Lemma X19_selection_witness :
  NoDup (TopicSelection.clicks ["react"; "python"; "react"; "react"; "python"] []).
Proof.
  apply (X19_selection_has_no_duplicates
           ["react"; "python"; "react"; "react"; "python"] []).
  apply NoDup_nil_2.
Defined.

(** X20.  Starting from the empty selection, a topic is selected exactly
    when it has been clicked an odd number of times. *)
Theorem X20_selected_iff_clicked_odd_times (t : string) (ts : list string) :
  bool_decide (t ∈ TopicSelection.clicks ts [])
  = Nat.odd (TopicSelection.clickCount t ts).
Proof.
  induction ts as [| x ts IH] using rev_ind.
  - reflexivity.
  - rewrite clicks_snoc, toggleTopic_member, IH, clickCount_snoc.
    destruct (decide (t = x)) as [<- | Hne].
    + rewrite !bool_decide_eq_true_2 by reflexivity.
      rewrite Nat.add_1_r, Nat.odd_succ, <- Nat.negb_odd. reflexivity.
    + rewrite (bool_decide_eq_false_2 (t = x)) by exact Hne.
      rewrite (bool_decide_eq_false_2 (x = t)) by congruence.
      rewrite Nat.add_0_r. reflexivity.
Qed.

(** X21.  Whenever the Start Duel button is enabled, a click on it starts
    matchmaking for a selected topic: [startDuel] sets the loading flag and
    navigates to /matchmaking with the head of the selection, which is one
    of the selected topics.  With an empty selection the button is
    disabled. *)
Theorem X21_enabled_start_navigates (s : TopicSelection.State) :
  (TopicSelection.startDisabled s = false ->
   exists t,
     TopicSelection.startDuel s
     = [ TopicSelection.setIsLoading true;
         TopicSelection.Navigate "/matchmaking" (Some t) ]
     /\ TopicSelection.selectedTopics s !! 0%nat = Some t
     /\ t ∈ TopicSelection.selectedTopics s)
  /\ (TopicSelection.selectedTopics s = [] ->
      TopicSelection.startDisabled s = true).
Proof.
  unfold TopicSelection.startDisabled, TopicSelection.startDuel. split.
  - intros Hen. apply orb_false_iff in Hen as [Hlen _].
    destruct (TopicSelection.selectedTopics s) as [| t rest]; [discriminate |].
    exists t. simpl. repeat split. left.
  - intros ->. reflexivity.
Qed.

(** X21 for the selection react, python. *)
Lemma X21_enabled_start_witness :
  exists t,
    TopicSelection.startDuel
      {| TopicSelection.selectedTopics := ["react"; "python"];
         TopicSelection.topics := ["python"; "react"];
         TopicSelection.isLoading := false |}
    = [ TopicSelection.setIsLoading true;
        TopicSelection.Navigate "/matchmaking" (Some t) ].
Proof.
  destruct (proj1 (X21_enabled_start_navigates
                     {| TopicSelection.selectedTopics := ["react"; "python"];
                        TopicSelection.topics := ["python"; "react"];
                        TopicSelection.isLoading := false |}) eq_refl)
    as (t & Heq & _).
  exists t. exact Heq.
Defined.

(** X22.  The screens show a topic with its first hyphen, and only the
    first, turned into a space: the text before the first hyphen and
    everything after it are kept as they are, so a topic with several
    hyphens keeps the later ones, a topic without hyphen is shown
    unchanged, and the length never changes. *)
Theorem X22_only_first_hyphen_is_replaced (before after : string) :
  TopicSelection.hyphens before = 0%nat ->
  TopicSelection.replaceHyphen
    (before +:+ String TopicSelection.hyphen after)
  = before +:+ String TopicSelection.space after
  /\ TopicSelection.replaceHyphen before = before
  /\ TopicSelection.hyphens
       (TopicSelection.replaceHyphen
          (before +:+ String TopicSelection.hyphen after))
     = TopicSelection.hyphens after
  /\ String.length
       (TopicSelection.replaceHyphen
          (before +:+ String TopicSelection.hyphen after))
     = String.length (before +:+ String TopicSelection.hyphen after).
Proof.
  intros Hnone.
  assert (Hmain : TopicSelection.replaceHyphen
                    (before +:+ String TopicSelection.hyphen after)
                  = before +:+ String TopicSelection.space after).
  { induction before as [| ch rest IH]; [reflexivity |].
    simpl in *. destruct (Ascii.eqb ch TopicSelection.hyphen); [discriminate |].
    rewrite IH by exact Hnone. reflexivity. }
  split; [exact Hmain | split; [apply replaceHyphen_no_hyphen; exact Hnone | split]].
  - rewrite Hmain. clear Hmain.
    induction before as [| ch rest IH]; [reflexivity |].
    simpl in *. destruct (Ascii.eqb ch TopicSelection.hyphen); [discriminate |].
    apply IH. exact Hnone.
  - rewrite Hmain. clear.
    induction before as [| ch rest IH]; [reflexivity |].
    simpl. rewrite IH. reflexivity.
Qed.

(** X22 for "data-structures". *)
Lemma X22_first_hyphen_witness :
  TopicSelection.replaceHyphen
    ("data" +:+ String TopicSelection.hyphen "structures")
  = "data" +:+ String TopicSelection.space "structures".
Proof.
  apply (X22_only_first_hyphen_is_replaced "data" "structures").
  reflexivity.
Defined.


(** ** The scores of the results screen *)

(** X23.  The results screen decides whose score is whose by comparing the
    user's id with the literal 'player1'.  For every user with another id
    it shows the score of slot [player2] as "Your Score" and that of slot
    [player1] as the opponent's, so both players of a duel are shown the
    same number as their own; only a user whose id is 'player1' sees the
    slots the other way round. *)
Theorem X23_scores_by_literal_player1
    (u : Types.User) (finalScores : Types.Scores) :
  (Types.user_id u ≠ "player1" ->
   ResultsScreen.userScore (Some u) (Some finalScores)
   = Some (Types.player2 finalScores)
   /\ ResultsScreen.opponentScore (Some u) (Some finalScores)
      = Some (Types.player1 finalScores))
  /\ (Types.user_id u = "player1" ->
      ResultsScreen.userScore (Some u) (Some finalScores)
      = Some (Types.player1 finalScores)
      /\ ResultsScreen.opponentScore (Some u) (Some finalScores)
         = Some (Types.player2 finalScores))
  /\ (forall v,
         Types.user_id u ≠ "player1" -> Types.user_id v ≠ "player1" ->
         ResultsScreen.userScore (Some u) (Some finalScores)
         = ResultsScreen.userScore (Some v) (Some finalScores)).
Proof.
  assert (Hother : forall w, Types.user_id w ≠ "player1" ->
             ResultsScreen.userScore (Some w) (Some finalScores)
             = Some (Types.player2 finalScores)
             /\ ResultsScreen.opponentScore (Some w) (Some finalScores)
                = Some (Types.player1 finalScores)).
  { intros w Hne. unfold ResultsScreen.userScore, ResultsScreen.opponentScore,
      JS.strict_eq. simpl.
    rewrite bool_decide_eq_false_2 by congruence. split; reflexivity. }
  split; [apply Hother | split].
  - intros Heq. unfold ResultsScreen.userScore, ResultsScreen.opponentScore,
      JS.strict_eq. simpl. rewrite Heq.
    rewrite bool_decide_eq_true_2 by reflexivity. split; reflexivity.
  - intros v Hu Hv.
    destruct (Hother u Hu) as [-> _]. destruct (Hother v Hv) as [-> _]. reflexivity.
Qed.

(** X23 for the demo user, whose id is u1. *)
Lemma X23_scores_witness :
  ResultsScreen.userScore (Some MatchmakingScreen.demo_user)
    (Some {| Types.player1 := 40; Types.player2 := 31 |})
  = Some 31.
Proof.
  apply (proj1 (X23_scores_by_literal_player1 MatchmakingScreen.demo_user
                  {| Types.player1 := 40; Types.player2 := 31 |})).
  discriminate.
Defined.


(** ** The timers of the duel screen, again *)

(** X24.  The answer a question timer sends at the end of the time names
    the question of the render that attached the listeners, not the
    question that was announced: for listeners attached when the screen
    mounts, every auto-submission carries [questionIndex = 0] and
    [selectedIndex = -1], whatever the index of the announced question. *)
Theorem X24_autosubmission_names_question_of_mount_render
    (duel : string) (data : DuelScreen.QuestionStart)
    (startTime now : Z) (clock : list Z) :
  existsb (DuelScreen.timeUp data startTime) (now :: clock) = true ->
  exists ts,
    DuelScreen.emitted
      (DuelScreen.questionRun (DuelScreen.mount_render duel) data startTime now clock)
    = [ Types.answer duel 0 (-1) ts ].
Proof.
  intros Hup.
  assert (Hr : DuelScreen.can_submit (DuelScreen.mount_render duel))
    by (repeat split; simpl; lia).
  rewrite questionRun_emitted. unfold DuelScreen.timeUp in Hup.
  destruct (DuelScreen.qs_deadline data) as [deadline |].
  - apply (updateTimer_chain _ deadline Hr clock now Hup).
  - apply (updateFallbackTimer_chain _ _ Hr clock now Hup).
Qed.

(** X24 for question 3, announced with its deadline at 9000. *)
Lemma X24_autosubmission_witness :
  exists ts,
    DuelScreen.emitted
      (DuelScreen.questionRun (DuelScreen.mount_render "d1")
         DuelScreen.demo_start 0 0 [4000; 8950])
    = [ Types.answer "d1" 0 (-1) ts ].
Proof.
  apply (X24_autosubmission_names_question_of_mount_render "d1"
           DuelScreen.demo_start 0 0 [4000; 8950]).
  reflexivity.
Defined.


